(** * ActivityPub transport core of NodeBB: signing, verification, delivery

    A shallow embedding of [src/activitypub/index.js].  Asynchronous
    functions become computations in a state-and-exception monad over an
    explicit [World] (key store, response cache, network trace); the
    collaborators the module requires ([crypto], [request], [nconf],
    [user], [actors]) are the fields of an [Env] record.  The deliveries
    that [send] runs jointly are also given as callbacks that take turns
    between their suspensions, under any schedule. *)

From Stdlib Require Import ZArith Ascii String List DecimalString DecimalPos DecimalZ Lia.
From stdpp Require Import gmap strings list fin_maps.

Set Warnings "-register-all".
Open Scope Z_scope.

(** ** JavaScript string primitives used by the module *)

Module Js.

Definition dquote : ascii := "034"%char.
Definition newline : ascii := "010"%char.
Definition str1 (c : ascii) : string := String c EmptyString.

(** [s.startsWith(p)] *)
Definition startsWith (s p : string) : bool := String.prefix p s.

Definition cons_head (a : ascii) (l : list string) : list string :=
  match l with
  | [] => [str1 a]
  | x :: r => String a x :: r
  end.

(** [s.split(sep)] for a non-empty separator: the pieces between the
    non-overlapping occurrences of [sep], found left to right.  [skip]
    counts the characters of a matched separator still to be consumed. *)
Fixpoint split_aux (sep : string) (skip : nat) (s : string) : list string :=
  match s with
  | EmptyString => [EmptyString]
  | String a s' =>
      match skip with
      | S k => split_aux sep k s'
      | O =>
          if String.prefix sep (String a s')
          then EmptyString :: split_aux sep (String.length sep - 1) s'
          else cons_head a (split_aux sep 0 s')
      end
  end.

Definition split (sep s : string) : list string :=
  match sep with
  | EmptyString => map str1 (list_ascii_of_string s)
  | String _ _ => split_aux sep 0 s
  end.

(** [l.join(sep)] *)
Fixpoint join (sep : string) (l : list string) : string :=
  match l with
  | [] => EmptyString
  | x :: r =>
      match r with
      | [] => x
      | _ :: _ => x +:+ sep +:+ join sep r
      end
  end.

(** [s.slice(0, -1)] *)
Fixpoint slice_0_m1 (s : string) : string :=
  match s with
  | EmptyString => EmptyString
  | String a s' =>
      match s' with
      | EmptyString => EmptyString
      | String _ _ => String a (slice_0_m1 s')
      end
  end.

Definition lower_ascii (c : ascii) : ascii :=
  let n := nat_of_ascii c in
  if (65 <=? n)%nat && (n <=? 90)%nat then ascii_of_nat (n + 32) else c.

(** [s.toLowerCase()] on the ASCII range *)
Fixpoint toLowerCase (s : string) : string :=
  match s with
  | EmptyString => EmptyString
  | String a s' => String (lower_ascii a) (toLowerCase s')
  end.

(** [String(n)] for an integer [n] *)
Definition String_of_Z (n : Z) : string := NilZero.string_of_int (Z.to_int n).

(** Membership of a character in a string. *)
Fixpoint has_char (c : ascii) (s : string) : bool :=
  match s with
  | EmptyString => false
  | String a s' => Ascii.eqb a c || has_char c s'
  end.

End Js.

(** ** JavaScript values, objects and exceptions *)

Inductive JsVal : Type :=
  | JUndefined
  | JNull
  | JBool (b : bool)
  | JNum (n : Z)
  | JStr (s : string)
  | JObj (fields : list (string * JsVal)).

(** An object is the list of its own properties in insertion order. *)
Abbreviation Obj := (list (string * JsVal)).

Inductive Err : Type :=
  | TypeError (msg : string)
  | Error (msg : string).

Inductive Result (A : Type) : Type :=
  | Return (a : A)
  | Throw (e : Err).
Arguments Return {A} a.
Arguments Throw {A} e.

(** The condition of [if (v)]. *)
Definition truthy (v : JsVal) : bool :=
  match v with
  | JUndefined | JNull => false
  | JBool b => b
  | JNum n => negb (n =? 0)
  | JStr s => negb (String.eqb s EmptyString)
  | JObj _ => true
  end.

Fixpoint obj_get (k : string) (o : Obj) : option JsVal :=
  match o with
  | [] => None
  | (k', v) :: o' => if String.eqb k' k then Some v else obj_get k o'
  end.

(** [o[k] = v]: an existing property keeps its place, a new one goes last. *)
Fixpoint obj_set (k : string) (v : JsVal) (o : Obj) : Obj :=
  match o with
  | [] => [(k, v)]
  | (k', v') :: o' =>
      if String.eqb k' k then (k, v) :: o' else (k', v') :: obj_set k v o'
  end.

(** [{ ...base, ...src }]: the properties of [src] are assigned in order. *)
Definition obj_spread (base src : Obj) : Obj :=
  fold_left (fun acc kv => obj_set kv.1 kv.2 acc) src base.

(** Property names of a well-formed object are pairwise distinct. *)
Definition obj_wf (o : Obj) : Prop := NoDup (map fst o).

(** [v.hasOwnProperty(k)].  The method is looked up on [v] itself: on
    [null] or [undefined] the lookup throws, and an object that has a
    member named [hasOwnProperty] of its own (a parsed JSON value, never a
    function) makes the call throw.  The names asked for ([publicKey],
    [error]) are carried by no primitive. *)
Definition hasOwnProperty (v : JsVal) (k : string) : Result bool :=
  match v with
  | JUndefined | JNull => Throw (TypeError "Cannot read properties of undefined")
  | JObj o =>
      match obj_get "hasOwnProperty" o with
      | Some _ => Throw (TypeError "hasOwnProperty is not a function")
      | None => Return (bool_decide (is_Some (obj_get k o)))
      end
  | _ => Return false
  end.

(** [v[k]], also the value bound by the pattern [const { k } = v]. *)
Definition get_prop (v : JsVal) (k : string) : Result JsVal :=
  match v with
  | JUndefined | JNull => Throw (TypeError "Cannot destructure property")
  | JObj o => Return (default JUndefined (obj_get k o))
  | _ => Return JUndefined
  end.

Definition opt_js (o : option string) : JsVal :=
  match o with
  | Some s => JStr s
  | None => JUndefined
  end.

(** ** The world the module runs in *)

Record Keypair : Type := { publicKey : string; privateKey : string }.

Record UserFields : Type := { inbox : option string; sharedInbox : option string }.

Inductive NetCall : Type :=
  | HttpGet (uri : JsVal) (headers : Obj)
  | HttpPost (uri : string) (headers : Obj) (body : JsVal).

Record Response : Type := { statusCode : Z; body : JsVal }.

(** One entry of the network trace: the request and what came back. *)
Abbreviation NetEvent := (NetCall * Result Response)%type.

Record World : Type := {
  db : gmap string Keypair;        (* objects stored under uid:<uid>:keys *)
  users : gmap string UserFields;  (* actor records read by user.getUserFields *)
  requestCache : gmap string JsVal;
  net : list NetEvent;             (* oldest first *)
  clock : nat;                     (* read by new Date() *)
  entropy : nat                    (* consumed by key generation *)
}.

Definition set_db (f : gmap string Keypair -> gmap string Keypair) (w : World) : World :=
  {| db := f (db w); users := users w; requestCache := requestCache w;
     net := net w; clock := clock w; entropy := entropy w |}.
Definition set_requestCache (f : gmap string JsVal -> gmap string JsVal) (w : World) : World :=
  {| db := db w; users := users w; requestCache := f (requestCache w);
     net := net w; clock := clock w; entropy := entropy w |}.
Definition set_net (f : list NetEvent -> list NetEvent) (w : World) : World :=
  {| db := db w; users := users w; requestCache := requestCache w;
     net := f (net w); clock := clock w; entropy := entropy w |}.
Definition set_entropy (f : nat -> nat) (w : World) : World :=
  {| db := db w; users := users w; requestCache := requestCache w;
     net := net w; clock := clock w; entropy := f (entropy w) |}.

Definition lookup_fields (w : World) (id : string) : UserFields :=
  default {| inbox := None; sharedInbox := None |} (users w !! id).

(** ** Computations: state passing with exceptions *)

Definition M (A : Type) : Type := World -> Result A * World.

Definition ret {A} (a : A) : M A := fun w => (Return a, w).
Definition throw {A} (e : Err) : M A := fun w => (Throw e, w).
Definition bind {A B} (c : M A) (k : A -> M B) : M B := fun w =>
  match c w with
  | (Return a, w') => k a w'
  | (Throw e, w') => (Throw e, w')
  end.
(** [try { c } catch (e) { h e }]: effects made before the throw stay. *)
Definition try_catch {A} (c : M A) (h : Err -> M A) : M A := fun w =>
  match c w with
  | (Return a, w') => (Return a, w')
  | (Throw e, w') => h e w'
  end.
Definition lift {A} (r : Result A) : M A := fun w => (r, w).
Definition gets {A} (f : World -> A) : M A := fun w => (Return (f w), w).
Definition modify (f : World -> World) : M unit := fun w => (Return tt, f w).

Notation "'do' x <- c ;; k" := (bind c (fun x => k))
  (at level 10, x name, c at level 99, k at level 200, only parsing).

(** [await Promise.all(ps)] in the run in which the computations do not
    overlap: each settles before the next begins.  None is cancelled when
    another one rejects, so all of them run; the result is the list of
    values, or the rejection that came first, which in this run is the
    first in the list.  The callbacks of [resolveInboxes] only read, so
    their order does not show; the deliveries of [send] share the key
    store and the network, and their overlapping runs are given by [run]
    below, of which this one is the schedule [one_by_one]. *)
Fixpoint Promise_all {A} (ps : list (M A)) : M (list A) := fun w =>
  match ps with
  | [] => (Return [], w)
  | p :: rest =>
      let '(r, w1) := p w in
      let '(rs, w2) := Promise_all rest w1 in
      (match r, rs with
       | Throw e, _ => Throw e
       | Return _, Throw e => Throw e
       | Return a, Return l => Return (a :: l)
       end, w2)
  end.

(** ** Collaborators required by the module *)

Record Env : Type := {
  nconf_url : string;                               (* nconf.get('url') *)
  parse_URL : string -> option (string * string);   (* new URL(u): host, pathname; None when it throws *)
  toUTCString : nat -> string;                      (* new Date().toUTCString() *)
  JSON_stringify : JsVal -> string;
  sha256_base64 : string -> string;                 (* createHash('sha256').update(s).digest('base64') *)
  rsa_sign : string -> string -> Result string;     (* createSign('sha256').update(m).sign(key, 'base64') *)
  rsa_verify : JsVal -> string -> JsVal -> Result bool;
                                                    (* createVerify('sha256').update(m).verify(key, sig, 'base64') *)
  generateKeyPair : nat -> Keypair;
  http : list NetEvent -> NetCall -> Result Response;
                                                    (* the remote side, given the trace so far *)
  actors_assert : list string -> World -> Result unit * World
}.

(** ** The module *)

Section ActivityPub.

Variable E : Env.

Definition accept_type : string :=
  "application/ld+json; profile=" +:+ Js.str1 Js.dquote
  +:+ "https://www.w3.org/ns/activitystreams" +:+ Js.str1 Js.dquote.

Definition eq_quote : string := "=" +:+ Js.str1 Js.dquote.

(** [request.get(uri, { headers })] and [request.post(uri, { headers, body })]:
    the call and its outcome are appended to the trace. *)
Definition request (call : NetCall) : M Response := fun w =>
  let r := http E (net w) call in
  (r, set_net (fun l => l ++ [(call, r)]) w).

Definition keys_key (uid : Z) : string := "uid:" +:+ Js.String_of_Z uid +:+ ":keys".

(** Modelled from the spec: [db.getObject] of the external data store
    (defined in the database layer, outside this module), "returning
    {publicKey, privateKey}, throwing/rejecting when absent". *)
Definition db_getObject (key : string) : M Keypair := fun w =>
  match db w !! key with
  | Some kp => (Return kp, w)
  | None => (Throw (Error "object not found"), w)
  end.

(** Modelled from the spec: [helpers.generateKeys] (defined in
    activitypub/helpers.js, outside this module): a keypair is "generated
    lazily and persisted by the external data store", under the key that
    [db_getObject] reads, and returned. *)
Definition generateKeys (uid : Z) : M Keypair := fun w =>
  let kp := generateKeyPair E (entropy w) in
  (Return kp, set_entropy S (set_db (insert (keys_key uid) kp) w)).

(** Modelled from the spec: [user.getUserFields(id, ['inbox', 'sharedInbox'])]
    of the identity field store; an unknown identifier has neither field. *)
Definition getUserFields (id : string) : M UserFields :=
  gets (fun w => lookup_fields w id).

Definition getPublicKey (uid : Z) : M string :=
  try_catch
    (do kp <- db_getObject (keys_key uid) ;; ret (publicKey kp))
    (fun _ => do kp <- generateKeys uid ;; ret (publicKey kp)).

Definition getPrivateKey (uid : Z) : M string :=
  try_catch
    (do kp <- db_getObject (keys_key uid) ;; ret (privateKey kp))
    (fun _ => do kp <- generateKeys uid ;; ret (privateKey kp)).

(** [x || y] on optional strings: the empty string is falsy. *)
Definition str_truthy (o : option string) : bool :=
  match o with
  | Some s => negb (String.eqb s EmptyString)
  | None => false
  end.
Definition str_or (x y : option string) : option string :=
  if str_truthy x then x else y.

(** [set.add(x)] on a [Set] kept in insertion order. *)
Definition Set_add (x : string) (s : list string) : list string :=
  if bool_decide (x ∈ s) then s else s ++ [x].

(** What one identifier contributes: [sharedInbox || inbox] when truthy. *)
Definition resolve_one (id : string) : M (option string) :=
  do f <- getUserFields id ;;
  ret (if str_truthy (str_or (sharedInbox f) (inbox f))
       then str_or (sharedInbox f) (inbox f)
       else None).

Definition Set_add_opt (s : list string) (c : option string) : list string :=
  match c with
  | Some x => Set_add x s
  | None => s
  end.

(** The callbacks only read the field store, so the set they fill is
    threaded through their results. *)
Definition resolveInboxes (ids : list string) : M (list string) :=
  do _ <- actors_assert E ids ;;
  do found <- Promise_all (map resolve_one ids) ;;
  ret (fold_left Set_add_opt found []).

Definition pubKey_not_found : Err := Error "[[error:activitypub.pubKey-not-found]]".

Definition fetchPublicKey (uri : JsVal) : M JsVal :=
  do r <- request (HttpGet uri [("Accept"%string, JStr accept_type)]) ;;
  if negb (Js.startsWith (Js.String_of_Z (statusCode r)) "2")
  then throw pubKey_not_found
  else
    do has <- lift (hasOwnProperty (body r) "publicKey") ;;
    if negb has then throw pubKey_not_found
    else lift (get_prop (body r) "publicKey").

Record SignatureHeader : Type := {
  date : string;
  digest : option string;
  signature : string
}.

Definition sign_method (payload : JsVal) : string :=
  if truthy payload then "post" else "get".

Definition sign_keyId (uid : Z) : string :=
  nconf_url E +:+ (if 0 <? uid then "/uid/" +:+ Js.String_of_Z uid else "/actor") +:+ "#key".

Definition sign_digest (payload : JsVal) : option string :=
  if truthy payload
  then Some ("sha-256=" +:+ sha256_base64 E (JSON_stringify E payload))
  else None.

Definition sign_headers (payload : JsVal) : string :=
  "(request-target) host date" +:+ (if truthy payload then " digest" else EmptyString).

Definition sign_string (host pathname date : string) (payload : JsVal) : string :=
  "(request-target): " +:+ sign_method payload +:+ " " +:+ pathname
  +:+ Js.str1 Js.newline +:+ "host: " +:+ host
  +:+ Js.str1 Js.newline +:+ "date: " +:+ date
  +:+ match sign_digest payload with
      | Some d => Js.str1 Js.newline +:+ "digest: " +:+ d
      | None => EmptyString
      end.

Definition signature_value (keyId headers sig : string) : string :=
  "keyId" +:+ eq_quote +:+ keyId +:+ Js.str1 Js.dquote
  +:+ ",headers" +:+ eq_quote +:+ headers +:+ Js.str1 Js.dquote
  +:+ ",signature" +:+ eq_quote +:+ sig +:+ Js.str1 Js.dquote.

(** [uid] is the integer [parseInt(uid, 10)] of a numeric argument. *)
Definition sign (uid : Z) (url : string) (payload : JsVal) : M SignatureHeader :=
  if uid <? 0 then throw (Error "[[error:invalid-uid]]")
  else
    match parse_URL E url with
    | None => throw (TypeError "Invalid URL")
    | Some (host, pathname) =>
        do now <- gets (fun w => toUTCString E (clock w)) ;;
        do key <- getPrivateKey uid ;;
        do sig <- lift (rsa_sign E key (sign_string host pathname now payload)) ;;
        ret {| date := now;
               digest := sign_digest payload;
               signature := signature_value (sign_keyId uid) (sign_headers payload) sig |}
    end.

(** The inbound request as the HTTP layer hands it over. *)
Record Request : Type := {
  method : string;
  baseUrl : string;
  path : string;
  req_headers : gmap string string;
  req_body : JsVal
}.

(** The same request with another body. *)
Definition with_body (req : Request) (b : JsVal) : Request :=
  {| method := method req; baseUrl := baseUrl req; path := path req;
     req_headers := req_headers req; req_body := b |}.

(** One step of the reduce that breaks the signature header apart. *)
Definition parse_field (memo : gmap string string) (cur : string) : gmap string string :=
  let split := Js.split eq_quote cur in
  let key := hd EmptyString split in
  let value := Js.join eq_quote (tl split) in
  <[key := Js.slice_0_m1 value]> memo.

Definition parse_signature (sigv : string) : gmap string string :=
  fold_left parse_field (Js.split "," sigv) ∅.

(** One step of the reduce that re-constructs the signed string. *)
Definition rebuild_step (req : Request) (memo : list string) (cur : string) : list string :=
  if String.eqb cur "(request-target)"
  then memo ++ [cur +:+ ": " +:+ Js.toLowerCase (method req) +:+ " "
                +:+ baseUrl req +:+ path req]
  else match req_headers req !! cur with
       | Some v => memo ++ [cur +:+ ": " +:+ v]
       | None => memo
       end.

Definition rebuild_signed_string (req : Request) (headers : string) : string :=
  Js.join (Js.str1 Js.newline) (fold_left (rebuild_step req) (Js.split " " headers) []).

Definition verify (req : Request) : M bool :=
  match req_headers req !! "signature"%string with
  | None => ret false
  | Some sigv =>
      let memo := parse_signature sigv in
      match memo !! "headers"%string with
      | None => throw (TypeError "Cannot read properties of undefined (reading 'split')")
      | Some headers =>
          let signed_string := rebuild_signed_string req headers in
          try_catch
            (do pk <- fetchPublicKey (opt_js (memo !! "keyId"%string)) ;;
             do publicKeyPem <- lift (get_prop pk "publicKeyPem") ;;
             lift (rsa_verify E publicKeyPem signed_string
                     (opt_js (memo !! "signature"%string))))
            (fun _ => ret false)
      end
  end.

(** The object [sign] resolves to, as spread into request headers. *)
Definition sig_obj (h : SignatureHeader) : Obj :=
  [("date"%string, JStr (date h));
   ("digest"%string, match digest h with Some d => JStr d | None => JNull end);
   ("signature"%string, JStr (signature h))].

Definition get_failed : Err := Error "[[error:activitypub.get-failed]]".

(** The response cache is a map from cache key to body; an entry whose
    time-to-live has run out is one the cache module has removed. *)
Definition get (uid : Z) (uri : string) : M JsVal :=
  let cacheKey := Js.join ";" [Js.String_of_Z uid; uri] in
  do cached <- gets (fun w => requestCache w !! cacheKey) ;;
  match cached with
  | Some b => ret b
  | None =>
      do headers <- (if 0 <=? uid
                     then do h <- sign uid uri JUndefined ;; ret (sig_obj h)
                     else ret []) ;;
      do r <- request (HttpGet (JStr uri)
                         (obj_set "Accept" (JStr accept_type) (obj_spread [] headers))) ;;
      if negb (Js.startsWith (Js.String_of_Z (statusCode r)) "2")
      then do _ <- lift (hasOwnProperty (body r) "error") ;; throw get_failed
      else do _ <- modify (set_requestCache (insert cacheKey (body r))) ;;
           ret (body r)
  end.

Inductive Targets : Type :=
  | One (id : string)
  | Many (ids : list string).

Definition default_actor (uid : Z) : string :=
  nconf_url E +:+ "/uid/" +:+ Js.String_of_Z uid.

Definition envelope (uid : Z) (payload : Obj) : Obj :=
  obj_spread
    [("@context"%string, JStr "https://www.w3.org/ns/activitystreams");
     ("actor"%string, JStr (default_actor uid))]
    payload.

Definition activity_failed : Err := Error "activity-failed".

(** [{ ...headers, 'content-type': ... }] *)
Definition post_headers (h : SignatureHeader) : Obj :=
  obj_set "content-type" (JStr accept_type) (obj_spread [] (sig_obj h)).

(** The callback [send] maps over the resolved inboxes. *)
Definition deliver (uid : Z) (payload : Obj) (uri : string) : M unit :=
  do headers <- sign uid uri (JObj payload) ;;
  do r <- request (HttpPost uri (post_headers headers) (JObj payload)) ;;
  if negb (Js.startsWith (Js.String_of_Z (statusCode r)) "2")
  then throw activity_failed
  else ret tt.

(** [if (!Array.isArray(targets)) targets = [targets]] *)
Definition normalize_targets (targets : Targets) : list string :=
  match targets with
  | One id => [id]
  | Many ids => ids
  end.

Definition send (uid : Z) (targets : Targets) (payload : Obj) : M unit :=
  let targets := normalize_targets targets in
  do inboxes <- resolveInboxes targets ;;
  let payload := envelope uid payload in
  do _ <- Promise_all (map (deliver uid payload) inboxes) ;;
  ret tt.

End ActivityPub.

(** ** Reading the network trace *)

(** The test [String(statusCode).startsWith('2')] agrees with the 2xx
    class on every three-digit status code, checked by enumeration. *)
Definition status_table_ok : bool :=
  forallb (fun n => Bool.eqb (Js.startsWith (Js.String_of_Z (Z.of_nat n)) "2")
                      ((200 <=? n)%nat && (n <=? 299)%nat))
          (seq 100 900).

(** How the delivery that logged [ev] settled. *)
Definition delivery_outcome (ev : NetEvent) : Result unit :=
  match ev.2 with
  | Return r =>
      if Js.startsWith (Js.String_of_Z (statusCode r)) "2"
      then Return tt
      else Throw activity_failed
  | Throw e => Throw e
  end.

Fixpoint first_rejection (rs : list (Result unit)) : Result unit :=
  match rs with
  | [] => Return tt
  | Throw e :: _ => Throw e
  | Return _ :: rest => first_rejection rest
  end.

(** A field of an actor record is present when it holds a non-empty
    string. *)
Definition present (o : option string) : option string :=
  match o with
  | Some s => if String.eqb s EmptyString then None else Some s
  | None => None
  end.

(** The endpoint a recipient is delivered to: the shared inbox when
    present, else the inbox when present, else none. *)
Definition preferred_inbox (f : UserFields) : option string :=
  match present (sharedInbox f) with
  | Some s => Some s
  | None => present (inbox f)
  end.

(** The event is a POST to [uri] with body [b]. *)
Definition is_post (uri : string) (b : JsVal) (ev : NetEvent) : Prop :=
  exists hs, ev.1 = HttpPost uri hs b.

(** ** Deliveries that overlap *)

(** The callbacks that [send] maps over its inboxes are all started
    before any of them is awaited, so they advance in turns: a turn runs
    one callback from one [await] to its next.  Between its turns a
    callback is at one of these points. *)
Inductive Delivery : Type :=
  | Started                                      (* [sign] has not been called yet *)
  | KeyMissing (host pathname now : string)      (* [db.getObject] rejected: the catch block is next *)
  | KeyInHand (host pathname now key : string)   (* [getPrivateKey] resolved: signature and POST are next *)
  | Rejected (e : Err)                           (* [sign] threw: nothing was posted *)
  | Posted (ev : NetEvent).                      (* the POST was answered *)

(** How a callback that is through has settled. *)
Definition settled (d : Delivery) : option (Result unit) :=
  match d with
  | Rejected e => Some (Throw e)
  | Posted ev => Some (delivery_outcome ev)
  | _ => None
  end.

(** The number of turns a callback may still need. *)
Definition turns_left (d : Delivery) : nat :=
  match d with
  | Started => 3
  | KeyMissing _ _ _ => 2
  | KeyInHand _ _ _ _ => 1
  | Rejected _ | Posted _ => 0
  end.

(** The state of the fan-out: where each callback is, which have settled
    (index and outcome, earliest first), and the world they share. *)
Record Fanout : Type := {
  deliveries : list Delivery;
  settlements : list (nat * Result unit);
  fan_world : World
}.

Definition posted (ds : list Delivery) : list NetEvent :=
  omap (fun d => match d with Posted ev => Some ev | _ => None end) ds.

Section Overlap.

Variable E : Env.
Variable uid : Z.
Variable payload : Obj.

(** One turn of the callback for [uri]: the code of [sign],
    [getPrivateKey] and the callback itself between two suspensions.  The
    first turn goes up to the answer of [db.getObject], the turn after a
    miss is the catch block ([helpers.generateKeys], taken as one step),
    the last turn signs and goes up to the answer of [request.post]. *)
Definition advance (uri : string) (d : Delivery) (w : World) : Delivery * World :=
  match d with
  | Started =>
      if uid <? 0 then (Rejected (Error "[[error:invalid-uid]]"), w)
      else
        match parse_URL E uri with
        | None => (Rejected (TypeError "Invalid URL"), w)
        | Some (host, pathname) =>
            let now := toUTCString E (clock w) in
            match db_getObject (keys_key uid) w with
            | (Return kp, w1) => (KeyInHand host pathname now (privateKey kp), w1)
            | (Throw _, w1) => (KeyMissing host pathname now, w1)
            end
        end
  | KeyMissing host pathname now =>
      match generateKeys E uid w with
      | (Return kp, w1) => (KeyInHand host pathname now (privateKey kp), w1)
      | (Throw e, w1) => (Rejected e, w1)
      end
  | KeyInHand host pathname now key =>
      match rsa_sign E key (sign_string E host pathname now (JObj payload)) with
      | Throw e => (Rejected e, w)
      | Return sig =>
          let h := {| date := now;
                      digest := sign_digest E (JObj payload);
                      signature := signature_value (sign_keyId E uid)
                                     (sign_headers (JObj payload)) sig |} in
          let call := HttpPost uri (post_headers h) (JObj payload) in
          let ev := (call, http E (net w) call) in
          (Posted ev, set_net (fun l => l ++ [ev]) w)
      end
  | Rejected _ | Posted _ => (d, w)
  end.

Definition start (inboxes : list string) (w : World) : Fanout :=
  {| deliveries := map (fun _ => Started) inboxes; settlements := []; fan_world := w |}.

(** The callback of inbox number [i] takes a turn. *)
Definition turn (inboxes : list string) (f : Fanout) (i : nat) : Fanout :=
  match inboxes !! i, deliveries f !! i with
  | Some uri, Some d =>
      let '(d', w') := advance uri d (fan_world f) in
      {| deliveries := <[i := d']> (deliveries f);
         settlements := match settled d, settled d' with
                        | None, Some r => settlements f ++ [(i, r)]
                        | _, _ => settlements f
                        end;
         fan_world := w' |}
  | _, _ => f
  end.

(** The turns are taken in the order the event loop resumes the
    callbacks, which depends on when the store and the remote servers
    answer: any order is possible. *)
Definition run (inboxes : list string) (schedule : list nat) (f : Fanout) : Fanout :=
  fold_left (turn inboxes) schedule f.

End Overlap.

(** [await Promise.all(promises)] over [n] promises whose settlements so
    far are [log]: rejected with the earliest rejection, fulfilled once
    all are fulfilled, pending otherwise. *)
Definition Promise_all_outcome (n : nat) (log : list (nat * Result unit))
  : option (Result unit) :=
  match first_rejection (map snd log) with
  | Throw e => Some (Throw e)
  | Return _ => if (length log =? n)%nat then Some (Return tt) else None
  end.

(** [send] with its deliveries taking turns as [schedule] says; the
    result is what the caller has been told once the schedule is through
    ([None] while the joint promise is still pending), the world is the
    one the deliveries have left by then. *)
Definition send_overlapping (E : Env) (schedule : list nat) (uid : Z) (targets : Targets)
           (payload : Obj) (w : World) : option (Result unit) * World :=
  match resolveInboxes E (normalize_targets targets) w with
  | (Throw e, w1) => (Some (Throw e), w1)
  | (Return inboxes, w1) =>
      let f := run E uid (envelope E uid payload) inboxes schedule (start inboxes w1) in
      (Promise_all_outcome (length inboxes) (settlements f), fan_world f)
  end.

(** The number of turns [schedule] gives to callback [i]. *)
Definition turns (i : nat) (schedule : list nat) : nat :=
  length (filter (fun j => j = i) schedule).

(** Each callback runs to its end before the next one starts. *)
Definition one_by_one (n : nat) : list nat :=
  flat_map (fun i => [i; i; i]) (seq 0 n).

(** The callbacks advance side by side. *)
Definition side_by_side (n : nat) : list nat :=
  seq 0 n ++ seq 0 n ++ seq 0 n.

(** Why a delivery can be rejected before it posts. *)
Definition sign_failure (E : Env) (uid : Z) (uri : string) (e : Err) : Prop :=
  (uid < 0 /\ e = Error "[[error:invalid-uid]]")
  \/ (parse_URL E uri = None /\ e = TypeError "Invalid URL")
  \/ exists key m, rsa_sign E key m = Throw e.

(** What holds of a fan-out over [inboxes] that started in world [w0]. *)
Definition fanout_ok (E : Env) (uid : Z) (payload : Obj) (inboxes : list string)
           (w0 : World) (f : Fanout) : Prop :=
  length (deliveries f) = length inboxes
  /\ (exists evs, net (fan_world f) = net w0 ++ evs /\ evs ≡ₚ posted (deliveries f))
  /\ (forall i ev, deliveries f !! i = Some (Posted ev) ->
        exists uri, inboxes !! i = Some uri /\ is_post uri (JObj payload) ev)
  /\ (forall i e, deliveries f !! i = Some (Rejected e) ->
        exists uri, inboxes !! i = Some uri /\ sign_failure E uid uri e)
  /\ (forall i r, (i, r) ∈ settlements f
                  <-> exists d, deliveries f !! i = Some d /\ settled d = Some r)
  /\ NoDup (map fst (settlements f)).

(** ** A small concrete instance, for running the model *)

Module Demo.

Definition checksum (s : string) : Z :=
  fold_right (fun c acc => Z.of_nat (nat_of_ascii c) + 3 * acc) 0 (list_ascii_of_string s).

(** A keyed checksum standing in for the signature primitive: the two
    halves of a pair are equal strings. *)
Definition mac (key msg : string) : string :=
  Js.String_of_Z (checksum (key +:+ ":" +:+ msg)).

Definition parse (u : string) : option (string * string) :=
  match Js.split "/" u with
  | scheme :: _ :: host :: rest =>
      if String.eqb scheme "https:" then Some (host, "/" +:+ Js.join "/" rest) else None
  | _ => None
  end.

Definition stringify_field (kv : string * JsVal) : string :=
  kv.1 +:+ ":" +:+ match kv.2 with JStr s => s | _ => "null" end.

Definition stringify (v : JsVal) : string :=
  match v with
  | JStr s => s
  | JObj o => "{" +:+ Js.join "," (map stringify_field o) +:+ "}"
  | _ => "null"
  end.

Definition keypair (n : nat) : Keypair :=
  let k := "key-" +:+ Js.String_of_Z (Z.of_nat n) in
  {| publicKey := k; privateKey := k |}.

Definition key_document (pem : string) : JsVal :=
  JObj [("publicKey"%string, JObj [("publicKeyPem"%string, JStr pem)])].

(** A key document that also has a member named [hasOwnProperty]. *)
Definition shadowing_document (pem : string) : JsVal :=
  JObj [("hasOwnProperty"%string, JBool true);
        ("publicKey"%string, JObj [("publicKeyPem"%string, JStr pem)])].

Definition remote (hist : list NetEvent) (call : NetCall) : Result Response :=
  match call with
  | HttpGet (JStr u) _ =>
      if String.eqb u "https://forum.example/uid/1#key"
      then Return {| statusCode := 200; body := key_document "key-0" |}
      else if String.eqb u "https://remote.example/users/alice"
      then Return {| statusCode := 200; body := JObj [("id"%string, JStr u)] |}
      else if String.eqb u "https://remote.example/nokey"
      then Return {| statusCode := 200; body := JObj [("id"%string, JStr u)] |}
      else if String.eqb u "https://remote.example/null#key"
      then Return {| statusCode := 200; body := JNull |}
      else if String.eqb u "https://remote.example/shadow#key"
      then Return {| statusCode := 200; body := shadowing_document "key-0" |}
      else Return {| statusCode := 404; body := JObj [("error"%string, JStr "not found")] |}
  | HttpGet _ _ => Throw (TypeError "Invalid URL")
  | HttpPost u _ _ =>
      if String.eqb u "https://down.example/inbox"
      then Return {| statusCode := 500; body := JStr EmptyString |}
      else Return {| statusCode := 202; body := JStr EmptyString |}
  end.

Definition env : Env := {|
  nconf_url := "https://forum.example";
  parse_URL := parse;
  toUTCString := fun _ => "Thu, 01 Jan 1970 00:00:00 GMT"%string;
  JSON_stringify := stringify;
  sha256_base64 := fun s => Js.String_of_Z (checksum s);
  rsa_sign := fun key msg => Return (mac key msg);
  rsa_verify := fun key msg sig =>
    match key, sig with
    | JStr k, JStr s => Return (String.eqb s (mac k msg))
    | _, _ => Throw (TypeError "invalid key or signature")
    end;
  generateKeyPair := keypair;
  http := remote;
  actors_assert := fun _ w => (Return tt, w)
|}.

Definition alice : string := "https://remote.example/users/alice".
Definition bob : string := "https://remote.example/users/bob".
Definition carol : string := "https://down.example/users/carol".

Definition world : World := {|
  db := ∅;
  users :=
    <[alice := {| inbox := Some "https://remote.example/users/alice/inbox"%string;
                  sharedInbox := Some "https://remote.example/inbox"%string |}]>
    (<[bob := {| inbox := Some "https://remote.example/users/bob/inbox"%string;
                 sharedInbox := Some "https://remote.example/inbox"%string |}]>
    (<[carol := {| inbox := Some "https://down.example/inbox"%string;
                   sharedInbox := None |}]> ∅));
  requestCache := ∅;
  net := [];
  clock := 0;
  entropy := 0
|}.

Definition follow : Obj :=
  [("type"%string, JStr "Follow"); ("object"%string, JStr alice)].

(** A request that carries exactly what [sign] returned for [payload]. *)
Definition signed_request (h : SignatureHeader) (m p : string) (b : JsVal) : Request := {|
  method := m;
  baseUrl := EmptyString;
  path := p;
  req_headers :=
    <["host"%string := "remote.example"%string]>
    (<["date"%string := date h]>
    (<["signature"%string := signature h]>
    (match digest h with
     | Some d => {["digest"%string := d]}
     | None => ∅
     end)));
  req_body := b
|}.

(** The same activity with one byte of its serialized form changed. *)
Definition tampered : Obj :=
  [("type"%string, JStr "Follov"); ("object"%string, JStr alice)].

Definition inbox_url : string := "https://remote.example/inbox".

(** What [sign] returns for identity 1 posting [payload] to [inbox_url]. *)
Definition signed (payload : JsVal) : SignatureHeader :=
  match sign env 1 inbox_url payload world with
  | (Return h, _) => h
  | (Throw _, _) => {| date := EmptyString; digest := None; signature := EmptyString |}
  end.

Definition unsigned_request : Request := {|
  method := "POST";
  baseUrl := EmptyString;
  path := "/inbox";
  req_headers := {["host"%string := "forum.example"%string]};
  req_body := JObj follow
|}.

Definition with_signature (sigv : string) : Request := {|
  method := "POST";
  baseUrl := EmptyString;
  path := "/inbox";
  req_headers := <["signature"%string := sigv]> (req_headers unsigned_request);
  req_body := JObj follow
|}.

(** A signature header that names a key and nothing else. *)
Definition keyId_only : string :=
  "keyId" +:+ eq_quote +:+ "https://forum.example/uid/1#key" +:+ Js.str1 Js.dquote.

(** A complete signature header whose key document does not exist. *)
Definition unknown_key : string :=
  signature_value "https://remote.example/missing#key" "(request-target) host date" "c2ln".

End Demo.

(** ** The webfinger controller *)

Module Webfinger.

(** [s.endsWith(t)] *)
Definition endsWith (s t : string) : bool :=
  let n := String.length s in
  let m := String.length t in
  (m <=? n)%nat && String.eqb (String.substring (n - m) m s) t.

(** [s.slice(start, end)]: negative indices count from the end, indices
    are clamped to the string, an empty range gives the empty string. *)
Definition slice (s : string) (start end_ : Z) : string :=
  let len := Z.of_nat (String.length s) in
  let clamp i := if i <? 0 then Z.max (len + i) 0 else Z.min i len in
  String.substring (Z.to_nat (clamp start)) (Z.to_nat (clamp end_ - clamp start)) s.

(** [s.slice(start)] *)
Definition slice_from (s : string) (start : Z) : string :=
  slice s start (Z.of_nat (String.length s)).

Record Link : Type := { rel : string; type : string; href : string }.

(** The [response] object: [aliases] and [links] are set by the branch
    that answers. *)
Record Descriptor : Type := {
  subject : string;
  aliases : option (list string);
  links : option (list Link)
}.

(** A query parameter as the query parser of the framework leaves it:
    absent, a string, or (for a repeated or bracketed parameter) an array
    or an object. *)
Inductive Query : Type :=
  | absent
  | text (s : string)
  | nested.

(** What is written to [res]. *)
Inductive Reply : Type :=
  | sendStatus (code : Z)
  | json (code : Z) (response : Descriptor).

(** The modules the controller requires. *)
Record Deps : Type := {
  url : string;                              (* nconf.get('url') *)
  host : string;                             (* nconf.get('url_parsed').host *)
  hostname : string;                         (* nconf.get('url_parsed').hostname *)
  activitypubEnabled : bool;                 (* meta.config.activitypubEnabled, as a condition *)
  getUidByUserslug : string -> Result Z;     (* 0 for no such user *)
  can_view_users : Z -> Result bool;         (* privileges.global.can('view:users', callerUid) *)
  can_find : string -> Z -> Result bool;     (* privileges.categories.can('find', cid, callerUid) *)
  getUserslug : Z -> Result string;          (* user.getUserField(uid, 'userslug') *)
  getCategorySlug : string -> Result string  (* categories.getCategoryField(cid, 'slug') *)
}.

Definition no_privileges : Err := Error "[[error:no-privileges]]".

Definition self_link (target : string) : Link :=
  {| rel := "self"; type := "application/activity+json"; href := target |}.

Section Controller.

Variable D : Deps.

Definition application (response : Descriptor) : Descriptor :=
  {| subject := subject response;
     aliases := Some [url D];
     links := Some (if activitypubEnabled D then [self_link (url D +:+ "/actor")] else []) |}.

Definition profile (callerUid uid : Z) (response : Descriptor) : Result Descriptor :=
  match can_view_users D callerUid with
  | Throw e => Throw e
  | Return canView =>
      if negb canView then Throw no_privileges
      else
        match getUserslug D uid with
        | Throw e => Throw e
        | Return slug =>
            Return {| subject := subject response;
                      aliases := Some [url D +:+ "/uid/" +:+ Js.String_of_Z uid;
                                       url D +:+ "/user/" +:+ slug];
                      links :=
                        Some ({| rel := "http://webfinger.net/rel/profile-page";
                                 type := "text/html";
                                 href := url D +:+ "/user/" +:+ slug |}
                              :: (if activitypubEnabled D
                                  then [self_link (url D +:+ "/uid/" +:+ Js.String_of_Z uid)]
                                  else [])) |}
        end
  end.

Definition category (callerUid : Z) (cid : string) (response : Descriptor)
  : Result Descriptor :=
  match can_find D cid callerUid with
  | Throw e => Throw e
  | Return canFind =>
      if negb canFind then Throw no_privileges
      else
        match getCategorySlug D cid with
        | Throw e => Throw e
        | Return slug =>
            Return {| subject := subject response;
                      aliases := Some [url D +:+ "/category/" +:+ slug];
                      links := Some (if activitypubEnabled D
                                     then [self_link (url D +:+ "/category/" +:+ cid)]
                                     else []) |}
        end
  end.

(** The slug cut out of an accepted resource. *)
Definition resource_slug (resource : string) : string :=
  slice resource 5
    (Z.of_nat (String.length resource) - (Z.of_nat (String.length (host D)) + 1)).

(** The body of the [try] block. *)
Definition answer (callerUid uid : Z) (slug : string) (response : Descriptor)
  : Result Reply :=
  if Js.startsWith slug "cid."
  then match category callerUid (slice_from slug 4) response with
       | Return r => Return (json 200 r)
       | Throw e => Throw e
       end
  else if String.eqb slug (hostname D)
  then Return (json 200 (application response))
  else if negb (uid =? 0)
  then match profile callerUid uid response with
       | Return r => Return (json 200 r)
       | Throw e => Throw e
       end
  else Return (sendStatus 404).

(** [resource] is [req.query.resource], [callerUid] is [req.uid].  An
    array or an object is truthy and has no [startsWith]: the guard throws
    on it, outside the [try]. *)
Definition webfinger (resource : Query) (callerUid : Z) : Result Reply :=
  match resource with
  | absent => Return (sendStatus 400)
  | nested => Throw (TypeError "resource.startsWith is not a function")
  | text resource =>
      if String.eqb resource EmptyString
         || negb (Js.startsWith resource "acct:")
         || negb (endsWith resource (host D))
      then Return (sendStatus 400)
      else
        let slug := resource_slug resource in
        match getUidByUserslug D slug with
        | Throw e => Throw e
        | Return uid =>
            let response := {| subject := "acct:" +:+ slug +:+ "@" +:+ host D;
                               aliases := None; links := None |} in
            match answer callerUid uid slug response with
            | Return reply => Return reply
            | Throw _ => Return (sendStatus 400)
            end
        end
  end.

End Controller.

(** A forum with one user, [alice] (uid 7), visible to logged-in callers
    only, and one category (cid 3) that everyone can find. *)
Definition demo : Deps := {|
  url := "https://forum.example";
  host := "forum.example";
  hostname := "forum.example";
  activitypubEnabled := true;
  getUidByUserslug := fun slug => Return (if String.eqb slug "alice" then 7 else 0);
  can_view_users := fun caller => Return (0 <? caller);
  can_find := fun cid _ => Return (String.eqb cid "3");
  getUserslug := fun uid => if uid =? 7 then Return "alice"%string
                            else Throw (Error "[[error:no-user]]");
  getCategorySlug := fun cid => Return ("3/announcements")%string
|}.

End Webfinger.

(** ** Profile menu links of the account helpers *)

Module Accounts.

(** A profile menu link.  [visibility] holds the flags the link sets
    itself (none for a link that leaves the property out), [url] and
    [public] are absent until they are filled in. *)
Record MenuLink : Type := {
  id : string;
  route : string;
  name : string;
  icon : string;
  visibility : gmap string bool;
  url : option string;
  public : option bool
}.

(** The [states] object passed to [filterLinks]. *)
Record States : Type := {
  self : bool;
  other : bool;
  moderator : bool;
  globalMod : bool;
  admin : bool;
  canViewInfo : bool
}.

(** [Object.keys(states)] with the value of each key. *)
Definition state_entries (states : States) : list (string * bool) :=
  [("self"%string, self states); ("other"%string, other states);
   ("moderator"%string, moderator states); ("globalMod"%string, globalMod states);
   ("admin"%string, admin states); ("canViewInfo"%string, canViewInfo states)].

Definition flags (s o m g a c : bool) : gmap string bool :=
  list_to_map [("self"%string, s); ("other"%string, o); ("moderator"%string, m);
               ("globalMod"%string, g); ("admin"%string, a); ("canViewInfo"%string, c)].

Definition default_visibility : gmap string bool := flags true true true true true true.

(** [states[state] && link.visibility[state]] for some key of [states]. *)
Definition permit (states : States) (vis : gmap string bool) : bool :=
  existsb (fun kv => kv.2 && default false (vis !! kv.1)) (state_entries states).

(** What the filter callback does to one link: the defaults are spread
    under the link's own flags, and [public] records the verdict. *)
Definition mark (states : States) (link : MenuLink) : MenuLink :=
  let vis := visibility link ∪ default_visibility in
  {| id := id link; route := route link; name := name link; icon := icon link;
     visibility := vis; url := url link; public := Some (permit states vis) |}.

Definition filterLinks (links : list MenuLink) (states : States) : list MenuLink :=
  filter (fun link => public link = Some true) (map (mark states) links).

(** What [getProfileMenu] requires from outside. *)
Record Deps : Type := {
  relative_path : string;                    (* nconf.get('relative_path') *)
  gdpr_enabled : bool;                       (* meta.config.gdpr_enabled, as a condition *)
  profileMenu_hook : Z -> Z -> list MenuLink -> Result (list MenuLink);
                                             (* plugins.hooks.fire('filter:user.profileMenu', ...) *)
  getUserslug : Z -> Result string           (* user.getUserField(uid, 'userslug') *)
}.

Definition builtin (i r n ic : string) (vis : gmap string bool) : MenuLink :=
  {| id := i; route := r; name := n; icon := ic; visibility := vis;
     url := None; public := None |}.

Definition info_link : MenuLink :=
  builtin "info" "info" "[[user:account-info]]" "fa-info"
    (flags false false false false true true).
Definition sessions_link : MenuLink :=
  builtin "sessions" "sessions" "[[pages:account/sessions]]" "fa-group"
    (flags true false false false false false).
Definition consent_link : MenuLink :=
  builtin "consent" "consent" "[[user:consent.title]]" "fa-thumbs-o-up"
    (flags true false false false false false).

(** [link.url = ...] unless the link has a [url] of its own. *)
Definition fill_url (D : Deps) (userslug : string) (link : MenuLink) : MenuLink :=
  match url link with
  | Some _ => link
  | None =>
      {| id := id link; route := route link; name := name link; icon := icon link;
         visibility := visibility link;
         url := Some (relative_path D +:+ "/user/" +:+ userslug +:+ "/" +:+ route link);
         public := public link |}
  end.

(** The [links] of the data that [getProfileMenu] returns. *)
Definition getProfileMenu (D : Deps) (uid callerUID : Z) : Result (list MenuLink) :=
  let links := [info_link; sessions_link]
               ++ (if gdpr_enabled D then [consent_link] else []) in
  match profileMenu_hook D uid callerUID links with
  | Throw e => Throw e
  | Return data_links =>
      match getUserslug D uid with
      | Throw e => Throw e
      | Return userslug => Return (map (fill_url D userslug) data_links)
      end
  end.

(** The [states] that [getUserDataByUserSlug] passes. *)
Definition caller_states (isSelf isModerator isGlobalModerator isAdmin canView : bool)
  : States :=
  {| self := isSelf; other := negb isSelf; moderator := isModerator;
     globalMod := isGlobalModerator; admin := isAdmin; canViewInfo := canView |}.

(** No plugin listens: the hook hands the links back. *)
Definition demo (gdpr : bool) : Deps := {|
  relative_path := "/forum";
  gdpr_enabled := gdpr;
  profileMenu_hook := fun _ _ links => Return links;
  getUserslug := fun _ => Return "alice"%string
|}.

(** A plugin link that brings its own URL. *)
Definition chat_link : MenuLink :=
  {| id := "chat"; route := "chat"; name := "Chat"; icon := "fa-comment"; visibility := ∅;
     url := Some "https://chat.example/room"%string; public := None |}.

(** One plugin listens and adds [chat_link] in front. *)
Definition demo_plugin : Deps := {|
  relative_path := "/forum";
  gdpr_enabled := false;
  profileMenu_hook := fun _ _ links => Return (chat_link :: links);
  getUserslug := fun _ => Return "alice"%string
|}.

End Accounts.

(** * Properties *)

(** ** Status codes *)

Lemma status_table : status_table_ok = true.
Proof. vm_compute. reflexivity. Qed.

(** On three-digit status codes, "starts with 2" is the 2xx class. *)
Lemma startsWith_2_class (st : Z) :
  100 <= st <= 999 ->
  Js.startsWith (Js.String_of_Z st) "2" = ((200 <=? st) && (st <=? 299))%bool.
Proof.
  intros Hst.
  pose proof status_table as Ht. unfold status_table_ok in Ht.
  rewrite forallb_forall in Ht.
  specialize (Ht (Z.to_nat st)).
  rewrite Z2Nat.id in Ht by lia.
  assert (Hin : In (Z.to_nat st) (seq 100 900)) by (apply in_seq; lia).
  apply Ht in Hin. apply Bool.eqb_prop in Hin. rewrite Hin.
  destruct (Nat.leb_spec 200 (Z.to_nat st)), (Z.leb_spec 200 st);
    destruct (Nat.leb_spec (Z.to_nat st) 299), (Z.leb_spec st 299);
    simpl; try reflexivity; lia.
Qed.

(** ** Effects of the building blocks on the world *)

Lemma request_run (E : Env) (call : NetCall) (w : World) :
  request E call w =
  (http E (net w) call, set_net (fun l => l ++ [(call, http E (net w) call)]) w).
Proof. reflexivity. Qed.

Lemma getPrivateKey_returns (E : Env) (uid : Z) (w : World) :
  exists key w', getPrivateKey E uid w = (Return key, w') /\ net w' = net w
                 /\ requestCache w' = requestCache w.
Proof.
  unfold getPrivateKey, try_catch, bind, db_getObject, generateKeys, ret.
  destruct (db w !! keys_key uid); simpl; eauto.
Qed.

Lemma getPublicKey_returns (E : Env) (uid : Z) (w : World) :
  exists key w', getPublicKey E uid w = (Return key, w') /\ net w' = net w.
Proof.
  unfold getPublicKey, try_catch, bind, db_getObject, generateKeys, ret.
  destruct (db w !! keys_key uid); simpl; eauto.
Qed.

(** What [sign] does once the identifier is valid and the URL parses. *)
Lemma sign_run (E : Env) (uid : Z) (url : string) (payload : JsVal) (w : World)
      (host pathname key : string) (w1 : World) :
  0 <= uid ->
  parse_URL E url = Some (host, pathname) ->
  getPrivateKey E uid w = (Return key, w1) ->
  sign E uid url payload w =
  (match rsa_sign E key (sign_string E host pathname (toUTCString E (clock w)) payload) with
   | Return sig =>
       Return {| date := toUTCString E (clock w);
                 digest := sign_digest E payload;
                 signature := signature_value (sign_keyId E uid) (sign_headers payload) sig |}
   | Throw e => Throw e
   end, w1).
Proof.
  intros Huid Hurl Hkey. unfold sign.
  destruct (Z.ltb_spec uid 0) as [?|_]; [lia|].
  rewrite Hurl. unfold bind, gets, lift, ret. rewrite Hkey.
  destruct (rsa_sign E key _); reflexivity.
Qed.

(** Signing never touches the network. *)
Lemma sign_net (E : Env) (uid : Z) (url : string) (payload : JsVal) (w : World) :
  net (snd (sign E uid url payload w)) = net w.
Proof.
  unfold sign. destruct (uid <? 0); [reflexivity|].
  destruct (parse_URL E url) as [[host pathname]|]; [|reflexivity].
  unfold bind, gets, lift, ret.
  destruct (getPrivateKey_returns E uid w) as (key & w' & -> & Hn & _).
  destruct (rsa_sign E key _); exact Hn.
Qed.

(** ** Verification: the guard, the parse and the catch *)

(** C3. A request whose header map has no [signature] entry is answered
    [false] and the world, hence the network trace, is left as it was: no
    public-key fetch is issued. *)
Theorem verify_without_signature_header (E : Env) (req : Request) (w : World) :
  req_headers req !! "signature"%string = None ->
  verify E req w = (Return false, w) /\ net (snd (verify E req w)) = net w.
Proof.
  intros Hnone. unfold verify. rewrite Hnone. split; reflexivity.
Qed.

Lemma verify_without_signature_header_witness :
  req_headers Demo.unsigned_request !! "signature"%string = None
  /\ verify Demo.env Demo.unsigned_request Demo.world = (Return false, Demo.world)
  /\ net (snd (verify Demo.env Demo.unsigned_request Demo.world)) = net Demo.world.
Proof.
  split; [vm_compute; reflexivity|].
  apply (verify_without_signature_header Demo.env Demo.unsigned_request Demo.world).
  vm_compute; reflexivity.
Defined.

(** A signature header without a [headers] field makes [verify] raise:
    the reconstruction calls [split] on [undefined] before the [try]. *)
Lemma verify_missing_headers_field (E : Env) (req : Request) (w : World) (sigv : string) :
  req_headers req !! "signature"%string = Some sigv ->
  parse_signature sigv !! "headers"%string = None ->
  exists msg, verify E req w = (Throw (TypeError msg), w).
Proof.
  intros Hsig Hnone. unfold verify. rewrite Hsig, Hnone. eexists. reflexivity.
Qed.

(** Once the [headers] field is there, every later failure is caught. *)
Lemma verify_returns_when_headers_listed (E : Env) (req : Request) (w : World)
      (sigv hs : string) :
  req_headers req !! "signature"%string = Some sigv ->
  parse_signature sigv !! "headers"%string = Some hs ->
  exists b w', verify E req w = (Return b, w').
Proof.
  intros Hsig Hhs. unfold verify. rewrite Hsig, Hhs.
  unfold try_catch, ret.
  destruct (bind _ _ w) as [[b|e] w']; eauto.
Qed.

(** C2. The claim fails on the code: for a request whose [signature]
    header carries only a [keyId] field, [verify] does not answer [false]
    but throws a [TypeError] to its caller, in any environment and world. *)
Theorem verify_throws_on_signature_without_headers (E : Env) (w : World) :
  verify E (Demo.with_signature Demo.keyId_only) w
  = (Throw (TypeError "Cannot read properties of undefined (reading 'split')"), w).
Proof. reflexivity. Qed.

(** ** Remote key resolution *)

Lemma fetchPublicKey_run (E : Env) (uri : JsVal) (w : World) (r : Response) :
  http E (net w) (HttpGet uri [("Accept"%string, JStr accept_type)]) = Return r ->
  fst (fetchPublicKey E uri w) =
  if negb (Js.startsWith (Js.String_of_Z (statusCode r)) "2") then Throw pubKey_not_found
  else match hasOwnProperty (body r) "publicKey" with
       | Throw e => Throw e
       | Return true => get_prop (body r) "publicKey"
       | Return false => Throw pubKey_not_found
       end.
Proof.
  intros Hr. unfold fetchPublicKey, bind. rewrite request_run, Hr.
  destruct (negb (Js.startsWith _ _)); [reflexivity|].
  unfold lift. destruct (hasOwnProperty (body r) "publicKey") as [[|]|e]; reflexivity.
Qed.

Lemma verify_catches_fetch_failure (E : Env) (req : Request) (w : World)
      (sigv hs : string) (e : Err) :
  req_headers req !! "signature"%string = Some sigv ->
  parse_signature sigv !! "headers"%string = Some hs ->
  fst (fetchPublicKey E (opt_js (parse_signature sigv !! "keyId"%string)) w) = Throw e ->
  fst (verify E req w) = Return false.
Proof.
  intros Hsig Hhs Hf. unfold verify. rewrite Hsig, Hhs.
  unfold try_catch, bind.
  destruct (fetchPublicKey E _ w) as [[v|e'] w']; simpl in Hf; [discriminate|].
  reflexivity.
Qed.

Lemma fetchPublicKey_outcomes (E : Env) (w : World) (uri : JsVal) (r : Response) :
  http E (net w) (HttpGet uri [("Accept"%string, JStr accept_type)]) = Return r ->
  100 <= statusCode r <= 999 ->
  fst (fetchPublicKey E uri w)
  = if (200 <=? statusCode r) && (statusCode r <=? 299)
    then match body r with
         | JUndefined | JNull => Throw (TypeError "Cannot read properties of undefined")
         | JObj o =>
             match obj_get "hasOwnProperty" o with
             | Some _ => Throw (TypeError "hasOwnProperty is not a function")
             | None =>
                 match obj_get "publicKey" o with
                 | Some v => Return v
                 | None => Throw pubKey_not_found
                 end
             end
         | _ => Throw pubKey_not_found
         end
    else Throw pubKey_not_found.
Proof.
  intros Hr Hst.
  rewrite (fetchPublicKey_run E uri w r Hr), (startsWith_2_class _ Hst).
  destruct ((200 <=? statusCode r) && (statusCode r <=? 299)); [|reflexivity].
  simpl. destruct (body r) as [| |b|n|s|o]; try reflexivity.
  simpl. destruct (obj_get "hasOwnProperty" o); [reflexivity|].
  destruct (obj_get "publicKey" o) as [v|] eqn:Hget.
  - rewrite bool_decide_eq_true_2 by eauto. reflexivity.
  - rewrite bool_decide_eq_false_2 by (intros [? ?]; discriminate). reflexivity.
Qed.

(** C8. The not-found test of [fetchPublicKey] misses two answers with a
    status in 200..299.  When the body is [null] or [undefined] it lacks
    [publicKey], yet the error thrown is a TypeError and not
    pubKey-not-found; when the body is an object that has a member named
    [hasOwnProperty] of its own, the fetch throws a TypeError as well, even
    if the object holds a [publicKey], which is then not returned. *)
Theorem fetchPublicKey_unguarded_body (E : Env) (w : World) (uri : JsVal) (r : Response) :
  http E (net w) (HttpGet uri [("Accept"%string, JStr accept_type)]) = Return r ->
  200 <= statusCode r <= 299 ->
  (body r = JNull \/ body r = JUndefined
   \/ exists o v, body r = JObj o /\ obj_get "hasOwnProperty" o = Some v) ->
  (exists msg, fst (fetchPublicKey E uri w) = Throw (TypeError msg))
  /\ fst (fetchPublicKey E uri w) <> Throw pubKey_not_found
  /\ (forall v, fst (fetchPublicKey E uri w) <> Return v).
Proof.
  intros Hr Hst Hbody.
  rewrite (fetchPublicKey_outcomes E w uri r Hr) by lia.
  replace ((200 <=? statusCode r) && (statusCode r <=? 299)) with true
    by (symmetry; apply andb_true_iff; split; apply Z.leb_le; lia).
  destruct Hbody as [-> | [-> | (o & v & -> & Hown)]]; [| |rewrite Hown];
    (split; [eexists; reflexivity|]); split; intros; discriminate.
Qed.

Lemma fetchPublicKey_unguarded_body_witness :
  (exists v, get_prop (Demo.shadowing_document "key-0") "publicKey" = Return v /\ v <> JUndefined)
  /\ (exists msg,
        fst (fetchPublicKey Demo.env (JStr "https://remote.example/shadow#key") Demo.world)
        = Throw (TypeError msg))
  /\ (exists msg,
        fst (fetchPublicKey Demo.env (JStr "https://remote.example/null#key") Demo.world)
        = Throw (TypeError msg)).
Proof.
  split; [eexists; split; [reflexivity|discriminate]|].
  split.
  - apply (fetchPublicKey_unguarded_body Demo.env Demo.world
             (JStr "https://remote.example/shadow#key")
             {| statusCode := 200; body := Demo.shadowing_document "key-0" |}).
    + vm_compute; reflexivity.
    + simpl; lia.
    + right; right. exists [("hasOwnProperty"%string, JBool true);
                            ("publicKey"%string, JObj [("publicKeyPem"%string, JStr "key-0")])],
                           (JBool true).
      split; reflexivity.
  - apply (fetchPublicKey_unguarded_body Demo.env Demo.world
             (JStr "https://remote.example/null#key")
             {| statusCode := 200; body := JNull |}).
    + vm_compute; reflexivity.
    + simpl; lia.
    + left; reflexivity.
Defined.

(** ** The authenticated fetch *)

Lemma sign_without_payload_digest (E : Env) (uid : Z) (url : string) (w w1 : World)
      (h : SignatureHeader) :
  sign E uid url JUndefined w = (Return h, w1) -> digest h = None.
Proof.
  unfold sign. destruct (uid <? 0); [discriminate|].
  destruct (parse_URL E url) as [[host pathname]|]; [|discriminate].
  unfold bind, gets, lift, ret.
  destruct (getPrivateKey E uid w) as [[key|e] w']; [|discriminate].
  destruct (rsa_sign E key _); [|discriminate].
  intros [= <- _]. reflexivity.
Qed.

Lemma get_tail_net (r : Response) (k : string) (w : World) :
  net (snd ((if negb (Js.startsWith (Js.String_of_Z (statusCode r)) "2")
             then do _ <- lift (hasOwnProperty (body r) "error") ;; throw get_failed
             else do _ <- modify (set_requestCache (insert k (body r))) ;; ret (body r)) w))
  = net w.
Proof.
  destruct (negb _); unfold bind, lift, modify, throw, ret.
  - destruct (hasOwnProperty (body r) "error"); reflexivity.
  - reflexivity.
Qed.

Lemma get_request_net (E : Env) (call : NetCall) (k : string) (w : World) :
  net (snd ((do r <- request E call ;;
             if negb (Js.startsWith (Js.String_of_Z (statusCode r)) "2")
             then do _ <- lift (hasOwnProperty (body r) "error") ;; throw get_failed
             else do _ <- modify (set_requestCache (insert k (body r))) ;; ret (body r)) w))
  = net w ++ [(call, http E (net w) call)].
Proof.
  unfold bind at 1. rewrite request_run.
  destruct (http E (net w) call) as [r|e] eqn:Hr.
  - rewrite get_tail_net. reflexivity.
  - reflexivity.
Qed.

(** C10. On a cache miss, [get] with a negative identity issues one GET
    whose only header is [Accept]; with any identity [>= 0], zero
    included, it first signs, and the GET then carries the [date],
    [digest] (null) and [signature] headers before [Accept] (when signing
    throws, no request is issued at all). *)
Theorem get_signs_unless_negative (E : Env) (uid : Z) (uri : string) (w : World) :
  requestCache w !! Js.join ";" [Js.String_of_Z uid; uri] = None ->
  (uid < 0 ->
   net (snd (get E uid uri w))
   = net w ++ [(HttpGet (JStr uri) [("Accept"%string, JStr accept_type)],
                http E (net w) (HttpGet (JStr uri) [("Accept"%string, JStr accept_type)]))])
  /\ (0 <= uid ->
      match sign E uid uri JUndefined w with
      | (Return h, _) =>
          let headers := [("date"%string, JStr (date h)); ("digest"%string, JNull);
                          ("signature"%string, JStr (signature h));
                          ("Accept"%string, JStr accept_type)] in
          net (snd (get E uid uri w))
          = net w ++ [(HttpGet (JStr uri) headers,
                       http E (net w) (HttpGet (JStr uri) headers))]
      | (Throw e, w1) => get E uid uri w = (Throw e, w1) /\ net w1 = net w
      end).
Proof.
  intros Hmiss. split; intros Huid.
  - unfold get. unfold bind at 1. unfold gets. rewrite Hmiss.
    destruct (Z.leb_spec 0 uid) as [?|_]; [lia|].
    unfold bind at 1. unfold ret at 1.
    apply (get_request_net E).
  - pose proof (sign_net E uid uri JUndefined w) as Hnet.
    destruct (sign E uid uri JUndefined w) as [[h|e] w1] eqn:Hsign; simpl in Hnet.
    + pose proof (sign_without_payload_digest E uid uri w w1 h Hsign) as Hd.
      cbv zeta. unfold get. unfold bind at 1. unfold gets. rewrite Hmiss.
      destruct (Z.leb_spec 0 uid) as [_|?]; [|lia].
      unfold bind at 1. unfold bind at 1. rewrite Hsign. unfold ret at 1.
      rewrite (get_request_net E). unfold sig_obj. rewrite Hd, Hnet. reflexivity.
    + split; [|exact Hnet].
      unfold get. unfold bind at 1. unfold gets. rewrite Hmiss.
      destruct (Z.leb_spec 0 uid) as [_|?]; [|lia].
      unfold bind at 1. unfold bind at 1. rewrite Hsign. reflexivity.
Qed.

Lemma get_signs_unless_negative_witness :
  map fst (net (snd (get Demo.env (-1) Demo.alice Demo.world)))
  = [HttpGet (JStr Demo.alice) [("Accept"%string, JStr accept_type)]]
  /\ exists sig,
      map fst (net (snd (get Demo.env 0 Demo.alice Demo.world)))
      = [HttpGet (JStr Demo.alice)
           [("date"%string, JStr "Thu, 01 Jan 1970 00:00:00 GMT"); ("digest"%string, JNull);
            ("signature"%string, JStr sig); ("Accept"%string, JStr accept_type)]].
Proof.
  split.
  - destruct (get_signs_unless_negative Demo.env (-1) Demo.alice Demo.world) as [Hneg _];
      [vm_compute; reflexivity|].
    rewrite Hneg by lia. reflexivity.
  - destruct (get_signs_unless_negative Demo.env 0 Demo.alice Demo.world) as [_ Hpos];
      [vm_compute; reflexivity|].
    specialize (Hpos ltac:(lia)).
    destruct (sign Demo.env 0 Demo.alice JUndefined Demo.world) as [[h|e] w1] eqn:Hsign;
      [|vm_compute in Hsign; discriminate].
    cbv zeta in Hpos. rewrite Hpos.
    vm_compute in Hsign. injection Hsign as <- _.
    eexists. reflexivity.
Defined.

(** ** Facts about strings *)

Lemma str_app_cons (a : ascii) (s t : string) : String a s +:+ t = String a (s +:+ t).
Proof. reflexivity. Qed.

Lemma str_app_nil_r (s : string) : s +:+ EmptyString = s.
Proof.
  induction s as [|a s IH]; [reflexivity|].
  rewrite str_app_cons, IH. reflexivity.
Qed.

Lemma str_app_assoc (s t u : string) : (s +:+ t) +:+ u = s +:+ (t +:+ u).
Proof.
  induction s as [|a s IH]; [reflexivity|].
  rewrite !str_app_cons, IH. reflexivity.
Qed.

Lemma str_length_app (s t : string) :
  String.length (s +:+ t) = (String.length s + String.length t)%nat.
Proof.
  induction s as [|a s IH]; [reflexivity|].
  rewrite str_app_cons. simpl. rewrite IH. reflexivity.
Qed.

(** ** The signature header *)

(** C4. For a valid identity and a URL that parses, [sign] signs the
    string [(request-target): <method> <path>], [host: <host>],
    [date: <date>] joined by newlines, with method [post] when the payload
    is truthy and [get] otherwise; with a payload the line
    [digest: sha-256=<base64 SHA-256 of JSON.stringify(payload)>] is added
    and the listed headers are [(request-target) host date digest], else
    they are [(request-target) host date]. *)
Theorem sign_builds_signing_string (E : Env) (uid : Z) (url : string) (payload : JsVal)
        (w w1 : World) (host pathname key sig : string) :
  let q := Js.str1 Js.dquote in
  let nl := Js.str1 Js.newline in
  let now := toUTCString E (clock w) in
  let b64 := sha256_base64 E (JSON_stringify E payload) in
  let base method :=
    "(request-target): " +:+ method +:+ " " +:+ pathname
    +:+ nl +:+ "host: " +:+ host +:+ nl +:+ "date: " +:+ now in
  let header listed :=
    "keyId=" +:+ q +:+ sign_keyId E uid +:+ q +:+ ",headers=" +:+ q +:+ listed +:+ q
    +:+ ",signature=" +:+ q +:+ sig +:+ q in
  0 <= uid ->
  parse_URL E url = Some (host, pathname) ->
  getPrivateKey E uid w = (Return key, w1) ->
  (truthy payload = true ->
   rsa_sign E key (base "post" +:+ nl +:+ "digest: sha-256=" +:+ b64) = Return sig ->
   sign E uid url payload w
   = (Return {| date := now; digest := Some ("sha-256=" +:+ b64);
                signature := header "(request-target) host date digest" |}, w1))
  /\ (truthy payload = false ->
      rsa_sign E key (base "get") = Return sig ->
      sign E uid url payload w
      = (Return {| date := now; digest := None;
                   signature := header "(request-target) host date" |}, w1)).
Proof.
  intros q nl now b64 base header Huid Hurl Hkey.
  rewrite (sign_run E uid url payload w host pathname key w1 Huid Hurl Hkey).
  unfold sign_string, sign_digest, sign_headers, sign_method, signature_value, eq_quote.
  fold now. fold nl. fold q.
  split; intros Ht Hsig; rewrite Ht.
  - assert (Heq : "(request-target): " +:+ "post" +:+ " " +:+ pathname +:+ nl +:+ "host: "
                  +:+ host +:+ nl +:+ "date: " +:+ now
                  +:+ nl +:+ "digest: " +:+ "sha-256=" +:+ sha256_base64 E (JSON_stringify E payload)
                  = base "post" +:+ nl +:+ "digest: sha-256=" +:+ b64).
    { subst base b64. cbv beta. rewrite !str_app_assoc. reflexivity. }
    rewrite Heq, Hsig. reflexivity.
  - assert (Heq : "(request-target): " +:+ "get" +:+ " " +:+ pathname +:+ nl +:+ "host: "
                  +:+ host +:+ nl +:+ "date: " +:+ now +:+ EmptyString
                  = base "get").
    { subst base. cbv beta. rewrite str_app_nil_r. reflexivity. }
    rewrite Heq, Hsig. reflexivity.
Qed.

Lemma sign_builds_signing_string_witness :
  (exists sig,
     fst (sign Demo.env 1 "https://remote.example/inbox" (JObj Demo.follow) Demo.world)
     = Return {| date := "Thu, 01 Jan 1970 00:00:00 GMT";
                 digest := Some ("sha-256=" +:+ Js.String_of_Z
                                   (Demo.checksum (Demo.stringify (JObj Demo.follow))));
                 signature :=
                   signature_value "https://forum.example/uid/1#key"
                     "(request-target) host date digest" sig |})
  /\ (exists sig,
        fst (sign Demo.env 0 "https://remote.example/inbox" JUndefined Demo.world)
        = Return {| date := "Thu, 01 Jan 1970 00:00:00 GMT";
                    digest := None;
                    signature :=
                      signature_value "https://forum.example/actor#key"
                        "(request-target) host date" sig |}).
Proof.
  split.
  - edestruct (sign_builds_signing_string Demo.env 1 "https://remote.example/inbox"
                 (JObj Demo.follow) Demo.world
                 (snd (getPrivateKey Demo.env 1 Demo.world))
                 "remote.example" "/inbox" "key-0") as [Hpost _];
      [lia | vm_compute; reflexivity | vm_compute; reflexivity |].
    eexists. rewrite Hpost; [reflexivity | reflexivity | reflexivity].
  - edestruct (sign_builds_signing_string Demo.env 0 "https://remote.example/inbox"
                 JUndefined Demo.world
                 (snd (getPrivateKey Demo.env 0 Demo.world))
                 "remote.example" "/inbox" "key-0") as [_ Hget];
      [lia | vm_compute; reflexivity | vm_compute; reflexivity |].
    eexists. rewrite Hget; [reflexivity | reflexivity | reflexivity].
Defined.

(** ** Objects and the spread *)

Lemma obj_get_set_eq (k : string) (v : JsVal) (o : Obj) :
  obj_get k (obj_set k v o) = Some v.
Proof.
  induction o as [|[k' v'] o IH]; simpl.
  - now rewrite String.eqb_refl.
  - destruct (String.eqb k' k) eqn:Hk; simpl.
    + now rewrite String.eqb_refl.
    + now rewrite Hk.
Qed.

Lemma obj_get_set_ne (k k' : string) (v : JsVal) (o : Obj) :
  k' <> k -> obj_get k (obj_set k' v o) = obj_get k o.
Proof.
  intros Hne. induction o as [|[k0 v0] o IH]; simpl.
  - destruct (String.eqb_spec k' k); [contradiction | reflexivity].
  - destruct (String.eqb_spec k0 k') as [->|Hk0]; simpl.
    + destruct (String.eqb_spec k' k); [contradiction | reflexivity].
    + destruct (String.eqb_spec k0 k); [reflexivity | exact IH].
Qed.

Lemma obj_get_absent (k : string) (o : Obj) :
  k ∉ map fst o -> obj_get k o = None.
Proof.
  induction o as [|[k' v'] o IH]; simpl; intros Hk; [reflexivity|].
  apply not_elem_of_cons in Hk as [Hne Hk].
  destruct (String.eqb_spec k' k); [congruence | auto].
Qed.

(** In [{ ...base, ...src }] a property of [src] wins over [base]. *)
Lemma obj_get_spread (k : string) (src : Obj) :
  obj_wf src ->
  forall base,
    obj_get k (obj_spread base src)
    = match obj_get k src with
      | Some v => Some v
      | None => obj_get k base
      end.
Proof.
  unfold obj_wf, obj_spread.
  induction src as [|[k' v'] src IH]; simpl; intros Hwf base; [reflexivity|].
  apply NoDup_cons in Hwf as [Hfresh Hwf].
  rewrite (IH Hwf).
  destruct (String.eqb_spec k' k) as [->|Hne].
  - rewrite (obj_get_absent k src Hfresh). apply obj_get_set_eq.
  - rewrite (obj_get_set_ne k k' v' base Hne). reflexivity.
Qed.

(** ** Delivery *)

Lemma deliver_run (E : Env) (uid : Z) (payload : Obj) (uri : string) (w : World) :
  deliver E uid payload uri w =
  match sign E uid uri (JObj payload) w with
  | (Return h, w1) =>
      let call := HttpPost uri (post_headers h) (JObj payload) in
      let ev := (call, http E (net w1) call) in
      (match delivery_outcome ev with Return _ => Return tt | Throw e => Throw e end,
       set_net (fun l => l ++ [ev]) w1)
  | (Throw e, w1) => (Throw e, w1)
  end.
Proof.
  unfold deliver, bind.
  destruct (sign E uid uri (JObj payload) w) as [[h|e] w1]; [|reflexivity].
  rewrite request_run. unfold delivery_outcome. simpl.
  destruct (http E (net w1) _) as [r|e]; [|reflexivity].
  destruct (Js.startsWith _ _); reflexivity.
Qed.

(** Whatever the deliveries do, each adds at most its own POST, with the
    payload it was given, to the trace. *)
Lemma deliveries_post_payload (E : Env) (uid : Z) (payload : Obj) (inboxes : list string) :
  forall w, exists evs,
    net (snd (Promise_all (map (deliver E uid payload) inboxes) w)) = net w ++ evs
    /\ Forall (fun ev => exists uri, is_post uri (JObj payload) ev) evs.
Proof.
  induction inboxes as [|uri inboxes IH]; intros w; simpl.
  - exists []. rewrite app_nil_r. split; [reflexivity | constructor].
  - rewrite deliver_run.
    pose proof (sign_net E uid uri (JObj payload) w) as Hn.
    destruct (sign E uid uri (JObj payload) w) as [[h|e] w1]; simpl in Hn.
    + cbv zeta.
      set (ev := (HttpPost uri (post_headers h) (JObj payload),
                  http E (net w1) (HttpPost uri (post_headers h) (JObj payload)))).
      destruct (IH (set_net (fun l => l ++ [ev]) w1)) as (evs & Hnet & Hall).
      destruct (Promise_all _ (set_net _ w1)) as [rs w2]. simpl in Hnet |- *.
      exists (ev :: evs). split.
      * rewrite Hnet, Hn, <- app_assoc. reflexivity.
      * constructor; [|exact Hall]. exists uri, (post_headers h). reflexivity.
    + destruct (IH w1) as (evs & Hnet & Hall).
      destruct (Promise_all _ w1) as [rs w2]. simpl in Hnet |- *.
      exists evs. split; [now rewrite Hnet, Hn | exact Hall].
Qed.

Lemma sign_returns (E : Env) (uid : Z) (url : string) (payload : JsVal) (w : World) :
  0 <= uid ->
  is_Some (parse_URL E url) ->
  (forall k m, exists s, rsa_sign E k m = Return s) ->
  exists h w1, sign E uid url payload w = (Return h, w1).
Proof.
  intros Huid [[host pathname] Hurl] Htotal.
  destruct (getPrivateKey_returns E uid w) as (key & w1 & Hkey & _).
  rewrite (sign_run E uid url payload w host pathname key w1 Huid Hurl Hkey).
  destruct (Htotal key (sign_string E host pathname (toUTCString E (clock w)) payload))
    as [s ->].
  eauto.
Qed.

Lemma first_rejection_throws (rs : list (Result unit)) (e : Err) :
  Throw e ∈ rs -> exists e', first_rejection rs = Throw e'.
Proof.
  induction rs as [|[u|e0] rs IH]; intros Hin.
  - apply elem_of_nil in Hin as [].
  - apply elem_of_cons in Hin as [Heq|Hin]; [discriminate | exact (IH Hin)].
  - simpl. eauto.
Qed.

(** When signing cannot fail, each inbox gets its POST, in order, and
    the joint result is the first rejection among them. *)
Lemma deliveries_all_issued (E : Env) (uid : Z) (payload : Obj) (inboxes : list string) :
  0 <= uid ->
  (forall k m, exists s, rsa_sign E k m = Return s) ->
  Forall (fun uri => is_Some (parse_URL E uri)) inboxes ->
  forall w, exists evs,
    net (snd (Promise_all (map (deliver E uid payload) inboxes) w)) = net w ++ evs
    /\ Forall2 (fun uri ev => is_post uri (JObj payload) ev) inboxes evs
    /\ match fst (Promise_all (map (deliver E uid payload) inboxes) w) with
       | Return _ => Return tt
       | Throw e => Throw e
       end = first_rejection (map delivery_outcome evs).
Proof.
  intros Huid Htotal Hparse.
  induction Hparse as [|uri inboxes Huri _ IH]; intros w; simpl.
  - exists []. rewrite app_nil_r. repeat split; constructor.
  - rewrite deliver_run.
    pose proof (sign_net E uid uri (JObj payload) w) as Hn.
    destruct (sign_returns E uid uri (JObj payload) w Huid Huri Htotal) as (h & w1 & Hs).
    rewrite Hs in Hn |- *. simpl in Hn. cbv zeta.
    set (ev := (HttpPost uri (post_headers h) (JObj payload),
                http E (net w1) (HttpPost uri (post_headers h) (JObj payload)))).
    destruct (IH (set_net (fun l => l ++ [ev]) w1)) as (evs & Hnet & Hall & Hres).
    destruct (Promise_all _ (set_net _ w1)) as [rs w2]. simpl in Hnet, Hres |- *.
    exists (ev :: evs). repeat split.
    + rewrite Hnet, Hn, <- app_assoc. reflexivity.
    + constructor; [|exact Hall]. exists (post_headers h). reflexivity.
    + simpl. destruct (delivery_outcome ev) as [u|e]; [|reflexivity].
      rewrite <- Hres. destruct rs; reflexivity.
Qed.

(** Deliveries that all resolve have each made their POST, in order, and
    each was answered in the 2xx class. *)
Lemma deliveries_fulfilled (E : Env) (uid : Z) (payload : Obj) (inboxes : list string) :
  forall w rs w2,
    Promise_all (map (deliver E uid payload) inboxes) w = (Return rs, w2) ->
    exists evs,
      net w2 = net w ++ evs
      /\ Forall2 (fun uri ev => is_post uri (JObj payload) ev
                                /\ delivery_outcome ev = Return tt) inboxes evs.
Proof.
  induction inboxes as [|uri inboxes IH]; intros w rs w2; simpl.
  - intros [= <- <-]. exists []. rewrite app_nil_r. split; [reflexivity | constructor].
  - rewrite deliver_run.
    pose proof (sign_net E uid uri (JObj payload) w) as Hn.
    destruct (sign E uid uri (JObj payload) w) as [[h|e] w1]; simpl in Hn.
    + cbv zeta.
      set (ev := (HttpPost uri (post_headers h) (JObj payload),
                  http E (net w1) (HttpPost uri (post_headers h) (JObj payload)))).
      cbv beta iota zeta.
      destruct (Promise_all _ (set_net _ w1)) as [[rs'|e'] w'] eqn:Hrest.
      * destruct (delivery_outcome ev) as [[]|e] eqn:Hout; [|discriminate].
        intros [= <- <-].
        destruct (IH _ _ _ Hrest) as (evs & Hnet & Hall).
        exists (ev :: evs). split.
        -- rewrite Hnet. simpl. rewrite Hn, <- app_assoc. reflexivity.
        -- constructor; [|exact Hall]. split; [|exact Hout].
           exists (post_headers h). reflexivity.
      * destruct (delivery_outcome ev); discriminate.
    + destruct (Promise_all _ w1) as [rs' w']. discriminate.
Qed.

(** ** Deliveries taking turns *)

Lemma advance_settled (E : Env) (uid : Z) (payload : Obj) (uri : string) (d : Delivery)
      (w : World) :
  is_Some (settled d) -> advance E uid payload uri d w = (d, w).
Proof. destruct d; intros [r Hr]; try discriminate; reflexivity. Qed.

Lemma advance_turns_left (E : Env) (uid : Z) (payload : Obj) (uri : string) (d : Delivery)
      (w : World) :
  (turns_left (advance E uid payload uri d w).1 <= pred (turns_left d))%nat.
Proof.
  destruct d as [|host pathname now|host pathname now key|e|ev]; simpl; try lia.
  - destruct (uid <? 0); simpl; [lia|].
    destruct (parse_URL E uri) as [[host pathname]|]; simpl; [|lia].
    unfold db_getObject. destruct (db w !! keys_key uid); simpl; lia.
  - destruct (rsa_sign E key _); simpl; lia.
Qed.

(** What one turn of an unsettled callback does to the trace. *)
Lemma advance_net (E : Env) (uid : Z) (payload : Obj) (uri : string) (d : Delivery)
      (w : World) :
  settled d = None ->
  match (advance E uid payload uri d w).1 with
  | Posted ev =>
      net (advance E uid payload uri d w).2 = net w ++ [ev]
      /\ is_post uri (JObj payload) ev
  | Rejected e =>
      net (advance E uid payload uri d w).2 = net w /\ sign_failure E uid uri e
  | _ => net (advance E uid payload uri d w).2 = net w
  end.
Proof.
  destruct d as [|host pathname now|host pathname now key|e|ev]; simpl; try discriminate;
    intros _.
  - destruct (Z.ltb_spec uid 0); simpl.
    + split; [reflexivity|]. left. auto.
    + destruct (parse_URL E uri) as [[host pathname]|] eqn:Hurl; simpl.
      * unfold db_getObject. destruct (db w !! keys_key uid); reflexivity.
      * split; [reflexivity|]. right; left. auto.
  - reflexivity.
  - destruct (rsa_sign E key _) as [sig|e] eqn:Hsig; simpl.
    + split; [reflexivity|]. eexists. reflexivity.
    + split; [reflexivity|]. right; right. eauto.
Qed.

Lemma posted_insert_other (ds : list Delivery) (i : nat) (d d' : Delivery) :
  ds !! i = Some d ->
  (forall ev, d <> Posted ev) -> (forall ev, d' <> Posted ev) ->
  posted (<[i := d']> ds) = posted ds.
Proof.
  revert i. induction ds as [|d0 ds IH]; intros [|i] Hd Hn Hn'; simpl in *; try discriminate.
  - injection Hd as ->. unfold posted. simpl.
    destruct d; destruct d'; try reflexivity;
      try (exfalso; eapply Hn; reflexivity); exfalso; eapply Hn'; reflexivity.
  - unfold posted in *. simpl. rewrite (IH i Hd Hn Hn'). reflexivity.
Qed.

Lemma posted_insert_new (ds : list Delivery) (i : nat) (d : Delivery) (ev : NetEvent) :
  ds !! i = Some d ->
  (forall ev', d <> Posted ev') ->
  posted (<[i := Posted ev]> ds) ≡ₚ posted ds ++ [ev].
Proof.
  revert i. induction ds as [|d0 ds IH]; intros [|i] Hd Hn; simpl in *; try discriminate.
  - injection Hd as ->. unfold posted. simpl.
    rewrite <- Permutation_cons_append.
    destruct d; try reflexivity. exfalso; eapply Hn; reflexivity.
  - unfold posted in *. simpl. destruct d0; simpl; try exact (IH i Hd Hn).
    rewrite (IH i Hd Hn). reflexivity.
Qed.

Lemma start_ok (E : Env) (uid : Z) (payload : Obj) (inboxes : list string) (w0 : World) :
  fanout_ok E uid payload inboxes w0 (start inboxes w0).
Proof.
  unfold fanout_ok, start. simpl.
  assert (Hst : forall i d, map (fun _ : string => Started) inboxes !! i = Some d -> d = Started).
  { intros i d Hd. rewrite list_lookup_fmap in Hd.
    destruct (inboxes !! i); simpl in Hd; congruence. }
  split; [apply length_map|].
  split.
  { exists []. rewrite app_nil_r. split; [reflexivity|].
    induction inboxes as [|a l IH]; simpl; [reflexivity|].
    apply IH. intros i d Hd. exact (Hst (S i) d Hd). }
  split; [intros i ev Hd; apply Hst in Hd; discriminate|].
  split; [intros i e Hd; apply Hst in Hd; discriminate|].
  split; [|constructor].
  intros i r. split.
  - intros Hin. apply elem_of_nil in Hin as [].
  - intros (d & Hd & Hs). apply Hst in Hd. subst d. discriminate.
Qed.

Lemma turn_ok (E : Env) (uid : Z) (payload : Obj) (inboxes : list string) (w0 : World)
      (f : Fanout) (i : nat) :
  fanout_ok E uid payload inboxes w0 f ->
  fanout_ok E uid payload inboxes w0 (turn E uid payload inboxes f i).
Proof.
  intros Hok. unfold turn.
  destruct (inboxes !! i) as [uri|] eqn:Huri; [|exact Hok].
  destruct (deliveries f !! i) as [d|] eqn:Hd; [|exact Hok].
  destruct (settled d) as [r|] eqn:Hsd.
  { rewrite (advance_settled E uid payload uri d (fan_world f)) by eauto.
    rewrite list_insert_id by exact Hd.
    destruct (settled d); destruct f; exact Hok. }
  pose proof (advance_net E uid payload uri d (fan_world f) Hsd) as Hnet.
  destruct (advance E uid payload uri d (fan_world f)) as [d' w'] eqn:Hadv.
  simpl in Hnet.
  destruct Hok as (Hlen & (evs & Hevs & Hperm) & Hpost & Hrej & Hlog & Hnodup).
  assert (Hnp : forall ev, d <> Posted ev) by (intros ev ->; discriminate).
  assert (Hfresh : i ∉ map fst (settlements f)).
  { intros Hin. apply list_elem_of_fmap in Hin as ([j r] & Hj & Hin). simpl in Hj. subst j.
    apply Hlog in Hin as (d0 & Hd0 & Hs0). congruence. }
  unfold fanout_ok. simpl.
  split; [rewrite length_insert; exact Hlen|].
  split.
  { assert (Hsame : net w' = net (fan_world f) -> (forall ev, d' <> Posted ev) ->
                      exists evs', net w' = net w0 ++ evs'
                                   /\ evs' ≡ₚ posted (<[i := d']> (deliveries f))).
    { intros Hn Hnp'. exists evs. split; [congruence|].
      rewrite (posted_insert_other _ i d _ Hd Hnp Hnp'). exact Hperm. }
    destruct d' as [| | |e|ev]; try (apply Hsame; [exact Hnet | discriminate]).
    { apply Hsame; [apply Hnet | discriminate]. }
    destruct Hnet as [Hnet _]. exists (evs ++ [ev]). split.
    - rewrite Hnet, Hevs, app_assoc. reflexivity.
    - rewrite (posted_insert_new _ i d ev Hd Hnp). rewrite Hperm. reflexivity. }
  split.
  { intros j ev Hj. apply list_lookup_insert_Some in Hj as [(<- & -> & _) | (Hne & Hj)].
    - exists uri. split; [exact Huri | apply Hnet].
    - exact (Hpost j ev Hj). }
  split.
  { intros j e Hj. apply list_lookup_insert_Some in Hj as [(<- & -> & _) | (Hne & Hj)].
    - exists uri. split; [exact Huri | apply Hnet].
    - exact (Hrej j e Hj). }
  assert (Hlt : (i < length (deliveries f))%nat)
    by (apply lookup_lt_is_Some; eauto).
  destruct (settled d') as [r'|] eqn:Hsd'.
  - split.
    + intros j r. rewrite elem_of_app, list_elem_of_singleton. split.
      * intros [Hin | [= -> ->]].
        -- apply Hlog in Hin as (d0 & Hd0 & Hs0). exists d0. split; [|exact Hs0].
           rewrite list_lookup_insert_ne; [exact Hd0|]. intros <-. congruence.
        -- exists d'. split; [|exact Hsd']. apply list_lookup_insert_eq. exact Hlt.
      * intros (d0 & Hd0 & Hs0).
        apply list_lookup_insert_Some in Hd0 as [(<- & <- & _) | (Hne & Hd0)].
        -- right. congruence.
        -- left. apply Hlog. eauto.
    + rewrite map_app. simpl. apply NoDup_app. split; [exact Hnodup|].
      split; [|apply NoDup_singleton].
      intros j Hj Hj'. apply list_elem_of_singleton in Hj'. subst j. contradiction.
  - split; [|exact Hnodup].
    intros j r. split.
    + intros Hin. apply Hlog in Hin as (d0 & Hd0 & Hs0). exists d0. split; [|exact Hs0].
      rewrite list_lookup_insert_ne; [exact Hd0|]. intros <-. congruence.
    + intros (d0 & Hd0 & Hs0).
      apply list_lookup_insert_Some in Hd0 as [(<- & <- & _) | (Hne & Hd0)].
      * congruence.
      * apply Hlog. eauto.
Qed.

Lemma run_ok (E : Env) (uid : Z) (payload : Obj) (inboxes : list string) (w0 : World)
      (schedule : list nat) :
  forall f, fanout_ok E uid payload inboxes w0 f ->
            fanout_ok E uid payload inboxes w0 (run E uid payload inboxes schedule f).
Proof.
  unfold run. induction schedule as [|i schedule IH]; intros f Hok; simpl; [exact Hok|].
  apply IH, turn_ok, Hok.
Qed.

(** C5. In the envelope built by [send], [@context] and [actor] are
    defaults: every property of the caller's payload keeps the caller's
    value, and the injected value shows only where the payload has none.
    This envelope is what [send] dispatches: every POST it issues carries
    it as body, also under every schedule of overlapping deliveries; a
    [send] that resolves has posted it, the payload's values included, to
    each of the resolved inboxes; and so has any [send] whose signing
    cannot fail (valid identity, inbox URLs that parse), whatever the
    inboxes answer. *)
Theorem send_envelope_payload_wins (E : Env) (uid : Z) (targets : Targets) (payload : Obj)
        (w : World) :
  obj_wf payload ->
  (forall k v, obj_get k payload = Some v -> obj_get k (envelope E uid payload) = Some v)
  /\ (obj_get "actor" payload = None ->
      obj_get "actor" (envelope E uid payload)
      = Some (JStr (nconf_url E +:+ "/uid/" +:+ Js.String_of_Z uid)))
  /\ (obj_get "@context" payload = None ->
      obj_get "@context" (envelope E uid payload)
      = Some (JStr "https://www.w3.org/ns/activitystreams"))
  /\ (exists evs,
        net (snd (send E uid targets payload w))
        = net (snd (resolveInboxes E (normalize_targets targets) w)) ++ evs
        /\ Forall (fun ev => exists uri, is_post uri (JObj (envelope E uid payload)) ev) evs)
  /\ (forall inboxes w1,
        resolveInboxes E (normalize_targets targets) w = (Return inboxes, w1) ->
        fst (send E uid targets payload w) = Return tt ->
        exists evs,
          net (snd (send E uid targets payload w)) = net w1 ++ evs
          /\ Forall2 (fun uri ev =>
                        exists hs body,
                          ev.1 = HttpPost uri hs (JObj body)
                          /\ body = envelope E uid payload
                          /\ forall k v, obj_get k payload = Some v -> obj_get k body = Some v)
               inboxes evs)
  /\ (forall inboxes w1,
        resolveInboxes E (normalize_targets targets) w = (Return inboxes, w1) ->
        0 <= uid ->
        (forall k m, exists sig, rsa_sign E k m = Return sig) ->
        Forall (fun uri => is_Some (parse_URL E uri)) inboxes ->
        exists evs,
          net (snd (send E uid targets payload w)) = net w1 ++ evs
          /\ Forall2 (fun uri ev => is_post uri (JObj (envelope E uid payload)) ev)
               inboxes evs)
  /\ (forall schedule, exists evs,
        net (snd (send_overlapping E schedule uid targets payload w))
        = net (snd (resolveInboxes E (normalize_targets targets) w)) ++ evs
        /\ Forall (fun ev => exists uri, is_post uri (JObj (envelope E uid payload)) ev) evs).
Proof.
  intros Hwf.
  assert (Hwin : forall k v, obj_get k payload = Some v ->
                             obj_get k (envelope E uid payload) = Some v).
  { intros k v Hget. unfold envelope. rewrite (obj_get_spread k payload Hwf), Hget.
    reflexivity. }
  split; [exact Hwin|].
  split.
  { intros Hnone. unfold envelope. rewrite (obj_get_spread _ payload Hwf), Hnone.
    reflexivity. }
  split.
  { intros Hnone. unfold envelope. rewrite (obj_get_spread _ payload Hwf), Hnone.
    reflexivity. }
  split.
  { unfold send. unfold bind at 1.
    destruct (resolveInboxes E (normalize_targets targets) w) as [[inboxes|e] w1]; simpl.
    + destruct (deliveries_post_payload E uid (envelope E uid payload) inboxes w1)
        as (evs & Hnet & Hall).
      exists evs. split; [|exact Hall].
      unfold bind.
      destruct (Promise_all _ w1) as [[rs|e] w2]; exact Hnet.
    + exists []. rewrite app_nil_r. split; [reflexivity | constructor]. }
  split.
  { intros inboxes w1 Hres. unfold send, bind. rewrite Hres.
    destruct (Promise_all _ w1) as [[rs|e] w2] eqn:Hall; [|discriminate].
    intros _. simpl.
    destruct (deliveries_fulfilled E uid (envelope E uid payload) inboxes w1 rs w2 Hall)
      as (evs & Hnet & Hposts).
    exists evs. split; [exact Hnet|].
    eapply Forall2_impl; [exact Hposts|].
    intros uri ev [[hs Hev] _]. exists hs, (envelope E uid payload). auto. }
  split.
  { intros inboxes w1 Hres Huid Htotal Hparse.
    destruct (deliveries_all_issued E uid (envelope E uid payload) inboxes
                Huid Htotal Hparse w1) as (evs & Hnet & Hall & _).
    exists evs. split; [|exact Hall].
    unfold send, bind. rewrite Hres.
    destruct (Promise_all _ w1) as [[rs|e] w2]; exact Hnet. }
  intros schedule. unfold send_overlapping.
  destruct (resolveInboxes E (normalize_targets targets) w) as [[inboxes|e] w1]; simpl.
  - destruct (run_ok E uid (envelope E uid payload) inboxes w1 schedule _
                (start_ok E uid (envelope E uid payload) inboxes w1))
      as (_ & (evs & Hevs & Hperm) & Hpost & _).
    exists evs. split; [exact Hevs|].
    apply Forall_forall. intros ev Hin. rewrite Hperm in Hin.
    unfold posted in Hin. apply list_elem_of_omap in Hin as (d & Hd & Hev).
    destruct d; try discriminate. injection Hev as ->.
    apply list_elem_of_lookup in Hd as [i Hi].
    destruct (Hpost i ev Hi) as (uri & _ & Hp). eauto.
  - exists []. rewrite app_nil_r. split; [reflexivity | constructor].
Qed.

Lemma send_envelope_payload_wins_witness :
  exists ev hs body,
    ev ∈ net (snd (send Demo.env 42 (One Demo.alice) [("actor"%string, JStr "X")]
                     Demo.world))
    /\ ev.1 = HttpPost "https://remote.example/inbox" hs (JObj body)
    /\ obj_get "actor" body = Some (JStr "X")
    /\ obj_get "@context" body = Some (JStr "https://www.w3.org/ns/activitystreams").
Proof.
  destruct (send_envelope_payload_wins Demo.env 42 (One Demo.alice)
              [("actor"%string, JStr "X")] Demo.world)
    as (Hwin & _ & Hctx & _ & Hsent & _ & _).
  - unfold obj_wf. simpl. apply NoDup_singleton.
  - destruct (Hsent ["https://remote.example/inbox"%string] Demo.world)
      as (evs & Hnet & Hposts); [vm_compute; reflexivity | vm_compute; reflexivity |].
    apply Forall2_cons_inv_l in Hposts
      as (ev & evs' & (hs & body & Hev & Hbody & Hkeep) & _ & ->).
    exists ev, hs, body. split; [|split; [exact Hev | split]].
    + rewrite Hnet. apply elem_of_app. right. apply list_elem_of_here.
    + apply Hkeep. reflexivity.
    + rewrite Hbody. apply Hctx. reflexivity.
Defined.

(** ** Fan-out and its failure policy *)

Lemma run_app (E : Env) (uid : Z) (payload : Obj) (inboxes : list string)
      (s1 s2 : list nat) (f : Fanout) :
  run E uid payload inboxes (s1 ++ s2) f
  = run E uid payload inboxes s2 (run E uid payload inboxes s1 f).
Proof. apply fold_left_app. Qed.

Lemma turn_length (E : Env) (uid : Z) (payload : Obj) (inboxes : list string)
      (f : Fanout) (i : nat) :
  length (deliveries (turn E uid payload inboxes f i)) = length (deliveries f).
Proof.
  unfold turn. destruct (inboxes !! i); [|reflexivity].
  destruct (deliveries f !! i); [|reflexivity].
  destruct (advance _ _ _ _ _ _). simpl. apply length_insert.
Qed.

(** A turn of callback [j] moves callback [j] only, and brings it
    nearer to its end. *)
Lemma turn_lookup (E : Env) (uid : Z) (payload : Obj) (inboxes : list string)
      (f : Fanout) (i j : nat) (d : Delivery) :
  length (deliveries f) = length inboxes ->
  deliveries f !! i = Some d ->
  exists d', deliveries (turn E uid payload inboxes f j) !! i = Some d'
             /\ (turns_left d' <= turns_left d)%nat
             /\ (j = i -> (turns_left d' <= pred (turns_left d))%nat).
Proof.
  intros Hlen Hd. unfold turn.
  assert (Hlt : (i < length (deliveries f))%nat) by (apply lookup_lt_is_Some; eauto).
  destruct (Nat.eq_dec j i) as [->|Hne].
  - destruct (lookup_lt_is_Some_2 inboxes i) as [uri Huri]; [lia|].
    rewrite Huri, Hd.
    pose proof (advance_turns_left E uid payload uri d (fan_world f)) as Hle.
    destruct (advance _ _ _ _ _ _) as [d' w']. simpl in *.
    exists d'. split; [apply list_lookup_insert_eq; exact Hlt|]. split; [lia|auto].
  - exists d. split; [|split; [lia | intros; contradiction]].
    destruct (inboxes !! j); [|exact Hd].
    destruct (deliveries f !! j); [|exact Hd].
    destruct (advance _ _ _ _ _ _). simpl.
    rewrite list_lookup_insert_ne by exact Hne. exact Hd.
Qed.

Lemma run_turns_left (E : Env) (uid : Z) (payload : Obj) (inboxes : list string)
      (schedule : list nat) (i : nat) :
  forall f d,
    length (deliveries f) = length inboxes ->
    deliveries f !! i = Some d ->
    exists d', deliveries (run E uid payload inboxes schedule f) !! i = Some d'
               /\ (turns_left d' <= turns_left d - turns i schedule)%nat.
Proof.
  unfold run, turns.
  induction schedule as [|j schedule IH]; intros f d Hlen Hd; simpl.
  - exists d. split; [exact Hd | lia].
  - destruct (turn_lookup E uid payload inboxes f i j d Hlen Hd) as (d1 & Hd1 & Hle & Hstep).
    destruct (IH (turn E uid payload inboxes f j) d1) as (d' & Hd' & Hle');
      [rewrite turn_length; exact Hlen | exact Hd1 |].
    exists d'. split; [exact Hd'|].
    destruct (Nat.eq_dec j i) as [Heq|Hne].
    + rewrite filter_cons_True by exact Heq. simpl. specialize (Hstep Heq). lia.
    + rewrite filter_cons_False by exact Hne. lia.
Qed.

Lemma turns_left_0 (d : Delivery) : turns_left d = 0%nat -> is_Some (settled d).
Proof. destruct d; simpl; intros; try discriminate; eauto. Qed.

Lemma first_rejection_app (rs more : list (Result unit)) (e : Err) :
  first_rejection rs = Throw e -> first_rejection (rs ++ more) = Throw e.
Proof.
  induction rs as [|[u|e0] rs IH]; simpl; intros H; [discriminate | auto | exact H].
Qed.

Lemma first_rejection_split (log : list (nat * Result unit)) (e : Err) :
  first_rejection (map snd log) = Throw e
  <-> exists before i after,
        log = before ++ (i, Throw e) :: after
        /\ Forall (fun s => s.2 = Return tt) before.
Proof.
  split.
  - induction log as [|[i [[]|e0]] log IH]; simpl; intros H; [discriminate| |].
    + destruct (IH H) as (before & j & after & -> & Hall).
      exists ((i, Return tt) :: before), j, after. split; [reflexivity|].
      constructor; [reflexivity | exact Hall].
    + injection H as ->. exists [], i, log. split; [reflexivity | constructor].
  - intros (before & i & after & -> & Hall).
    induction Hall as [|[j r] before Hr _ IH]; simpl; [reflexivity|].
    simpl in Hr. rewrite Hr. exact IH.
Qed.

Lemma turn_settlements (E : Env) (uid : Z) (payload : Obj) (inboxes : list string)
      (f : Fanout) (i : nat) :
  exists more, settlements (turn E uid payload inboxes f i) = settlements f ++ more.
Proof.
  unfold turn. destruct (inboxes !! i); [|exists []; now rewrite app_nil_r].
  destruct (deliveries f !! i) as [d|]; [|exists []; now rewrite app_nil_r].
  destruct (advance _ _ _ _ _ _) as [d' w']. simpl.
  destruct (settled d); [exists []; now rewrite app_nil_r|].
  destruct (settled d'); [eauto | exists []; now rewrite app_nil_r].
Qed.

Lemma run_settlements (E : Env) (uid : Z) (payload : Obj) (inboxes : list string)
      (schedule : list nat) :
  forall f, exists more,
    settlements (run E uid payload inboxes schedule f) = settlements f ++ more.
Proof.
  unfold run. induction schedule as [|i schedule IH]; intros f; simpl.
  - exists []. now rewrite app_nil_r.
  - destruct (IH (turn E uid payload inboxes f i)) as (more & ->).
    destruct (turn_settlements E uid payload inboxes f i) as (more0 & ->).
    exists (more0 ++ more). now rewrite app_assoc.
Qed.

Lemma outcome_rejected (n : nat) (log : list (nat * Result unit)) (e : Err) :
  Promise_all_outcome n log = Some (Throw e) <-> first_rejection (map snd log) = Throw e.
Proof.
  unfold Promise_all_outcome.
  destruct (first_rejection (map snd log)) as [u|e0].
  - destruct (length log =? n)%nat; split; discriminate.
  - split; intros [= ->]; reflexivity.
Qed.

Lemma turns_side_by_side (n i : nat) : (i < n)%nat -> turns i (side_by_side n) = 3%nat.
Proof.
  intros Hi. unfold turns, side_by_side.
  assert (Hone : length (filter (fun j => j = i) (seq 0 n)) = 1%nat).
  { replace n with (i + S (n - S i))%nat by lia.
    rewrite seq_app, filter_app, length_app. simpl.
    rewrite filter_cons_True by reflexivity. simpl.
    assert (Hlow : forall k m, (k + m <= i)%nat ->
                               filter (fun j => j = i) (seq k m) = []).
    { intros k m. revert k. induction m as [|m IH]; intros k Hk; simpl; [reflexivity|].
      rewrite filter_cons_False by lia. apply IH. lia. }
    assert (Hhigh : forall k m, (i < k)%nat -> filter (fun j => j = i) (seq k m) = []).
    { intros k m. revert k. induction m as [|m IH]; intros k Hk; simpl; [reflexivity|].
      rewrite filter_cons_False by lia. apply IH. lia. }
    rewrite (Hlow 0%nat i) by lia. rewrite (Hhigh (S i)) by lia. reflexivity. }
  rewrite !filter_app, !length_app, Hone. reflexivity.
Qed.

Lemma non_2xx_outcome (call : NetCall) (r : Response) :
  100 <= statusCode r <= 999 -> ~ 200 <= statusCode r <= 299 ->
  delivery_outcome (call, Return r) = Throw activity_failed.
Proof.
  intros Hst Hnot. unfold delivery_outcome. simpl. rewrite (startsWith_2_class _ Hst).
  destruct (Z.leb_spec 200 (statusCode r)), (Z.leb_spec (statusCode r) 299);
    simpl; try reflexivity; lia.
Qed.

Lemma logged_rejection (log : list (nat * Result unit)) (i : nat) (e : Err) :
  (i, Throw e) ∈ log -> exists e', first_rejection (map snd log) = Throw e'.
Proof.
  intros Hin. apply (first_rejection_throws _ e).
  apply list_elem_of_fmap. exists (i, Throw e). split; [reflexivity | exact Hin].
Qed.

(** C7. Once the inboxes are resolved, and however the deliveries take
    their turns: a delivery whose POST is answered outside the 2xx class,
    like any delivery that fails, makes [send] reject; the error [send]
    rejects with is that of the delivery that failed first in time, and
    no later turn changes it; every delivery that gets its turns ends
    either rejected by its own signing or with its POST made, whatever the
    other deliveries met, and each POST made is in the trace, addressed to
    its inbox with the envelope as body. *)
Theorem send_rejects_on_any_failure (E : Env) (uid : Z) (targets : Targets) (payload : Obj)
        (w w1 : World) (inboxes : list string) (schedule : list nat) :
  resolveInboxes E (normalize_targets targets) w = (Return inboxes, w1) ->
  let f := run E uid (envelope E uid payload) inboxes schedule (start inboxes w1) in
  let outcome := fst (send_overlapping E schedule uid targets payload w) in
  (forall i call r,
     deliveries f !! i = Some (Posted (call, Return r)) ->
     100 <= statusCode r <= 999 -> ~ 200 <= statusCode r <= 299 ->
     exists e, outcome = Some (Throw e))
  /\ (forall i d e,
        deliveries f !! i = Some d -> settled d = Some (Throw e) ->
        exists e', outcome = Some (Throw e'))
  /\ (forall i r, (i, r) ∈ settlements f
                  <-> exists d, deliveries f !! i = Some d /\ settled d = Some r)
  /\ (forall e, outcome = Some (Throw e)
                <-> exists before i after,
                      settlements f = before ++ (i, Throw e) :: after
                      /\ Forall (fun s => s.2 = Return tt) before)
  /\ (forall e more,
        outcome = Some (Throw e) ->
        fst (send_overlapping E (schedule ++ more) uid targets payload w) = Some (Throw e))
  /\ (forall i uri,
        inboxes !! i = Some uri -> (3 <= turns i schedule)%nat ->
        (exists ev, deliveries f !! i = Some (Posted ev))
        \/ (exists e, deliveries f !! i = Some (Rejected e) /\ sign_failure E uid uri e))
  /\ (forall i ev,
        deliveries f !! i = Some (Posted ev) ->
        ev ∈ net (snd (send_overlapping E schedule uid targets payload w))
        /\ exists uri, inboxes !! i = Some uri
                       /\ is_post uri (JObj (envelope E uid payload)) ev).
Proof.
  intros Hres f outcome.
  pose proof (run_ok E uid (envelope E uid payload) inboxes w1 schedule _
                (start_ok E uid (envelope E uid payload) inboxes w1)) as Hok.
  fold f in Hok.
  destruct Hok as (Hlen & (evs & Hevs & Hperm) & Hpost & Hrej & Hlog & Hnodup).
  assert (Hout : outcome = Promise_all_outcome (length inboxes) (settlements f)).
  { unfold outcome, send_overlapping. rewrite Hres. reflexivity. }
  assert (Hworld : snd (send_overlapping E schedule uid targets payload w) = fan_world f).
  { unfold send_overlapping. rewrite Hres. reflexivity. }
  assert (Hany : forall i d e, deliveries f !! i = Some d -> settled d = Some (Throw e) ->
                               exists e', outcome = Some (Throw e')).
  { intros i d e Hd Hs.
    destruct (logged_rejection (settlements f) i e) as [e' He'].
    - apply Hlog. eauto.
    - exists e'. rewrite Hout. apply outcome_rejected. exact He'. }
  split.
  { intros i call r Hd Hst Hnot. apply (Hany i _ activity_failed Hd).
    simpl. rewrite (non_2xx_outcome call r Hst Hnot). reflexivity. }
  split; [exact Hany|].
  split; [exact Hlog|].
  split.
  { intros e. rewrite Hout, outcome_rejected. apply first_rejection_split. }
  split.
  { intros e more He. rewrite Hout in He. apply outcome_rejected in He.
    unfold send_overlapping. rewrite Hres. simpl. apply outcome_rejected.
    rewrite run_app. fold f.
    destruct (run_settlements E uid (envelope E uid payload) inboxes more f) as (l & ->).
    rewrite map_app. apply first_rejection_app. exact He. }
  split.
  { intros i uri Huri Hturns.
    destruct (run_turns_left E uid (envelope E uid payload) inboxes schedule i
                (start inboxes w1) Started) as (d & Hd & Hle).
    - apply length_map.
    - unfold start. simpl. rewrite list_lookup_fmap, Huri. reflexivity.
    - fold f in Hd. simpl in Hle.
      destruct d as [| | |e|ev]; simpl in Hle; try lia.
      + right. exists e. split; [exact Hd|].
        destruct (Hrej i e Hd) as (uri' & Huri' & Hwhy). congruence.
      + left. eauto. }
  intros i ev Hd. split; [|exact (Hpost i ev Hd)].
  rewrite Hworld, Hevs. apply elem_of_app. right. rewrite Hperm.
  unfold posted. apply list_elem_of_omap. exists (Posted ev). split; [|reflexivity].
  apply list_elem_of_lookup. eauto.
Qed.

Lemma send_rejects_on_any_failure_witness :
  let outcome := fst (send_overlapping Demo.env (side_by_side 2) 1
                        (Many [Demo.alice; Demo.bob; Demo.carol]) Demo.follow Demo.world) in
  let trace := net (snd (send_overlapping Demo.env (side_by_side 2) 1
                           (Many [Demo.alice; Demo.bob; Demo.carol]) Demo.follow
                           Demo.world)) in
  outcome = Some (Throw activity_failed)
  /\ (exists e, outcome = Some (Throw e))
  /\ exists ev,
      ev ∈ trace
      /\ is_post "https://remote.example/inbox" (JObj (envelope Demo.env 1 Demo.follow)) ev
      /\ delivery_outcome ev = Return tt.
Proof.
  intros outcome trace.
  destruct (send_rejects_on_any_failure Demo.env 1 (Many [Demo.alice; Demo.bob; Demo.carol])
              Demo.follow Demo.world Demo.world
              ["https://remote.example/inbox"; "https://down.example/inbox"]%string
              (side_by_side 2))
    as (Hfail & _ & _ & _ & _ & Hall & Hposted);
    [vm_compute; reflexivity|].
  split; [vm_compute; reflexivity|].
  split.
  - destruct (Hall 1%nat "https://down.example/inbox"%string eq_refl)
      as [[ev Hev] | [e [He _]]];
      [rewrite turns_side_by_side; lia | | vm_compute in He; discriminate].
    destruct ev as [call [r|e]]; [|vm_compute in Hev; discriminate].
    apply (Hfail 1%nat call r Hev).
    + vm_compute in Hev. injection Hev as _ <-. simpl. lia.
    + vm_compute in Hev. injection Hev as _ <-. simpl. lia.
  - destruct (Hall 0%nat "https://remote.example/inbox"%string eq_refl)
      as [[ev Hev] | [e [He _]]];
      [rewrite turns_side_by_side; lia | | vm_compute in He; discriminate].
    exists ev. destruct (Hposted 0%nat ev Hev) as (Hin & uri & Huri & Hpost).
    split; [exact Hin|]. injection Huri as <-. split; [exact Hpost|].
    vm_compute in Hev. injection Hev as <-. vm_compute. reflexivity.
Defined.

(** ** The schedule without overlap *)

Lemma turn_at (E : Env) (uid : Z) (payload : Obj) (inboxes : list string) (f : Fanout)
      (i : nat) (uri : string) (d : Delivery) :
  inboxes !! i = Some uri ->
  deliveries f !! i = Some d ->
  turn E uid payload inboxes f i
  = {| deliveries := <[i := (advance E uid payload uri d (fan_world f)).1]> (deliveries f);
       settlements :=
         match settled d, settled (advance E uid payload uri d (fan_world f)).1 with
         | None, Some r => settlements f ++ [(i, r)]
         | _, _ => settlements f
         end;
       fan_world := (advance E uid payload uri d (fan_world f)).2 |}.
Proof.
  intros Huri Hd. unfold turn. rewrite Huri, Hd.
  destruct (advance _ _ _ _ _ _). reflexivity.
Qed.

Lemma unit_result (r : Result unit) :
  match r with Return _ => Return tt | Throw e => Throw e end = r.
Proof. destruct r as [[]|e]; reflexivity. Qed.

(** Three turns in a row are one run of the callback. *)
Lemma advance3 (E : Env) (uid : Z) (payload : Obj) (uri : string) (w : World) :
  let a1 := advance E uid payload uri Started w in
  let a2 := advance E uid payload uri a1.1 a1.2 in
  let a3 := advance E uid payload uri a2.1 a2.2 in
  exists r,
    settled a3.1 = Some r
    /\ deliver E uid payload uri w = (r, a3.2)
    /\ forall (i : nat) (L : list (nat * Result unit)),
        (let L1 := match settled a1.1 with Some r => L ++ [(i, r)] | None => L end in
         let L2 := match settled a1.1, settled a2.1 with
                   | None, Some r => L1 ++ [(i, r)]
                   | _, _ => L1
                   end in
         match settled a2.1, settled a3.1 with
         | None, Some r => L2 ++ [(i, r)]
         | _, _ => L2
         end) = L ++ [(i, r)].
Proof.
  cbv zeta. rewrite deliver_run. unfold sign.
  remember (advance E uid payload uri Started w) as a1 eqn:Ha1.
  unfold advance in Ha1.
  destruct (uid <? 0) eqn:Huid.
  { subst a1. simpl. eexists. repeat split. }
  destruct (parse_URL E uri) as [[host pathname]|] eqn:Hurl.
  2: { subst a1. simpl. eexists. repeat split. }
  unfold bind, gets, lift, ret, getPrivateKey, try_catch, bind.
  unfold db_getObject in Ha1 |- *. unfold generateKeys.
  destruct (db w !! keys_key uid) as [kp|] eqn:Hdb; subst a1; simpl.
  - destruct (rsa_sign E (privateKey kp) _) as [sig|e] eqn:Hsig; simpl.
    + eexists. split; [reflexivity|]. split; [|reflexivity].
      rewrite unit_result. reflexivity.
    + eexists. repeat split.
  - destruct (rsa_sign E (privateKey (generateKeyPair E (entropy w))) _) as [sig|e] eqn:Hsig;
      simpl.
    + eexists. split; [reflexivity|]. split; [|reflexivity].
      rewrite unit_result. reflexivity.
    + eexists. repeat split.
Qed.

Lemma turn3 (E : Env) (uid : Z) (payload : Obj) (inboxes : list string) (f : Fanout)
      (k : nat) (uri : string) :
  inboxes !! k = Some uri ->
  deliveries f !! k = Some Started ->
  let f' := fold_left (turn E uid payload inboxes) [k; k; k] f in
  exists d r,
    deliveries f' = <[k := d]> (deliveries f)
    /\ settlements f' = settlements f ++ [(k, r)]
    /\ deliver E uid payload uri (fan_world f) = (r, fan_world f').
Proof.
  intros Huri Hd. cbv zeta. cbn [fold_left].
  assert (Hlt : (k < length (deliveries f))%nat) by (apply lookup_lt_is_Some; eauto).
  destruct (advance3 E uid payload uri (fan_world f)) as (r & Hs & Hdel & Hlog).
  cbv zeta in Hs, Hdel, Hlog.
  set (a1 := advance E uid payload uri Started (fan_world f)) in *.
  set (a2 := advance E uid payload uri a1.1 a1.2) in *.
  set (a3 := advance E uid payload uri a2.1 a2.2) in *.
  set (f1 := turn E uid payload inboxes f k).
  assert (H1 : f1 = {| deliveries := <[k := a1.1]> (deliveries f);
                       settlements := match settled a1.1 with
                                      | Some r => settlements f ++ [(k, r)]
                                      | None => settlements f
                                      end;
                       fan_world := a1.2 |}).
  { unfold f1. rewrite (turn_at E uid payload inboxes f k uri Started Huri Hd). reflexivity. }
  set (f2 := turn E uid payload inboxes f1 k).
  assert (H2 : f2 = {| deliveries := <[k := a2.1]> (deliveries f);
                       settlements := match settled a1.1, settled a2.1 with
                                      | None, Some r => settlements f1 ++ [(k, r)]
                                      | _, _ => settlements f1
                                      end;
                       fan_world := a2.2 |}).
  { unfold f2. rewrite (turn_at E uid payload inboxes f1 k uri a1.1 Huri).
    - rewrite H1. cbn [deliveries settlements fan_world].
      rewrite list_insert_insert_eq. reflexivity.
    - rewrite H1. cbn [deliveries]. apply list_lookup_insert_eq. exact Hlt. }
  set (f3 := turn E uid payload inboxes f2 k).
  assert (H3 : f3 = {| deliveries := <[k := a3.1]> (deliveries f);
                       settlements := match settled a2.1, settled a3.1 with
                                      | None, Some r => settlements f2 ++ [(k, r)]
                                      | _, _ => settlements f2
                                      end;
                       fan_world := a3.2 |}).
  { unfold f3. rewrite (turn_at E uid payload inboxes f2 k uri a2.1 Huri).
    - rewrite H2. cbn [deliveries settlements fan_world].
      rewrite list_insert_insert_eq. reflexivity.
    - rewrite H2. cbn [deliveries]. apply list_lookup_insert_eq. exact Hlt. }
  exists a3.1, r. rewrite H3. cbn [deliveries settlements fan_world].
  split; [reflexivity|]. split; [|exact Hdel].
  rewrite H2, H1. cbn [settlements]. exact (Hlog k (settlements f)).
Qed.

Lemma run_one_by_one (E : Env) (uid : Z) (payload : Obj) (inboxes : list string) :
  forall m k f,
    (k + m = length inboxes)%nat ->
    length (deliveries f) = length inboxes ->
    (forall j, (k <= j)%nat -> (j < k + m)%nat -> deliveries f !! j = Some Started) ->
    let f' := run E uid payload inboxes (flat_map (fun i => [i; i; i]) (seq k m)) f in
    exists log,
      settlements f' = settlements f ++ log
      /\ length log = m
      /\ fan_world f' = snd (Promise_all (map (deliver E uid payload) (drop k inboxes))
                               (fan_world f))
      /\ first_rejection (map snd log)
         = match fst (Promise_all (map (deliver E uid payload) (drop k inboxes))
                        (fan_world f)) with
           | Return _ => Return tt
           | Throw e => Throw e
           end.
Proof.
  induction m as [|m IH]; intros k f Hk Hlen Hstarted; cbv zeta.
  - rewrite drop_ge by lia. simpl. exists []. rewrite app_nil_r. auto.
  - destruct (lookup_lt_is_Some_2 inboxes k) as [uri Huri]; [lia|].
    rewrite (drop_S inboxes uri k Huri).
    cbn [seq flat_map]. unfold run. rewrite fold_left_app.
    destruct (turn3 E uid payload inboxes f k uri Huri) as (d & r & Hds & Hlog & Hdel);
      [apply Hstarted; lia|].
    cbv zeta in Hds, Hlog, Hdel.
    set (f1 := fold_left (turn E uid payload inboxes) [k; k; k] f) in *.
    destruct (IH (S k) f1) as (log & Hlog' & Hlen' & Hworld & Hfirst).
    + lia.
    + rewrite Hds, length_insert. exact Hlen.
    + intros j Hj1 Hj2. rewrite Hds, list_lookup_insert_ne by lia. apply Hstarted; lia.
    + cbv zeta in Hlog', Hworld, Hfirst. unfold run in Hlog', Hworld, Hfirst.
      exists ((k, r) :: log).
      split; [rewrite Hlog', Hlog, <- app_assoc; reflexivity|].
      split; [simpl; lia|].
      cbn [map Promise_all]. rewrite Hdel.
      destruct (Promise_all (map (deliver E uid payload) (drop (S k) inboxes))
                  (fan_world f1)) as [rs w2] eqn:Hrest.
      simpl in Hworld, Hfirst |- *.
      split; [exact Hworld|].
      destruct r as [[]|e]; [|reflexivity].
      rewrite Hfirst. destruct rs; reflexivity.
Qed.

(** [send], in which [Promise_all] lets each delivery run to its end
    before the next begins, is the fan-out under the schedule
    [one_by_one]. *)
Lemma send_is_one_by_one (E : Env) (uid : Z) (targets : Targets) (payload : Obj)
      (w w1 : World) (inboxes : list string) :
  resolveInboxes E (normalize_targets targets) w = (Return inboxes, w1) ->
  send_overlapping E (one_by_one (length inboxes)) uid targets payload w
  = (Some (fst (send E uid targets payload w)), snd (send E uid targets payload w)).
Proof.
  intros Hres. unfold send_overlapping, send, bind. rewrite Hres.
  destruct (run_one_by_one E uid (envelope E uid payload) inboxes (length inboxes) 0
              (start inboxes w1)) as (log & Hlog & Hlen & Hworld & Hfirst).
  - reflexivity.
  - apply length_map.
  - intros j _ Hj. unfold start. simpl. rewrite list_lookup_fmap.
    destruct (lookup_lt_is_Some_2 inboxes j) as [uri ->]; [lia | reflexivity].
  - cbv zeta in Hlog, Hworld, Hfirst. rewrite drop_0 in Hworld, Hfirst.
    change (fan_world (start inboxes w1)) with w1 in Hworld, Hfirst.
    unfold one_by_one. simpl in Hlog. cbv zeta.
    unfold Promise_all_outcome. rewrite Hlog, Hfirst, Hworld, Hlen.
    destruct (Promise_all _ w1) as [[rs|e] w2]; simpl; [|reflexivity].
    rewrite Nat.eqb_refl. reflexivity.
Qed.

(** ** Inbox resolution *)

Lemma resolve_one_run (id : string) (w : World) :
  resolve_one id w = (Return (preferred_inbox (lookup_fields w id)), w).
Proof.
  unfold resolve_one, bind, getUserFields, gets, ret, preferred_inbox, present.
  destruct (lookup_fields w id) as [i s]. simpl.
  unfold str_or, str_truthy.
  destruct s as [s|]; [destruct (String.eqb s EmptyString) eqn:Hs|]; simpl;
    try rewrite Hs; simpl; try reflexivity;
    destruct i as [i|]; simpl; try reflexivity;
    destruct (String.eqb i EmptyString); reflexivity.
Qed.

Lemma resolve_all_run (ids : list string) (w : World) :
  Promise_all (map resolve_one ids) w
  = (Return (map (fun id => preferred_inbox (lookup_fields w id)) ids), w).
Proof.
  induction ids as [|id ids IH]; [reflexivity|].
  cbn [map Promise_all]. rewrite resolve_one_run, IH. reflexivity.
Qed.

Lemma Set_add_spec (x : string) (s : list string) :
  NoDup s -> NoDup (Set_add x s) /\ forall y, y ∈ Set_add x s <-> y ∈ s \/ y = x.
Proof.
  intros Hnd. unfold Set_add. case_bool_decide as Hin.
  - split; [exact Hnd|]. intros y. split; [auto|]. intros [?| ->]; assumption.
  - split.
    + apply NoDup_app. repeat split; [exact Hnd | | apply NoDup_singleton].
      intros y Hy Hy'. apply list_elem_of_singleton in Hy'. subst. contradiction.
    + intros y. rewrite elem_of_app, list_elem_of_singleton. reflexivity.
Qed.

Lemma Set_fill_spec (found : list (option string)) :
  forall acc, NoDup acc ->
    NoDup (fold_left Set_add_opt found acc)
    /\ forall x, x ∈ fold_left Set_add_opt found acc <-> x ∈ acc \/ Some x ∈ found.
Proof.
  induction found as [|c found IH]; simpl; intros acc Hnd.
  - split; [exact Hnd|]. intros x. rewrite elem_of_nil. tauto.
  - assert (Hstep : NoDup (Set_add_opt acc c)
                    /\ forall y, y ∈ Set_add_opt acc c <-> y ∈ acc \/ Some y = c).
    { destruct c as [x|]; simpl.
      - destruct (Set_add_spec x acc Hnd) as [Hnd' Hmem]. split; [exact Hnd'|].
        intros y. rewrite Hmem. split; intros [?|Heq]; auto; right; congruence.
      - split; [exact Hnd|]. intros y. split; [auto|]. intros [?|?]; [auto | discriminate]. }
    destruct Hstep as [Hnd' Hmem].
    destruct (IH _ Hnd') as [Hnd'' Hmem'']. split; [exact Hnd''|].
    intros x. rewrite Hmem'', Hmem, elem_of_cons. tauto.
Qed.

(** C6. After the actor records are asserted, [resolveInboxes] returns a
    duplicate-free list that holds exactly the endpoints preferred by the
    identifiers (shared inbox, else inbox, else nothing; a field counts
    when it is a non-empty string); two identifiers with the same shared
    inbox resolve to that single endpoint. *)
Theorem resolveInboxes_prefers_shared_and_dedups (E : Env) (ids : list string)
        (w w1 : World) :
  actors_assert E ids w = (Return tt, w1) ->
  exists l,
    resolveInboxes E ids w = (Return l, w1)
    /\ NoDup l
    /\ (forall x, x ∈ l <->
                  exists id, id ∈ ids /\ preferred_inbox (lookup_fields w1 id) = Some x)
    /\ (forall a b s,
          ids = [a; b] -> s <> EmptyString ->
          sharedInbox (lookup_fields w1 a) = Some s ->
          sharedInbox (lookup_fields w1 b) = Some s ->
          l = [s]).
Proof.
  intros Hassert.
  exists (fold_left Set_add_opt
            (map (fun id => preferred_inbox (lookup_fields w1 id)) ids) []).
  destruct (Set_fill_spec (map (fun id => preferred_inbox (lookup_fields w1 id)) ids)
              [] (NoDup_nil_2)) as [Hnd Hmem].
  repeat split.
  - unfold resolveInboxes, bind. rewrite Hassert, resolve_all_run. reflexivity.
  - exact Hnd.
  - rewrite Hmem, elem_of_nil. intros [[]|Hin].
    apply list_elem_of_fmap in Hin as (id & Heq & Hid). eauto.
  - intros (id & Hid & Hpref). apply Hmem. right.
    apply list_elem_of_fmap. eauto.
  - intros a b s -> Hs Ha Hb. simpl.
    unfold preferred_inbox, present. rewrite Ha, Hb.
    destruct (String.eqb_spec s EmptyString) as [?|_]; [contradiction|].
    simpl. unfold Set_add. simpl.
    rewrite bool_decide_eq_true_2 by (apply list_elem_of_singleton; reflexivity).
    reflexivity.
Qed.

Lemma resolveInboxes_prefers_shared_and_dedups_witness :
  exists l,
    resolveInboxes Demo.env [Demo.alice; Demo.bob] Demo.world = (Return l, Demo.world)
    /\ NoDup l
    /\ l = ["https://remote.example/inbox"%string].
Proof.
  destruct (resolveInboxes_prefers_shared_and_dedups Demo.env [Demo.alice; Demo.bob]
              Demo.world Demo.world) as (l & Hrun & Hnd & _ & Hshared).
  - reflexivity.
  - exists l. repeat split; [exact Hrun | exact Hnd |].
    apply (Hshared Demo.alice Demo.bob).
    + reflexivity.
    + discriminate.
    + vm_compute. reflexivity.
    + vm_compute. reflexivity.
Defined.

(** ** The keystore *)

Lemma String_of_Z_inj (a b : Z) : Js.String_of_Z a = Js.String_of_Z b -> a = b.
Proof.
  unfold Js.String_of_Z. intros Heq.
  assert (Hnn : forall z, Z.to_int z <> Decimal.Pos Decimal.Nil
                          /\ Z.to_int z <> Decimal.Neg Decimal.Nil).
  { intros [|p|p]; simpl; split; try discriminate;
      intros [= Hp]; exact (DecimalPos.Unsigned.to_uint_nonnil p Hp). }
  apply DecimalZ.to_int_inj.
  destruct (Hnn a) as [Ha1 Ha2]. destruct (Hnn b) as [Hb1 Hb2].
  pose proof (NilZero.isi _ Ha1 Ha2) as Hia.
  pose proof (NilZero.isi _ Hb1 Hb2) as Hib.
  rewrite Heq in Hia. congruence.
Qed.

Lemma str_app_inj_r (t s s' : string) : s +:+ t = s' +:+ t -> s = s'.
Proof.
  intros Heq.
  assert (Hlen : String.length s = String.length s').
  { apply (f_equal String.length) in Heq. rewrite !str_length_app in Heq. lia. }
  revert s' Heq Hlen.
  induction s as [|a s IH]; intros [|a' s'] Heq Hlen; try discriminate; [reflexivity|].
  rewrite !str_app_cons in Heq. injection Heq as -> Heq.
  f_equal. apply IH; [exact Heq | simpl in Hlen; lia].
Qed.

Lemma keys_key_inj (a b : Z) : keys_key a = keys_key b -> a = b.
Proof.
  unfold keys_key. intros Heq.
  apply String.app_inj in Heq. apply str_app_inj_r in Heq.
  exact (String_of_Z_inj a b Heq).
Qed.

Lemma getPublicKey_hit (E : Env) (uid : Z) (w : World) (kp : Keypair) :
  db w !! keys_key uid = Some kp -> getPublicKey E uid w = (Return (publicKey kp), w).
Proof.
  intros Hkp. unfold getPublicKey, try_catch, bind, db_getObject. rewrite Hkp. reflexivity.
Qed.

Lemma getPrivateKey_hit (E : Env) (uid : Z) (w : World) (kp : Keypair) :
  db w !! keys_key uid = Some kp -> getPrivateKey E uid w = (Return (privateKey kp), w).
Proof.
  intros Hkp. unfold getPrivateKey, try_catch, bind, db_getObject. rewrite Hkp. reflexivity.
Qed.

Lemma key_lookup_miss (E : Env) (uid : Z) (w : World) :
  db w !! keys_key uid = None ->
  let kp := generateKeyPair E (entropy w) in
  let w1 := set_entropy S (set_db (insert (keys_key uid) kp) w) in
  getPublicKey E uid w = (Return (publicKey kp), w1)
  /\ getPrivateKey E uid w = (Return (privateKey kp), w1).
Proof.
  intros Hmiss. unfold getPublicKey, getPrivateKey, try_catch, bind, db_getObject.
  rewrite Hmiss. split; reflexivity.
Qed.

(** X26. Key lookups that run one after another, each to its end,
    observe one stable pair: from any world, [getPublicKey] and
    [getPrivateKey] return the two halves of one pair and leave the same
    world, in which that pair is stored; looking either half up again
    returns the same value and changes nothing; and no pair that was
    already stored, for this or any other identity, is replaced. *)
Theorem key_material_is_stable (E : Env) (uid : Z) (w : World) :
  exists kp w1,
    getPublicKey E uid w = (Return (publicKey kp), w1)
    /\ getPrivateKey E uid w = (Return (privateKey kp), w1)
    /\ db w1 !! keys_key uid = Some kp
    /\ getPublicKey E uid w1 = (Return (publicKey kp), w1)
    /\ getPrivateKey E uid w1 = (Return (privateKey kp), w1)
    /\ (forall uid' kp0, db w !! keys_key uid' = Some kp0 ->
                         db w1 !! keys_key uid' = Some kp0).
Proof.
  destruct (db w !! keys_key uid) as [kp|] eqn:Hdb.
  - exists kp, w.
    rewrite (getPublicKey_hit E uid w kp Hdb), (getPrivateKey_hit E uid w kp Hdb).
    repeat split; auto.
  - destruct (key_lookup_miss E uid w Hdb) as [Hpub Hpriv]. cbv zeta in Hpub, Hpriv.
    set (kp := generateKeyPair E (entropy w)) in *.
    set (w1 := set_entropy S (set_db (insert (keys_key uid) kp) w)) in *.
    assert (Hstored : db w1 !! keys_key uid = Some kp) by apply lookup_insert_eq.
    exists kp, w1. repeat split; auto.
    + exact (getPublicKey_hit E uid w1 kp Hstored).
    + exact (getPrivateKey_hit E uid w1 kp Hstored).
    + intros uid' kp0 Hold. simpl.
      rewrite lookup_insert_ne; [exact Hold|].
      intros Heq. apply keys_key_inj in Heq. subst uid'. congruence.
Qed.


(** ** Splitting and joining *)

Example split_on_comma :
  Js.split "," "a,b,,c" = ["a"; "b"; EmptyString; "c"]%string.
Proof. reflexivity. Qed.

Example split_on_two_characters :
  Js.split "=>" "k=>v=>=>" = ["k"; "v"; EmptyString; EmptyString]%string.
Proof. reflexivity. Qed.

Example split_without_separator :
  Js.split " " EmptyString = [EmptyString] /\ Js.split EmptyString "ab" = ["a"; "b"]%string.
Proof. split; reflexivity. Qed.

Example String_of_Z_samples :
  Js.String_of_Z 200 = "200"%string /\ Js.String_of_Z (-1) = "-1"%string
  /\ Js.String_of_Z 0 = "0"%string.
Proof. repeat split; reflexivity. Qed.

Example toLowerCase_method : Js.toLowerCase "POST" = "post"%string.
Proof. reflexivity. Qed.

(** Base64 padding survives the split on [eq_quote] and the re-join. *)
Example parse_padded_signature :
  parse_signature (signature_value "https://a.example/actor#key" "(request-target) host" "c2ln==")
  !! "signature"%string = Some "c2ln=="%string.
Proof. vm_compute. reflexivity. Qed.

Lemma has_char_app (c : ascii) (s t : string) :
  Js.has_char c (s +:+ t) = Js.has_char c s || Js.has_char c t.
Proof.
  induction s as [|a s IH]; [reflexivity|].
  rewrite str_app_cons. simpl. rewrite IH. apply orb_assoc.
Qed.

Lemma prefix_app (p rest : string) : String.prefix p (p +:+ rest) = true.
Proof.
  induction p as [|a p IH]; [destruct rest; reflexivity|].
  rewrite str_app_cons. simpl. destruct (ascii_dec a a); [exact IH | contradiction].
Qed.

Lemma prefix_split (p s : string) :
  String.prefix p s = true -> exists rest, s = p +:+ rest.
Proof.
  revert s. induction p as [|a p IH]; intros s Hp.
  - exists s. reflexivity.
  - destruct s as [|b s]; simpl in Hp; [discriminate|].
    destruct (ascii_dec a b) as [->|]; [|discriminate].
    destruct (IH s Hp) as [rest ->]. exists rest. reflexivity.
Qed.

Lemma prefix_head_ne (c a : ascii) (p s : string) :
  Ascii.eqb a c = false -> String.prefix (String c p) (String a s) = false.
Proof.
  intros Hne. simpl. destruct (ascii_dec c a) as [->|]; [|reflexivity].
  rewrite Ascii.eqb_refl in Hne. discriminate.
Qed.

(** Consuming the rest of a matched separator. *)
Lemma split_aux_skip (sep p rest : string) :
  Js.split_aux sep (String.length p) (p +:+ rest) = Js.split_aux sep 0 rest.
Proof.
  induction p as [|a p IH]; [reflexivity|].
  rewrite str_app_cons. simpl. exact IH.
Qed.

Lemma split_aux_at_sep (c : ascii) (sep' rest : string) :
  Js.split_aux (String c sep') 0 (String c sep' +:+ rest)
  = EmptyString :: Js.split_aux (String c sep') 0 rest.
Proof.
  rewrite str_app_cons.
  change (Js.split_aux (String c sep') 0 (String c (sep' +:+ rest)))
    with (if String.prefix (String c sep') (String c (sep' +:+ rest))
          then EmptyString
               :: Js.split_aux (String c sep') (String.length (String c sep') - 1)
                    (sep' +:+ rest)
          else Js.cons_head c (Js.split_aux (String c sep') 0 (sep' +:+ rest))).
  rewrite <- str_app_cons, prefix_app.
  replace (String.length (String c sep') - 1)%nat with (String.length sep')
    by (simpl; lia).
  rewrite split_aux_skip. reflexivity.
Qed.

(** A piece free of the separator's first character ends at the next
    separator. *)
Lemma split_aux_piece (c : ascii) (sep' a rest : string) :
  Js.has_char c a = false ->
  Js.split_aux (String c sep') 0 (a +:+ String c sep' +:+ rest)
  = a :: Js.split_aux (String c sep') 0 rest.
Proof.
  induction a as [|x a IH]; intros Hfree.
  - apply split_aux_at_sep.
  - simpl in Hfree. apply orb_false_iff in Hfree as [Hx Hfree].
    rewrite str_app_cons.
    change (Js.split_aux (String c sep') 0 (String x (a +:+ String c sep' +:+ rest)))
      with (if String.prefix (String c sep') (String x (a +:+ String c sep' +:+ rest))
            then EmptyString
                 :: Js.split_aux (String c sep') (String.length (String c sep') - 1)
                      (a +:+ String c sep' +:+ rest)
            else Js.cons_head x
                   (Js.split_aux (String c sep') 0 (a +:+ String c sep' +:+ rest))).
    rewrite (prefix_head_ne c x _ _ Hx), (IH Hfree). reflexivity.
Qed.

Lemma split_aux_last (c : ascii) (sep' a : string) :
  Js.has_char c a = false -> Js.split_aux (String c sep') 0 a = [a].
Proof.
  induction a as [|x a IH]; intros Hfree; [reflexivity|].
  simpl in Hfree. apply orb_false_iff in Hfree as [Hx Hfree].
  change (Js.split_aux (String c sep') 0 (String x a))
    with (if String.prefix (String c sep') (String x a)
          then EmptyString
               :: Js.split_aux (String c sep') (String.length (String c sep') - 1) a
          else Js.cons_head x (Js.split_aux (String c sep') 0 a)).
  rewrite (prefix_head_ne c x _ _ Hx), (IH Hfree). reflexivity.
Qed.

Lemma split_aux_nonempty (sep : string) (s : string) :
  forall k, Js.split_aux sep k s <> [].
Proof.
  induction s as [|a s IH]; intros k; [done|].
  destruct k as [|k]; [|apply IH].
  change (Js.split_aux sep 0 (String a s))
    with (if String.prefix sep (String a s)
          then EmptyString :: Js.split_aux sep (String.length sep - 1) s
          else Js.cons_head a (Js.split_aux sep 0 s)).
  destruct (String.prefix sep (String a s)); [done|].
  destruct (Js.split_aux sep 0 s); done.
Qed.

Lemma join_cons_head (sep : string) (a : ascii) (l : list string) :
  l <> [] -> Js.join sep (Js.cons_head a l) = String a (Js.join sep l).
Proof.
  destruct l as [|x [|y l]]; intros Hl; [contradiction | reflexivity | reflexivity].
Qed.

(** [s.split(sep).join(sep)] gives [s] back. *)
Lemma join_split_aux (c : ascii) (sep' : string) (s : string) :
  Js.join (String c sep') (Js.split_aux (String c sep') 0 s) = s.
Proof.
  remember (String.length s) as n eqn:Hn. revert s Hn.
  induction n as [n IH] using lt_wf_ind. intros s Hn.
  destruct s as [|a s]; [reflexivity|].
  change (Js.split_aux (String c sep') 0 (String a s))
    with (if String.prefix (String c sep') (String a s)
          then EmptyString
               :: Js.split_aux (String c sep') (String.length (String c sep') - 1) s
          else Js.cons_head a (Js.split_aux (String c sep') 0 s)).
  destruct (String.prefix (String c sep') (String a s)) eqn:Hp.
  - apply prefix_split in Hp as [rest Hrest].
    rewrite str_app_cons in Hrest. injection Hrest as -> ->.
    replace (String.length (String c sep') - 1)%nat with (String.length sep')
      by (simpl; lia).
    rewrite split_aux_skip.
    pose proof (split_aux_nonempty (String c sep') rest 0) as Hne.
    destruct (Js.split_aux (String c sep') 0 rest) as [|x l] eqn:Hsplit; [contradiction|].
    change (Js.join (String c sep') (EmptyString :: x :: l))
      with (String c sep' +:+ Js.join (String c sep') (x :: l)).
    rewrite <- Hsplit, (IH (String.length rest)); [reflexivity | | reflexivity].
    subst n. simpl. rewrite str_length_app. lia.
  - rewrite join_cons_head by apply split_aux_nonempty.
    rewrite (IH (String.length s)); [reflexivity | subst n; simpl; lia | reflexivity].
Qed.

Lemma slice_0_m1_snoc (v : string) (c : ascii) : Js.slice_0_m1 (v +:+ Js.str1 c) = v.
Proof.
  induction v as [|a v IH]; [reflexivity|].
  rewrite str_app_cons.
  change (Js.slice_0_m1 (String a (v +:+ Js.str1 c)))
    with (match v +:+ Js.str1 c with
          | EmptyString => EmptyString
          | String _ _ => String a (Js.slice_0_m1 (v +:+ Js.str1 c))
          end).
  rewrite IH. destruct v; reflexivity.
Qed.

(** ** Parsing the signature header *)

Lemma parse_field_named (memo : gmap string string) (name v : string) :
  Js.has_char "=" name = false ->
  parse_field memo (name +:+ eq_quote +:+ v +:+ Js.str1 Js.dquote) = <[name := v]> memo.
Proof.
  intros Hname. unfold parse_field.
  change eq_quote with (String "="%char (Js.str1 Js.dquote)).
  unfold Js.split.
  rewrite (split_aux_piece "=" (Js.str1 Js.dquote) name _ Hname).
  cbn [hd tl]. rewrite join_split_aux, slice_0_m1_snoc. reflexivity.
Qed.

Lemma parse_signature_value (K H S : string) :
  Js.has_char "," K = false -> Js.has_char "," H = false -> Js.has_char "," S = false ->
  parse_signature (signature_value K H S)
  = <["signature"%string := S]> (<["headers"%string := H]> (<["keyId"%string := K]> ∅)).
Proof.
  intros HK HH HS.
  set (field name v := name +:+ eq_quote +:+ v +:+ Js.str1 Js.dquote).
  assert (Hfree : forall name v, Js.has_char "," name = false -> Js.has_char "," v = false ->
                                 Js.has_char "," (field name v) = false).
  { intros name v Hn Hv. unfold field. rewrite !has_char_app, Hn, Hv. reflexivity. }
  assert (Hshape : signature_value K H S
                   = field "keyId" K +:+ String "," EmptyString
                     +:+ field "headers" H +:+ String "," EmptyString
                     +:+ field "signature" S).
  { unfold signature_value, field. rewrite !str_app_assoc. reflexivity. }
  unfold parse_signature, Js.split. rewrite Hshape.
  rewrite (split_aux_piece "," EmptyString) by (apply Hfree; [reflexivity | exact HK]).
  rewrite (split_aux_piece "," EmptyString) by (apply Hfree; [reflexivity | exact HH]).
  rewrite (split_aux_last "," EmptyString) by (apply Hfree; [reflexivity | exact HS]).
  cbn [fold_left]. unfold field.
  rewrite !parse_field_named by reflexivity. reflexivity.
Qed.

Lemma uint_no_comma (d : Decimal.uint) :
  Js.has_char "," (NilEmpty.string_of_uint d) = false.
Proof. induction d; simpl; auto. Qed.

Lemma String_of_Z_no_comma (z : Z) : Js.has_char "," (Js.String_of_Z z) = false.
Proof.
  assert (Hnz : forall d, Js.has_char "," (NilZero.string_of_uint d) = false).
  { intros d. destruct d; try reflexivity; apply uint_no_comma. }
  unfold Js.String_of_Z. destruct z; simpl; auto.
Qed.

Lemma sign_keyId_no_comma (E : Env) (uid : Z) :
  Js.has_char "," (nconf_url E) = false -> Js.has_char "," (sign_keyId E uid) = false.
Proof.
  intros Hurl. unfold sign_keyId. rewrite !has_char_app, Hurl.
  destruct (0 <? uid); [|reflexivity].
  rewrite has_char_app, String_of_Z_no_comma. reflexivity.
Qed.

Lemma sign_headers_no_comma (payload : JsVal) :
  Js.has_char "," (sign_headers payload) = false.
Proof. unfold sign_headers. destruct (truthy payload); reflexivity. Qed.

(** ** Re-constructing the signed string *)

Lemma rebuild_step_target (req : Request) (memo : list string) :
  rebuild_step req memo "(request-target)"
  = memo ++ ["(request-target): " +:+ Js.toLowerCase (method req) +:+ " "
             +:+ baseUrl req +:+ path req].
Proof. reflexivity. Qed.

Lemma rebuild_step_header (req : Request) (memo : list string) (cur v : string) :
  String.eqb cur "(request-target)" = false ->
  req_headers req !! cur = Some v ->
  rebuild_step req memo cur = memo ++ [cur +:+ ": " +:+ v].
Proof. intros Hcur Hv. unfold rebuild_step. rewrite Hcur, Hv. reflexivity. Qed.

Lemma rebuild_matches_sign (E : Env) (req : Request) (host pathname now : string)
      (payload : JsVal) :
  Js.toLowerCase (method req) = sign_method payload ->
  baseUrl req +:+ path req = pathname ->
  req_headers req !! "host"%string = Some host ->
  req_headers req !! "date"%string = Some now ->
  (forall d, sign_digest E payload = Some d -> req_headers req !! "digest"%string = Some d) ->
  rebuild_signed_string req (sign_headers payload) = sign_string E host pathname now payload.
Proof.
  intros Hm Hp Hhost Hdate Hdigest.
  unfold rebuild_signed_string, sign_string, sign_headers.
  unfold sign_digest in *. destruct (truthy payload).
  - specialize (Hdigest _ eq_refl).
    replace (Js.split " " ("(request-target) host date" +:+ " digest"))
      with ["(request-target)"; "host"; "date"; "digest"]%string by reflexivity.
    cbn [fold_left].
    rewrite rebuild_step_target.
    rewrite (rebuild_step_header req _ "host" host eq_refl Hhost).
    rewrite (rebuild_step_header req _ "date" now eq_refl Hdate).
    rewrite (rebuild_step_header req _ "digest" _ eq_refl Hdigest).
    rewrite Hm, Hp. cbn [app Js.join]. rewrite !str_app_assoc. reflexivity.
  - replace (Js.split " " ("(request-target) host date" +:+ EmptyString))
      with ["(request-target)"; "host"; "date"]%string by reflexivity.
    cbn [fold_left].
    rewrite rebuild_step_target.
    rewrite (rebuild_step_header req _ "host" host eq_refl Hhost).
    rewrite (rebuild_step_header req _ "date" now eq_refl Hdate).
    rewrite Hm, Hp. cbn [app Js.join]. rewrite !str_app_assoc, str_app_nil_r. reflexivity.
Qed.

(** ** Round trip *)

Lemma sign_inv (E : Env) (uid : Z) (url : string) (payload : JsVal) (w w1 : World)
      (h : SignatureHeader) :
  sign E uid url payload w = (Return h, w1) ->
  exists host pathname key sig,
    0 <= uid
    /\ parse_URL E url = Some (host, pathname)
    /\ getPrivateKey E uid w = (Return key, w1)
    /\ rsa_sign E key (sign_string E host pathname (toUTCString E (clock w)) payload)
       = Return sig
    /\ h = {| date := toUTCString E (clock w);
              digest := sign_digest E payload;
              signature := signature_value (sign_keyId E uid) (sign_headers payload) sig |}.
Proof.
  intros Hsign.
  assert (Huid : 0 <= uid).
  { destruct (Z.ltb_spec uid 0) as [Hneg|]; [|assumption].
    unfold sign in Hsign. apply Z.ltb_lt in Hneg. rewrite Hneg in Hsign. discriminate. }
  destruct (parse_URL E url) as [[host pathname]|] eqn:Hurl.
  - destruct (getPrivateKey_returns E uid w) as (key & w' & Hkey & _).
    rewrite (sign_run E uid url payload w host pathname key w' Huid Hurl Hkey) in Hsign.
    destruct (rsa_sign E key _) as [sig|e] eqn:Hsig; [|discriminate].
    injection Hsign as <- <-.
    exists host, pathname, key, sig. auto.
  - unfold sign in Hsign. rewrite Hurl in Hsign.
    destruct (uid <? 0); discriminate.
Qed.

(** C1, as the code has it. A header produced by [sign], carried by a
    request with the same method, path, host and date, the signature
    header itself and (when there is one) the digest header, verifies as
    [true] once [fetchPublicKey] resolves, for its keyId, the matching
    public key; the instance URL and the signature text must be free of commas,
    on which the header is split.  [verify] never reads the request body:
    the verdict stays [true] for any other payload under the same
    headers. *)
Theorem sign_verify_roundtrip (E : Env) (uid : Z) (url : string) (payload : JsVal)
        (w w1 w2 : World) (h : SignatureHeader) (host pathname key : string)
        (req : Request) (pk pem : JsVal) :
  sign E uid url payload w = (Return h, w1) ->
  parse_URL E url = Some (host, pathname) ->
  fst (getPrivateKey E uid w) = Return key ->
  Js.has_char "," (nconf_url E) = false ->
  (forall m s, rsa_sign E key m = Return s -> Js.has_char "," s = false) ->
  Js.toLowerCase (method req) = (if truthy payload then "post" else "get")%string ->
  baseUrl req +:+ path req = pathname ->
  req_headers req !! "host"%string = Some host ->
  req_headers req !! "date"%string = Some (date h) ->
  req_headers req !! "signature"%string = Some (signature h) ->
  (forall d, digest h = Some d -> req_headers req !! "digest"%string = Some d) ->
  fst (fetchPublicKey E (JStr (sign_keyId E uid)) w2) = Return pk ->
  get_prop pk "publicKeyPem" = Return pem ->
  (forall m s, rsa_sign E key m = Return s -> rsa_verify E pem m (JStr s) = Return true) ->
  fst (verify E req w2) = Return true
  /\ forall b, fst (verify E (with_body req b) w2) = Return true.
Proof.
  intros Hsign Hurl Hkey Hnconf Hb64 Hmethod Hpath Hhost Hdate Hsigv Hdig
         Hfetch Hpem Hmatch.
  destruct (sign_inv E uid url payload w w1 h Hsign)
    as (host' & pathname' & key' & sig & Huid & Hurl' & Hkey' & Hsig & ->).
  rewrite Hurl in Hurl'. injection Hurl' as <- <-.
  rewrite Hkey' in Hkey. injection Hkey as ->.
  cbn [date digest signature] in Hdate, Hsigv, Hdig.
  pose proof (parse_signature_value (sign_keyId E uid) (sign_headers payload) sig
                (sign_keyId_no_comma E uid Hnconf) (sign_headers_no_comma payload)
                (Hb64 _ _ Hsig)) as Hparse.
  assert (Hverify : fst (verify E req w2) = Return true).
  { unfold verify. rewrite Hsigv, Hparse.
    rewrite lookup_insert_ne by done. rewrite lookup_insert_eq.
    rewrite lookup_insert_eq.
    rewrite !lookup_insert_ne by done. rewrite lookup_insert_eq.
    rewrite (rebuild_matches_sign E req host pathname (toUTCString E (clock w)) payload
               Hmethod Hpath Hhost Hdate Hdig).
    unfold try_catch, bind. cbn [opt_js].
    destruct (fetchPublicKey E (JStr (sign_keyId E uid)) w2) as [res w3].
    simpl in Hfetch. subst res.
    unfold lift. rewrite Hpem. rewrite (Hmatch _ _ Hsig). reflexivity. }
  split; [exact Hverify|]. intros b. exact Hverify.
Qed.

Lemma sign_verify_roundtrip_witness :
  let req := Demo.signed_request (Demo.signed (JObj Demo.follow)) "POST" "/inbox"
               (JObj Demo.follow) in
  fst (verify Demo.env req Demo.world) = Return true
  /\ forall b, fst (verify Demo.env (with_body req b) Demo.world) = Return true.
Proof.
  intros req.
  apply (sign_verify_roundtrip Demo.env 1 Demo.inbox_url (JObj Demo.follow)
           Demo.world (snd (sign Demo.env 1 Demo.inbox_url (JObj Demo.follow) Demo.world))
           Demo.world (Demo.signed (JObj Demo.follow)) "remote.example" "/inbox" "key-0"
           req (JObj [("publicKeyPem"%string, JStr "key-0")]) (JStr "key-0")).
  - vm_compute. reflexivity.
  - vm_compute. reflexivity.
  - vm_compute. reflexivity.
  - reflexivity.
  - intros m s [= <-]. apply String_of_Z_no_comma.
  - reflexivity.
  - reflexivity.
  - vm_compute. reflexivity.
  - vm_compute. reflexivity.
  - vm_compute. reflexivity.
  - intros d Hd. vm_compute in Hd. injection Hd as <-. vm_compute. reflexivity.
  - vm_compute. reflexivity.
  - reflexivity.
  - intros m s [= <-]. simpl. rewrite String.eqb_refl. reflexivity.
Defined.

(** The request carries the headers signed for [Demo.follow], digest
    included, but the body [Demo.tampered], whose serialized form differs
    in one byte: [verify] still answers [true]. *)
Lemma tampered_payload_still_verifies :
  is_Some (digest (Demo.signed (JObj Demo.follow)))
  /\ JSON_stringify Demo.env (JObj Demo.tampered)
     <> JSON_stringify Demo.env (JObj Demo.follow)
  /\ fst (verify Demo.env
            (Demo.signed_request (Demo.signed (JObj Demo.follow)) "POST" "/inbox"
               (JObj Demo.tampered))
            Demo.world) = Return true.
Proof.
  split; [|split].
  - vm_compute. eauto.
  - vm_compute. discriminate.
  - vm_compute. reflexivity.
Qed.

(** * Further properties of the module *)

(** ** The response cache behind [get] *)

Lemma sign_cache (E : Env) (uid : Z) (url : string) (payload : JsVal) (w : World) :
  requestCache (snd (sign E uid url payload w)) = requestCache w.
Proof.
  unfold sign. destruct (uid <? 0); [reflexivity|].
  destruct (parse_URL E url) as [[host pathname]|]; [|reflexivity].
  unfold bind, gets, lift, ret.
  destruct (getPrivateKey_returns E uid w) as (key & w' & -> & _ & Hc).
  destruct (rsa_sign E key _); exact Hc.
Qed.

Lemma get_hit (E : Env) (uid : Z) (uri : string) (w : World) (b : JsVal) :
  requestCache w !! Js.join ";" [Js.String_of_Z uid; uri] = Some b ->
  get E uid uri w = (Return b, w).
Proof. intros Hhit. unfold get, bind, gets. rewrite Hhit. reflexivity. Qed.

(** [get] on a cache miss, step by step. *)
Lemma get_miss_run (E : Env) (uid : Z) (uri : string) (w : World) :
  requestCache w !! Js.join ";" [Js.String_of_Z uid; uri] = None ->
  get E uid uri w
  = match (if 0 <=? uid
           then do h <- sign E uid uri JUndefined ;; ret (sig_obj h)
           else ret []) w with
    | (Throw e, w1) => (Throw e, w1)
    | (Return hs, w1) =>
        let call := HttpGet (JStr uri)
                      (obj_set "Accept" (JStr accept_type) (obj_spread [] hs)) in
        let w2 := set_net (fun l => l ++ [(call, http E (net w1) call)]) w1 in
        match http E (net w1) call with
        | Throw e => (Throw e, w2)
        | Return r =>
            if Js.startsWith (Js.String_of_Z (statusCode r)) "2"
            then (Return (body r),
                  set_requestCache
                    (insert (Js.join ";" [Js.String_of_Z uid; uri]) (body r)) w2)
            else (match hasOwnProperty (body r) "error" with
                  | Return _ => Throw get_failed
                  | Throw e => Throw e
                  end, w2)
        end
    end.
Proof.
  intros Hmiss. unfold get. unfold bind at 1. unfold gets. rewrite Hmiss.
  unfold bind at 1.
  match goal with
  | |- context [(if 0 <=? uid then ?a else ?b) w] =>
      destruct ((if 0 <=? uid then a else b) w) as [[hs|e] w1]; [|reflexivity]
  end.
  unfold bind at 1. rewrite request_run. cbv zeta.
  destruct (http E (net w1) _) as [r|e]; [|reflexivity].
  destruct (Js.startsWith (Js.String_of_Z (statusCode r)) "2"); simpl.
  - reflexivity.
  - unfold bind, lift, throw. destruct (hasOwnProperty (body r) "error"); reflexivity.
Qed.

Lemma get_headers_effects (E : Env) (uid : Z) (uri : string) (w : World) :
  let hc := (if 0 <=? uid
             then do h <- sign E uid uri JUndefined ;; ret (sig_obj h)
             else ret []) w in
  requestCache (snd hc) = requestCache w /\ net (snd hc) = net w.
Proof.
  cbv zeta. destruct (0 <=? uid); [|split; reflexivity].
  unfold bind, ret.
  pose proof (sign_cache E uid uri JUndefined w) as Hc.
  pose proof (sign_net E uid uri JUndefined w) as Hn.
  destruct (sign E uid uri JUndefined w) as [[h|e] w']; simpl in *; auto.
Qed.

(** The two ways a [get] that misses the cache can end. *)
Lemma get_miss_cases (E : Env) (uid : Z) (uri : string) (w : World) :
  requestCache w !! Js.join ";" [Js.String_of_Z uid; uri] = None ->
  (exists e w1, get E uid uri w = (Throw e, w1)
                /\ requestCache w1 = requestCache w)
  \/ (exists hs r w1,
        get E uid uri w
        = (Return (body r),
           set_requestCache (insert (Js.join ";" [Js.String_of_Z uid; uri]) (body r)) w1)
        /\ requestCache w1 = requestCache w
        /\ net w1 = net w ++ [(HttpGet (JStr uri) hs, Return r)]
        /\ Js.startsWith (Js.String_of_Z (statusCode r)) "2" = true).
Proof.
  intros Hmiss. rewrite (get_miss_run E uid uri w Hmiss).
  destruct (get_headers_effects E uid uri w) as [Hc Hn]. cbv zeta in Hc, Hn.
  match goal with
  | |- context [(if 0 <=? uid then ?a else ?b) w] =>
      destruct ((if 0 <=? uid then a else b) w) as [[hs|e] w1]; simpl in Hc, Hn;
        [|left; eauto]
  end.
  cbv zeta.
  destruct (http E (net w1) _) as [r|e] eqn:Hr.
  - destruct (Js.startsWith (Js.String_of_Z (statusCode r)) "2") eqn:H2.
    + right. eexists _, r, _. split; [reflexivity|].
      simpl. rewrite Hn. auto.
    + left. destruct (hasOwnProperty (body r) "error");
        eexists _, _; (split; [reflexivity | exact Hc]).
  - left. eexists _, _. split; [reflexivity | exact Hc].
Qed.

(** X1. What [get] returned once it returns again: a second call for the
    same identity and URI answers the same body from the cache and leaves
    the world, the network trace included, as it is. *)
Theorem get_repeats_from_cache (E : Env) (uid : Z) (uri : string) (w w1 : World)
        (b : JsVal) :
  get E uid uri w = (Return b, w1) ->
  get E uid uri w1 = (Return b, w1).
Proof.
  intros Hget.
  destruct (requestCache w !! Js.join ";" [Js.String_of_Z uid; uri]) as [c|] eqn:Hc.
  - rewrite (get_hit E uid uri w c Hc) in Hget. injection Hget as -> ->.
    exact (get_hit E uid uri w1 b Hc).
  - destruct (get_miss_cases E uid uri w Hc)
      as [(e & w' & Hthrow & _) | (hs & r & w' & Hret & _)].
    + rewrite Hthrow in Hget. discriminate.
    + rewrite Hret in Hget. injection Hget as <- <-.
      apply get_hit. simpl. apply lookup_insert_eq.
Qed.

Lemma get_repeats_from_cache_witness :
  exists b w1,
    get Demo.env (-1) Demo.alice Demo.world = (Return b, w1)
    /\ length (net w1) = 1%nat
    /\ get Demo.env (-1) Demo.alice w1 = (Return b, w1).
Proof.
  destruct (get Demo.env (-1) Demo.alice Demo.world) as [[b|e] w1] eqn:Hget;
    [|vm_compute in Hget; discriminate].
  exists b, w1. repeat split.
  - vm_compute in Hget. injection Hget as _ <-. reflexivity.
  - apply (get_repeats_from_cache Demo.env (-1) Demo.alice Demo.world w1 b Hget).
Defined.

(** X2. A [get] that throws, for whatever reason (signing, transport, a
    non-2xx answer), leaves the response cache exactly as it was. *)
Theorem get_failure_is_not_cached (E : Env) (uid : Z) (uri : string) (w : World) (e : Err) :
  fst (get E uid uri w) = Throw e ->
  requestCache (snd (get E uid uri w)) = requestCache w.
Proof.
  intros Hthrow.
  destruct (requestCache w !! Js.join ";" [Js.String_of_Z uid; uri]) as [c|] eqn:Hc.
  - rewrite (get_hit E uid uri w c Hc). reflexivity.
  - destruct (get_miss_cases E uid uri w Hc)
      as [(e' & w' & Hget & Hcache) | (hs & r & w' & Hget & _)].
    + rewrite Hget. exact Hcache.
    + rewrite Hget in Hthrow. discriminate.
Qed.

Lemma get_failure_is_not_cached_witness :
  fst (get Demo.env 1 "https://remote.example/users/nobody" Demo.world) = Throw get_failed
  /\ requestCache (snd (get Demo.env 1 "https://remote.example/users/nobody" Demo.world))
     = requestCache Demo.world.
Proof.
  assert (Hthrow : fst (get Demo.env 1 "https://remote.example/users/nobody" Demo.world)
                   = Throw get_failed) by (vm_compute; reflexivity).
  split; [exact Hthrow|].
  exact (get_failure_is_not_cached Demo.env 1 "https://remote.example/users/nobody"
           Demo.world get_failed Hthrow).
Defined.



Lemma String_of_Z_no_semicolon (z : Z) : Js.has_char ";" (Js.String_of_Z z) = false.
Proof.
  assert (Hu : forall d, Js.has_char ";" (NilEmpty.string_of_uint d) = false)
    by (induction d; simpl; auto).
  assert (Hnz : forall d, Js.has_char ";" (NilZero.string_of_uint d) = false).
  { intros d. destruct d; try reflexivity; apply Hu. }
  unfold Js.String_of_Z. destruct z; simpl; auto.
Qed.

(** Two strings joined by a character that the first one lacks can be
    told apart again. *)
Lemma join_pair_inj (c : ascii) (a b u u' : string) :
  Js.has_char c a = false -> Js.has_char c b = false ->
  a +:+ String c u = b +:+ String c u' -> a = b /\ u = u'.
Proof.
  revert b. induction a as [|x a IH]; intros [|y b] Ha Hb Heq.
  - injection Heq as ->. auto.
  - rewrite str_app_cons in Heq. injection Heq as <- _.
    simpl in Hb. rewrite Ascii.eqb_refl in Hb. discriminate.
  - rewrite str_app_cons in Heq. injection Heq as -> _.
    simpl in Ha. rewrite Ascii.eqb_refl in Ha. discriminate.
  - rewrite !str_app_cons in Heq. injection Heq as -> Heq.
    simpl in Ha, Hb. apply orb_false_iff in Ha as [_ Ha]. apply orb_false_iff in Hb as [_ Hb].
    destruct (IH b Ha Hb Heq) as [-> ->]. auto.
Qed.

Lemma cache_key_inj (uid uid' : Z) (uri uri' : string) :
  Js.join ";" [Js.String_of_Z uid; uri] = Js.join ";" [Js.String_of_Z uid'; uri'] ->
  uid = uid' /\ uri = uri'.
Proof.
  intros Heq.
  destruct (join_pair_inj ";" (Js.String_of_Z uid) (Js.String_of_Z uid') uri uri'
              (String_of_Z_no_semicolon uid) (String_of_Z_no_semicolon uid') Heq)
    as [Hu ->].
  split; [exact (String_of_Z_inj _ _ Hu) | reflexivity].
Qed.

(** X4. Cache entries are private to the pair of requesting identity
    and URI: whatever a [get] for one pair does, the entry of every other
    pair is as it was before, so a body fetched as one identity is never
    served to another. *)
Theorem get_cache_entry_is_per_identity_and_uri (E : Env) (uid uid' : Z)
        (uri uri' : string) (w : World) :
  (uid', uri') <> (uid, uri) ->
  requestCache (snd (get E uid uri w)) !! Js.join ";" [Js.String_of_Z uid'; uri']
  = requestCache w !! Js.join ";" [Js.String_of_Z uid'; uri'].
Proof.
  intros Hne.
  destruct (requestCache w !! Js.join ";" [Js.String_of_Z uid; uri]) as [c|] eqn:Hc.
  - rewrite (get_hit E uid uri w c Hc). reflexivity.
  - destruct (get_miss_cases E uid uri w Hc)
      as [(e & w' & Hget & Hcache) | (hs & r & w' & Hget & Hcache & _)];
      rewrite Hget; simpl.
    + rewrite Hcache. reflexivity.
    + rewrite lookup_insert_ne; [now rewrite Hcache|].
      intros Heq. apply cache_key_inj in Heq as [-> ->]. contradiction.
Qed.

Lemma get_cache_entry_is_per_identity_and_uri_witness :
  requestCache (snd (get Demo.env 1 Demo.alice Demo.world))
    !! Js.join ";" [Js.String_of_Z 2; Demo.alice] = None.
Proof.
  rewrite (get_cache_entry_is_per_identity_and_uri Demo.env 1 2 Demo.alice Demo.alice
             Demo.world).
  - reflexivity.
  - intros Heq. discriminate Heq.
Defined.

(** ** Sending *)

Lemma deliver_invalid_uid (E : Env) (uid : Z) (payload : Obj) (uri : string) (w : World) :
  uid < 0 -> deliver E uid payload uri w = (Throw (Error "[[error:invalid-uid]]"), w).
Proof.
  intros Huid. unfold deliver, bind, sign.
  destruct (Z.ltb_spec uid 0); [reflexivity | lia].
Qed.

Lemma deliveries_invalid_uid (E : Env) (uid : Z) (payload : Obj) (inboxes : list string)
      (w : World) :
  uid < 0 ->
  Promise_all (map (deliver E uid payload) inboxes) w
  = (match inboxes with
     | [] => Return []
     | _ :: _ => Throw (Error "[[error:invalid-uid]]")
     end, w).
Proof.
  intros Huid. induction inboxes as [|uri inboxes IH]; [reflexivity|].
  cbn [map Promise_all]. rewrite (deliver_invalid_uid E uid payload uri w Huid), IH.
  reflexivity.
Qed.

(** X5. With a negative identity [send] never posts anything: every
    delivery stops at the identity check.  It rejects with the
    invalid-uid error as soon as one inbox was resolved, and resolves
    normally when none was. *)
Theorem send_with_invalid_identity_posts_nothing (E : Env) (uid : Z) (targets : Targets)
        (payload : Obj) (w w1 : World) (inboxes : list string) :
  uid < 0 ->
  resolveInboxes E (normalize_targets targets) w = (Return inboxes, w1) ->
  send E uid targets payload w
  = (match inboxes with
     | [] => Return tt
     | _ :: _ => Throw (Error "[[error:invalid-uid]]")
     end, w1).
Proof.
  intros Huid Hres. unfold send, bind. rewrite Hres.
  rewrite (deliveries_invalid_uid E uid _ inboxes w1 Huid).
  destruct inboxes; reflexivity.
Qed.

Lemma send_with_invalid_identity_posts_nothing_witness :
  send Demo.env (-1) (Many [Demo.alice; Demo.carol]) Demo.follow Demo.world
  = (Throw (Error "[[error:invalid-uid]]"), Demo.world)
  /\ send Demo.env (-1) (One "https://remote.example/users/unknown") Demo.follow Demo.world
     = (Return tt, Demo.world).
Proof.
  split.
  - apply (send_with_invalid_identity_posts_nothing Demo.env (-1)
             (Many [Demo.alice; Demo.carol]) Demo.follow Demo.world Demo.world
             ["https://remote.example/inbox"; "https://down.example/inbox"]%string);
      [lia | vm_compute; reflexivity].
  - apply (send_with_invalid_identity_posts_nothing Demo.env (-1)
             (One "https://remote.example/users/unknown") Demo.follow Demo.world
             Demo.world []); [lia | vm_compute; reflexivity].
Defined.

Lemma first_rejection_none (rs : list (Result unit)) :
  first_rejection rs = Return tt <-> Forall (fun r => exists u, r = Return u) rs.
Proof.
  induction rs as [|[u|e] rs IH]; simpl.
  - split; [constructor | reflexivity].
  - rewrite IH. split; intros H.
    + constructor; [eauto | exact H].
    + inversion H; assumption.
  - split; [discriminate|]. intros H. inversion H as [|? ? [u Hu] _]. discriminate.
Qed.

Lemma delivery_outcome_accepted (ev : NetEvent) :
  (forall r, ev.2 = Return r -> 100 <= statusCode r <= 999) ->
  (exists u, delivery_outcome ev = Return u)
  <-> exists r, ev.2 = Return r /\ 200 <= statusCode r <= 299.
Proof.
  intros Hdigits. unfold delivery_outcome.
  destruct (ev.2) as [r|e].
  - rewrite (startsWith_2_class _ (Hdigits r eq_refl)).
    destruct (Z.leb_spec 200 (statusCode r)), (Z.leb_spec (statusCode r) 299); simpl;
      split; try (intros [u Hu]; discriminate); try (intros (r' & [= <-] & ?); lia);
      eauto.
  - split; [intros [u Hu]; discriminate | intros (r & Hr & _); discriminate].
Qed.

(** X6. Under the conditions of a send that cannot fail before posting
    (valid identity, inbox URLs that parse, a signing primitive that does
    not fail), one POST per resolved inbox is made, and [send] resolves
    exactly when every one of them is answered with a 2xx status (answers
    being three-digit codes). *)
Theorem send_resolves_iff_all_accepted (E : Env) (uid : Z) (targets : Targets)
        (payload : Obj) (w w1 : World) (inboxes : list string) :
  0 <= uid ->
  (forall k m, exists s, rsa_sign E k m = Return s) ->
  resolveInboxes E (normalize_targets targets) w = (Return inboxes, w1) ->
  Forall (fun uri => is_Some (parse_URL E uri)) inboxes ->
  exists evs,
    net (snd (send E uid targets payload w)) = net w1 ++ evs
    /\ length evs = length inboxes
    /\ (Forall (fun ev : NetEvent => forall r, ev.2 = Return r -> 100 <= statusCode r <= 999)
          evs ->
        (fst (send E uid targets payload w) = Return tt
         <-> Forall (fun ev : NetEvent =>
                       exists r, ev.2 = Return r /\ 200 <= statusCode r <= 299) evs)).
Proof.
  intros Huid Htotal Hres Hparse.
  destruct (deliveries_all_issued E uid (envelope E uid payload) inboxes
              Huid Htotal Hparse w1) as (evs & Hnet & Hall & Hfirst).
  assert (Hsend : fst (send E uid targets payload w)
                  = first_rejection (map delivery_outcome evs)
                  /\ net (snd (send E uid targets payload w)) = net w1 ++ evs).
  { unfold send, bind. rewrite Hres.
    destruct (Promise_all _ w1) as [[rs|e] w2]; simpl in *; split; auto. }
  destruct Hsend as [Hfst Hsnd].
  exists evs. split; [exact Hsnd|]. split.
  - symmetry. exact (Forall2_length _ _ _ Hall).
  - intros Hdigits. rewrite Hfst, first_rejection_none, Forall_fmap.
    rewrite !Forall_forall. split; intros H ev Hin.
    + apply delivery_outcome_accepted; [|exact (H ev Hin)].
      rewrite Forall_forall in Hdigits. exact (Hdigits ev Hin).
    + apply delivery_outcome_accepted; [|exact (H ev Hin)].
      rewrite Forall_forall in Hdigits. exact (Hdigits ev Hin).
Qed.

Lemma send_resolves_iff_all_accepted_witness :
  fst (send Demo.env 1 (Many [Demo.alice; Demo.bob]) Demo.follow Demo.world) = Return tt
  /\ length (net (snd (send Demo.env 1 (Many [Demo.alice; Demo.bob]) Demo.follow
                         Demo.world))) = 1%nat.
Proof.
  destruct (send_resolves_iff_all_accepted Demo.env 1 (Many [Demo.alice; Demo.bob])
              Demo.follow Demo.world Demo.world ["https://remote.example/inbox"%string])
    as (evs & Hnet & Hlen & _).
  - lia.
  - intros k m. eexists. reflexivity.
  - vm_compute. reflexivity.
  - repeat constructor; eexists; vm_compute; reflexivity.
  - split; [vm_compute; reflexivity|].
    rewrite Hnet, length_app, Hlen. reflexivity.
Defined.

(** X7. Two recipients behind one shared inbox get a single delivery:
    [send] makes exactly one POST, to that shared inbox, carrying the
    envelope. *)
Theorem send_to_shared_inbox_posts_once (E : Env) (uid : Z) (a b s : string)
        (payload : Obj) (w w1 : World) :
  0 <= uid ->
  (forall k m, exists sg, rsa_sign E k m = Return sg) ->
  actors_assert E [a; b] w = (Return tt, w1) ->
  sharedInbox (lookup_fields w1 a) = Some s ->
  sharedInbox (lookup_fields w1 b) = Some s ->
  s <> EmptyString ->
  is_Some (parse_URL E s) ->
  exists hs r,
    net (snd (send E uid (Many [a; b]) payload w))
    = net w1 ++ [(HttpPost s hs (JObj (envelope E uid payload)), r)].
Proof.
  intros Huid Htotal Hassert Ha Hb Hs Hparse.
  assert (Hres : resolveInboxes E [a; b] w = (Return [s], w1)).
  { unfold resolveInboxes, bind. rewrite Hassert, resolve_all_run.
    unfold ret. do 2 f_equal. simpl.
    unfold preferred_inbox, present. rewrite Ha, Hb.
    destruct (String.eqb_spec s EmptyString) as [?|_]; [contradiction|].
    simpl. unfold Set_add. simpl.
    rewrite bool_decide_eq_true_2 by (apply list_elem_of_singleton; reflexivity).
    reflexivity. }
  assert (Hurls : Forall (fun uri => is_Some (parse_URL E uri)) [s])
    by (repeat constructor; exact Hparse).
  destruct (deliveries_all_issued E uid (envelope E uid payload) [s] Huid Htotal
              Hurls w1)
    as (evs & Hnet & Hall & _).
  apply Forall2_cons_inv_l in Hall as ([call r] & evs' & [hs Hpost] & Hnil & ->).
  apply Forall2_nil_inv_l in Hnil as ->.
  simpl in Hpost. subst call.
  exists hs, r. unfold send, bind. simpl normalize_targets. rewrite Hres.
  destruct (Promise_all _ w1) as [[rs|e] w2]; exact Hnet.
Qed.

Lemma send_to_shared_inbox_posts_once_witness :
  exists hs r,
    net (snd (send Demo.env 1 (Many [Demo.alice; Demo.bob]) Demo.follow Demo.world))
    = net Demo.world
      ++ [(HttpPost "https://remote.example/inbox" hs
             (JObj (envelope Demo.env 1 Demo.follow)), r)].
Proof.
  apply (send_to_shared_inbox_posts_once Demo.env 1 Demo.alice Demo.bob
           "https://remote.example/inbox" Demo.follow Demo.world Demo.world).
  - lia.
  - intros k m. eexists. reflexivity.
  - reflexivity.
  - vm_compute. reflexivity.
  - vm_compute. reflexivity.
  - discriminate.
  - eexists. vm_compute. reflexivity.
Defined.

(** ** Signing and the keystore *)

Lemma getPrivateKey_effects (E : Env) (uid : Z) (w : World) :
  let w1 := snd (getPrivateKey E uid w) in
  net w1 = net w /\ requestCache w1 = requestCache w /\ users w1 = users w
  /\ clock w1 = clock w
  /\ (forall k, k <> keys_key uid -> db w1 !! k = db w !! k)
  /\ (is_Some (db w !! keys_key uid) -> w1 = w)
  /\ exists kp, db w1 !! keys_key uid = Some kp
                /\ fst (getPrivateKey E uid w) = Return (privateKey kp).
Proof.
  cbv zeta. destruct (db w !! keys_key uid) as [kp|] eqn:Hdb.
  - rewrite (getPrivateKey_hit E uid w kp Hdb). simpl. repeat split; eauto.
  - destruct (key_lookup_miss E uid w Hdb) as [_ ->]. simpl. repeat split; auto.
    + intros k Hk. apply lookup_insert_ne. congruence.
    + intros [? ?]. discriminate.
    + eexists. split; [apply lookup_insert_eq | reflexivity].
Qed.

Lemma sign_world (E : Env) (uid : Z) (url : string) (payload : JsVal) (w : World) :
  snd (sign E uid url payload w) = w
  \/ snd (sign E uid url payload w) = snd (getPrivateKey E uid w).
Proof.
  unfold sign. destruct (uid <? 0); [left; reflexivity|].
  destruct (parse_URL E url) as [[host pathname]|]; [|left; reflexivity].
  right. unfold bind, gets, lift, ret.
  destruct (getPrivateKey E uid w) as [[key|e] w']; [|reflexivity].
  destruct (rsa_sign E key _); reflexivity.
Qed.

(** X8. The only trace [sign] leaves in the world is the lazily
    generated keypair of its identity: network trace, response cache,
    actor records and clock are untouched, the stored keys of every other
    identity are untouched, and when the identity already has keys the
    world does not change at all. *)
Theorem sign_only_generates_its_key (E : Env) (uid : Z) (url : string) (payload : JsVal)
        (w : World) :
  let w1 := snd (sign E uid url payload w) in
  net w1 = net w /\ requestCache w1 = requestCache w /\ users w1 = users w
  /\ clock w1 = clock w
  /\ (forall uid', uid' <> uid -> db w1 !! keys_key uid' = db w !! keys_key uid')
  /\ (is_Some (db w !! keys_key uid) -> w1 = w).
Proof.
  cbv zeta.
  destruct (getPrivateKey_effects E uid w) as (Hn & Hc & Hu & Hk & Hdb & Hsame & _).
  cbv zeta in *.
  destruct (sign_world E uid url payload w) as [-> | ->].
  - repeat split; auto.
  - repeat split; auto.
    intros uid' Hne. apply Hdb. intros Heq. apply keys_key_inj in Heq. contradiction.
Qed.

(** X9. A [sign] that runs from its call to its return with no other
    lookup of the same identity in between (the [sign] of [get], or the
    only delivery of a [send]) signs with the key the keystore publishes:
    after it returned normally the identity has a stored pair, the
    signature was made with its private half, and [getPublicKey] now
    answers its public half without changing anything. *)
Theorem sign_uses_the_stored_pair (E : Env) (uid : Z) (url : string) (payload : JsVal)
        (w w1 : World) (h : SignatureHeader) :
  sign E uid url payload w = (Return h, w1) ->
  exists kp host pathname sig,
    db w1 !! keys_key uid = Some kp
    /\ getPublicKey E uid w1 = (Return (publicKey kp), w1)
    /\ parse_URL E url = Some (host, pathname)
    /\ rsa_sign E (privateKey kp) (sign_string E host pathname (date h) payload) = Return sig
    /\ signature h = signature_value (sign_keyId E uid) (sign_headers payload) sig.
Proof.
  intros Hsign.
  destruct (sign_inv E uid url payload w w1 h Hsign)
    as (host & pathname & key & sig & Huid & Hurl & Hkey & Hsig & ->).
  destruct (getPrivateKey_effects E uid w) as (_ & _ & _ & _ & _ & _ & kp & Hdb & Hfst).
  rewrite Hkey in Hdb, Hfst. simpl in Hdb, Hfst. injection Hfst as ->.
  exists kp, host, pathname, sig. repeat split; auto.
  exact (getPublicKey_hit E uid w1 kp Hdb).
Qed.

Lemma sign_uses_the_stored_pair_witness :
  exists kp w1,
    db w1 !! keys_key 1 = Some kp
    /\ getPublicKey Demo.env 1 w1 = (Return (publicKey kp), w1)
    /\ publicKey kp = "key-0"%string.
Proof.
  destruct (sign Demo.env 1 Demo.inbox_url (JObj Demo.follow) Demo.world)
    as [[h|e] w1] eqn:Hsign; [|vm_compute in Hsign; discriminate].
  destruct (sign_uses_the_stored_pair Demo.env 1 Demo.inbox_url (JObj Demo.follow)
              Demo.world w1 h Hsign) as (kp & _ & _ & _ & Hdb & Hpub & _).
  exists kp, w1. repeat split; [exact Hdb | exact Hpub |].
  vm_compute in Hsign. injection Hsign as _ <-.
  vm_compute in Hdb. injection Hdb as <-. reflexivity.
Defined.




(** X10. Valid identities never share a keyId: the instance actor (0)
    and every user identity get pairwise different key URIs. *)
Theorem sign_keyId_is_injective (E : Env) (a b : Z) :
  0 <= a -> 0 <= b -> sign_keyId E a = sign_keyId E b -> a = b.
Proof.
  intros Ha Hb Heq. unfold sign_keyId in Heq.
  apply String.app_inj in Heq. apply str_app_inj_r in Heq.
  destruct (Z.ltb_spec 0 a), (Z.ltb_spec 0 b).
  - apply String.app_inj in Heq. exact (String_of_Z_inj a b Heq).
  - change ("/uid/" +:+ Js.String_of_Z a)
      with (String "/" (String "u" ("id/" +:+ Js.String_of_Z a))) in Heq.
    discriminate.
  - change ("/uid/" +:+ Js.String_of_Z b)
      with (String "/" (String "u" ("id/" +:+ Js.String_of_Z b))) in Heq.
    discriminate.
  - lia.
Qed.

Lemma sign_keyId_is_injective_witness :
  sign_keyId Demo.env 0 = "https://forum.example/actor#key"%string
  /\ sign_keyId Demo.env 7 = "https://forum.example/uid/7#key"%string
  /\ sign_keyId Demo.env 0 <> sign_keyId Demo.env 7.
Proof.
  split; [reflexivity|]. split; [reflexivity|].
  intros Heq.
  pose proof (sign_keyId_is_injective Demo.env 0 7 ltac:(lia) ltac:(lia) Heq) as H07.
  lia.
Defined.

(** X11. What [sign] emits, the parser of [verify] reads back: when
    the instance URL and the signature text hold no comma, the signature
    header of a successful [sign] parses into exactly the keyId of the
    identity, the list of signed headers and the signature text. *)
Theorem sign_header_parses_back (E : Env) (uid : Z) (url : string) (payload : JsVal)
        (w w1 : World) (h : SignatureHeader) :
  sign E uid url payload w = (Return h, w1) ->
  Js.has_char "," (nconf_url E) = false ->
  (forall k m s, rsa_sign E k m = Return s -> Js.has_char "," s = false) ->
  exists sig,
    parse_signature (signature h)
    = <["signature"%string := sig]>
        (<["headers"%string :=
             (if truthy payload
              then "(request-target) host date digest"
              else "(request-target) host date")%string]>
           (<["keyId"%string := sign_keyId E uid]> ∅))
    /\ Js.has_char "," sig = false.
Proof.
  intros Hsign Hurl Hb64.
  destruct (sign_inv E uid url payload w w1 h Hsign)
    as (host & pathname & key & sig & _ & _ & _ & Hsig & ->).
  exists sig. split; [|exact (Hb64 _ _ _ Hsig)].
  cbn [signature].
  rewrite (parse_signature_value (sign_keyId E uid) (sign_headers payload) sig
             (sign_keyId_no_comma E uid Hurl) (sign_headers_no_comma payload)
             (Hb64 _ _ _ Hsig)).
  unfold sign_headers. destruct (truthy payload); reflexivity.
Qed.

Lemma sign_header_parses_back_witness :
  parse_signature (signature (Demo.signed (JObj Demo.follow))) !! "keyId"%string
  = Some "https://forum.example/uid/1#key"%string
  /\ parse_signature (signature (Demo.signed (JObj Demo.follow))) !! "headers"%string
     = Some "(request-target) host date digest"%string.
Proof.
  destruct (sign_header_parses_back Demo.env 1 Demo.inbox_url (JObj Demo.follow)
              Demo.world (snd (sign Demo.env 1 Demo.inbox_url (JObj Demo.follow) Demo.world))
              (Demo.signed (JObj Demo.follow))) as (sig & Hparse & _).
  - vm_compute. reflexivity.
  - reflexivity.
  - intros k m s [= <-]. apply String_of_Z_no_comma.
  - rewrite Hparse. split; reflexivity.
Defined.

(** ** More on verification *)

(** X12. [verify] throws to its caller in exactly one situation: the
    request has a [signature] header whose parsed fields hold no
    [headers] entry.  In every other case it returns a boolean. *)
Theorem verify_throws_exactly_without_headers_field (E : Env) (req : Request) (w : World) :
  (exists e, fst (verify E req w) = Throw e)
  <-> exists sigv, req_headers req !! "signature"%string = Some sigv
                   /\ parse_signature sigv !! "headers"%string = None.
Proof.
  destruct (req_headers req !! "signature"%string) as [sigv|] eqn:Hsig.
  - destruct (parse_signature sigv !! "headers"%string) as [hs|] eqn:Hhs.
    + destruct (verify_returns_when_headers_listed E req w sigv hs Hsig Hhs)
        as (b & w' & ->).
      split; [intros [e He]; discriminate|].
      intros (sigv' & [= <-] & Hnone). congruence.
    + destruct (verify_missing_headers_field E req w sigv Hsig Hhs) as [msg ->].
      split; [eauto | intros _; eexists; reflexivity].
  - split.
    + intros [e He]. unfold verify in He. rewrite Hsig in He. discriminate.
    + intros (sigv & Habs & _). discriminate.
Qed.

Lemma fetchPublicKey_world (E : Env) (uri : JsVal) (w : World) :
  let call := HttpGet uri [("Accept"%string, JStr accept_type)] in
  snd (fetchPublicKey E uri w)
  = set_net (fun l => l ++ [(call, http E (net w) call)]) w.
Proof.
  cbv zeta. unfold fetchPublicKey, bind. rewrite request_run.
  destruct (http E (net w) _) as [r|e]; [|reflexivity].
  destruct (negb (Js.startsWith _ _)); [reflexivity|].
  unfold lift. destruct (hasOwnProperty (body r) "publicKey") as [[|]|e]; simpl;
    reflexivity.
Qed.

(** X13. [verify] talks to the network at most once, and only to fetch
    the key: the world it leaves is either untouched or extended by one
    GET for the parsed keyId that carries the [Accept] header alone (no
    signature, no cache lookup); keys, cache and actor records never
    change. *)
Theorem verify_fetches_at_most_once (E : Env) (req : Request) (w : World) :
  snd (verify E req w) = w
  \/ exists sigv,
      req_headers req !! "signature"%string = Some sigv
      /\ let call := HttpGet (opt_js (parse_signature sigv !! "keyId"%string))
                       [("Accept"%string, JStr accept_type)] in
         snd (verify E req w)
         = set_net (fun l => l ++ [(call, http E (net w) call)]) w.
Proof.
  unfold verify.
  destruct (req_headers req !! "signature"%string) as [sigv|]; [|left; reflexivity].
  destruct (parse_signature sigv !! "headers"%string) as [hs|]; [|left; reflexivity].
  right. exists sigv. split; [reflexivity|]. cbv zeta.
  pose proof (fetchPublicKey_world E (opt_js (parse_signature sigv !! "keyId"%string)) w)
    as Hw. cbv zeta in Hw.
  unfold try_catch, bind.
  destruct (fetchPublicKey E _ w) as [[pk|e] w']; simpl in Hw; subst w'; [|reflexivity].
  unfold lift. destruct (get_prop pk "publicKeyPem") as [pem|e]; [|reflexivity].
  destruct (rsa_verify E pem _ _); reflexivity.
Qed.

Lemma rebuild_agree (req req' : Request) (names : list string) :
  (forall name, name ∈ names -> name <> "(request-target)"%string ->
                req_headers req !! name = req_headers req' !! name) ->
  ("(request-target)"%string ∈ names ->
   Js.toLowerCase (method req) = Js.toLowerCase (method req')
   /\ baseUrl req +:+ path req = baseUrl req' +:+ path req') ->
  forall memo,
    fold_left (rebuild_step req) names memo = fold_left (rebuild_step req') names memo.
Proof.
  induction names as [|cur names IH]; intros Hhdr Htarget memo; [reflexivity|].
  cbn [fold_left].
  assert (Hstep : rebuild_step req memo cur = rebuild_step req' memo cur).
  { unfold rebuild_step. destruct (String.eqb_spec cur "(request-target)") as [->|Hne].
    - destruct (Htarget (list_elem_of_here _ _)) as [Hm Hp].
      rewrite Hm, Hp. reflexivity.
    - rewrite (Hhdr cur (list_elem_of_here _ _) Hne). reflexivity. }
  rewrite Hstep. apply IH.
  - intros name Hin. apply Hhdr. apply list_elem_of_further. exact Hin.
  - intros Hin. apply Htarget. apply list_elem_of_further. exact Hin.
Qed.

(** X14. The verdict of [verify] depends on the request only through
    what the [headers] field of its signature lists: two requests with the
    same signature header that agree on every listed header (and, if
    [(request-target)] is listed, on lower-cased method and full path) are
    treated identically; anything not listed is not authenticated. *)
Theorem verify_covers_only_listed_headers (E : Env) (req req' : Request) (w : World)
        (sigv hs : string) :
  req_headers req !! "signature"%string = Some sigv ->
  req_headers req' !! "signature"%string = Some sigv ->
  parse_signature sigv !! "headers"%string = Some hs ->
  (forall name, name ∈ Js.split " " hs -> name <> "(request-target)"%string ->
                req_headers req !! name = req_headers req' !! name) ->
  ("(request-target)"%string ∈ Js.split " " hs ->
   Js.toLowerCase (method req) = Js.toLowerCase (method req')
   /\ baseUrl req +:+ path req = baseUrl req' +:+ path req') ->
  verify E req w = verify E req' w.
Proof.
  intros Hsig Hsig' Hhs Hhdr Htarget.
  unfold verify. rewrite Hsig, Hsig', Hhs.
  unfold rebuild_signed_string.
  rewrite (rebuild_agree req req' (Js.split " " hs) Hhdr Htarget []).
  reflexivity.
Qed.

Lemma verify_covers_only_listed_headers_witness :
  let req := Demo.signed_request (Demo.signed (JObj Demo.follow)) "POST" "/inbox"
               (JObj Demo.follow) in
  let req' := {| method := "post"; baseUrl := "/inbox"; path := EmptyString;
                 req_headers := <["user-agent"%string := "curl"%string]> (req_headers req);
                 req_body := JNull |} in
  verify Demo.env req Demo.world = verify Demo.env req' Demo.world.
Proof.
  intros req req'.
  apply (verify_covers_only_listed_headers Demo.env req req' Demo.world
           (signature (Demo.signed (JObj Demo.follow)))
           "(request-target) host date digest").
  - vm_compute. reflexivity.
  - vm_compute. reflexivity.
  - vm_compute. reflexivity.
  - intros name Hin _.
    change (Js.split " " "(request-target) host date digest")
      with ["(request-target)"; "host"; "date"; "digest"]%string in Hin.
    symmetry. apply lookup_insert_ne.
    repeat (apply elem_of_cons in Hin as [->|Hin]; [discriminate|]).
    apply elem_of_nil in Hin as [].
  - intros _. split; reflexivity.
Defined.

(** X24. When the GET for the key document is answered with a
    three-digit status and a body that is neither [null] nor [undefined]
    nor an object with a member named [hasOwnProperty] of its own,
    [fetchPublicKey] throws the pubKey-not-found error exactly when the
    status is outside 200..299 or the body has no [publicKey] property,
    and returns that property otherwise; and whatever the fetch of its
    keyId throws, a [verify] that got as far as the fetch answers
    [false]. *)
Theorem fetchPublicKey_not_found_exactly (E : Env) (w : World) (uri : JsVal)
        (r : Response) (req : Request) (sigv hs : string) :
  http E (net w) (HttpGet uri [("Accept"%string, JStr accept_type)]) = Return r ->
  100 <= statusCode r <= 999 ->
  body r <> JNull ->
  body r <> JUndefined ->
  (forall o, body r = JObj o -> obj_get "hasOwnProperty" o = None) ->
  req_headers req !! "signature"%string = Some sigv ->
  parse_signature sigv !! "headers"%string = Some hs ->
  let field := match body r with
               | JObj o => obj_get "publicKey" o
               | _ => None
               end in
  (fst (fetchPublicKey E uri w) = Throw pubKey_not_found
   <-> ~ 200 <= statusCode r <= 299 \/ field = None)
  /\ (forall v, 200 <= statusCode r <= 299 -> field = Some v ->
                fst (fetchPublicKey E uri w) = Return v)
  /\ (forall e,
        fst (fetchPublicKey E (opt_js (parse_signature sigv !! "keyId"%string)) w) = Throw e ->
        fst (verify E req w) = Return false).
Proof.
  intros Hr Hst Hnull Hundef Hplain Hsig Hhs field.
  assert (Heq : fst (fetchPublicKey E uri w)
                = if (200 <=? statusCode r) && (statusCode r <=? 299)
                  then match field with
                       | Some v => Return v
                       | None => Throw pubKey_not_found
                       end
                  else Throw pubKey_not_found).
  { rewrite (fetchPublicKey_outcomes E w uri r Hr Hst).
    destruct ((200 <=? statusCode r) && (statusCode r <=? 299)); [|reflexivity].
    unfold field. destruct (body r) as [| |b|n|s|o]; try reflexivity; try contradiction.
    rewrite (Hplain o eq_refl). reflexivity. }
  rewrite Heq. clear Heq.
  split; [|split].
  - destruct (Z.leb_spec 200 (statusCode r)), (Z.leb_spec (statusCode r) 299); simpl;
      try (split; [intros _; left; lia | reflexivity]).
    destruct field as [v|].
    + split; [discriminate | intros [? | ?]; [lia | discriminate]].
    + split; [intros _; right; reflexivity | reflexivity].
  - intros v Hin Hv. rewrite Hv.
    destruct (Z.leb_spec 200 (statusCode r)), (Z.leb_spec (statusCode r) 299);
      try lia. reflexivity.
  - intros e He. exact (verify_catches_fetch_failure E req w sigv hs e Hsig Hhs He).
Qed.

Lemma fetchPublicKey_not_found_exactly_witness :
  fst (fetchPublicKey Demo.env (JStr "https://remote.example/missing#key") Demo.world)
  = Throw pubKey_not_found
  /\ fst (fetchPublicKey Demo.env (JStr "https://remote.example/nokey") Demo.world)
     = Throw pubKey_not_found
  /\ fst (fetchPublicKey Demo.env (JStr "https://forum.example/uid/1#key") Demo.world)
     = Return (JObj [("publicKeyPem"%string, JStr "key-0")])
  /\ fst (verify Demo.env (Demo.with_signature Demo.unknown_key) Demo.world) = Return false.
Proof.
  destruct (fetchPublicKey_not_found_exactly Demo.env Demo.world
              (JStr "https://remote.example/missing#key")
              {| statusCode := 404; body := JObj [("error"%string, JStr "not found")] |}
              (Demo.with_signature Demo.unknown_key) Demo.unknown_key
              "(request-target) host date") as (Hiff & _ & Hverify);
    try (vm_compute; reflexivity); try discriminate; [simpl; lia | intros o [= <-]; reflexivity |].
  destruct (fetchPublicKey_not_found_exactly Demo.env Demo.world
              (JStr "https://remote.example/nokey")
              {| statusCode := 200;
                 body := JObj [("id"%string, JStr "https://remote.example/nokey")] |}
              (Demo.with_signature Demo.unknown_key) Demo.unknown_key
              "(request-target) host date") as (Hiff1 & _ & _);
    try (vm_compute; reflexivity); try discriminate; [simpl; lia | intros o [= <-]; reflexivity |].
  destruct (fetchPublicKey_not_found_exactly Demo.env Demo.world
              (JStr "https://forum.example/uid/1#key")
              {| statusCode := 200; body := Demo.key_document "key-0" |}
              (Demo.with_signature Demo.unknown_key) Demo.unknown_key
              "(request-target) host date") as (_ & Hret & _);
    try (vm_compute; reflexivity); try discriminate; [simpl; lia | intros o [= <-]; reflexivity |].
  assert (Hthrow : fst (fetchPublicKey Demo.env (JStr "https://remote.example/missing#key")
                          Demo.world) = Throw pubKey_not_found)
    by (apply Hiff; left; simpl; lia).
  split; [exact Hthrow|].
  split; [apply Hiff1; right; reflexivity|].
  split; [apply Hret; [simpl; lia | reflexivity]|].
  apply (Hverify pubKey_not_found). vm_compute. reflexivity.
Defined.

(** * The webfinger controller *)

Lemma substring_skip (a s : string) (m : nat) :
  String.substring (String.length a) m (a +:+ s) = String.substring 0 m s.
Proof.
  induction a as [|x a IH]; [reflexivity|].
  rewrite str_app_cons. simpl. exact IH.
Qed.

Lemma substring_take (t u : string) :
  String.substring 0 (String.length t) (t +:+ u) = t.
Proof.
  induction t as [|x t IH]; [destruct u; reflexivity|].
  rewrite str_app_cons. simpl. rewrite IH. reflexivity.
Qed.

Lemma endsWith_app (a t : string) : Webfinger.endsWith (a +:+ t) t = true.
Proof.
  unfold Webfinger.endsWith. rewrite str_length_app.
  replace (String.length a + String.length t - String.length t)%nat
    with (String.length a) by lia.
  rewrite substring_skip.
  pose proof (substring_take t EmptyString) as Ht. rewrite str_app_nil_r in Ht.
  rewrite Ht, String.eqb_refl, andb_true_r. apply Nat.leb_le. lia.
Qed.

(** The slug between [acct:] and the host, whatever character separates
    it from the host. *)
Lemma resource_slug_cut (D : Webfinger.Deps) (slug : string) (c : ascii) :
  Webfinger.resource_slug D ("acct:" +:+ slug +:+ String c (Webfinger.host D)) = slug.
Proof.
  unfold Webfinger.resource_slug, Webfinger.slice.
  rewrite !str_length_app. simpl String.length.
  set (n := String.length slug). set (h := String.length (Webfinger.host D)).
  cbv zeta.
  replace (Z.of_nat (5 + (n + S h)) - (Z.of_nat h + 1)) with (Z.of_nat (5 + n)) by lia.
  destruct (Z.ltb_spec 5 0) as [?|_]; [lia|].
  destruct (Z.ltb_spec (Z.of_nat (5 + n)) 0) as [?|_]; [lia|].
  rewrite !Z.min_l by lia.
  replace (Z.to_nat 5) with (String.length "acct:") by reflexivity.
  replace (Z.to_nat (Z.of_nat (5 + n) - 5)) with n by lia.
  rewrite substring_skip. subst n. apply substring_take.
Qed.

Lemma webfinger_accepted (D : Webfinger.Deps) (slug : string) (c : ascii) (caller : Z) :
  Webfinger.webfinger D (Webfinger.text ("acct:" +:+ slug +:+ String c (Webfinger.host D))) caller
  = match Webfinger.getUidByUserslug D slug with
    | Throw e => Throw e
    | Return uid =>
        match Webfinger.answer D caller uid slug
                {| Webfinger.subject := "acct:" +:+ slug +:+ "@" +:+ Webfinger.host D;
                   Webfinger.aliases := None; Webfinger.links := None |} with
        | Return reply => Return reply
        | Throw _ => Return (Webfinger.sendStatus 400)
        end
    end.
Proof.
  unfold Webfinger.webfinger.
  change (String.eqb ("acct:" +:+ slug +:+ String c (Webfinger.host D)) EmptyString)
    with false.
  unfold Js.startsWith. rewrite prefix_app.
  replace ("acct:" +:+ slug +:+ String c (Webfinger.host D))
    with (("acct:" +:+ slug +:+ String c EmptyString) +:+ Webfinger.host D) at 1
    by (rewrite !str_app_assoc; reflexivity).
  rewrite endsWith_app. cbn [negb orb]. cbv zeta.
  rewrite resource_slug_cut. reflexivity.
Qed.

Lemma answer_shape (D : Webfinger.Deps) (caller uid : Z) (slug : string)
      (response : Webfinger.Descriptor) (reply : Webfinger.Reply) :
  Webfinger.answer D caller uid slug response = Return reply ->
  reply = Webfinger.sendStatus 404
  \/ exists d, reply = Webfinger.json 200 d
               /\ Webfinger.subject d = Webfinger.subject response.
Proof.
  unfold Webfinger.answer.
  destruct (Js.startsWith slug "cid.").
  - unfold Webfinger.category.
    destruct (Webfinger.can_find D _ caller) as [[|]|e]; simpl; try discriminate.
    destruct (Webfinger.getCategorySlug D _) as [cs|e]; [|discriminate].
    intros [= <-]. right. eexists. split; reflexivity.
  - destruct (String.eqb slug (Webfinger.hostname D)).
    + intros [= <-]. right. eexists. split; reflexivity.
    + destruct (negb (uid =? 0)); [|intros [= <-]; left; reflexivity].
      unfold Webfinger.profile.
      destruct (Webfinger.can_view_users D caller) as [[|]|e]; simpl; try discriminate.
      destruct (Webfinger.getUserslug D uid) as [us|e]; [|discriminate].
      intros [= <-]. right. eexists. split; reflexivity.
Qed.

(** X15. The controller answers with status 200, 400 or 404 and
    nothing else, and whatever goes wrong inside its handlers (a missing
    privilege, a failing lookup of a slug) becomes a 400.  It rejects in
    two cases only, both ahead of the [try]: the resource parameter is an
    array or an object, on which the guard throws a TypeError; or the
    resource was accepted and the lookup of the user id for its slug
    rejects. *)
Theorem webfinger_replies (D : Webfinger.Deps) (resource : Webfinger.Query) (caller : Z) :
  match Webfinger.webfinger D resource caller with
  | Return (Webfinger.sendStatus code) => code = 400 \/ code = 404
  | Return (Webfinger.json code _) => code = 200
  | Throw e =>
      (resource = Webfinger.nested /\ exists msg, e = TypeError msg)
      \/ (exists r, resource = Webfinger.text r
                    /\ Webfinger.getUidByUserslug D (Webfinger.resource_slug D r) = Throw e)
  end
  /\ (resource = Webfinger.nested ->
      exists msg, Webfinger.webfinger D resource caller = Throw (TypeError msg)).
Proof.
  split; [|intros ->; eexists; reflexivity].
  unfold Webfinger.webfinger.
  destruct resource as [|r|]; [left; reflexivity| |left; eauto].
  destruct (_ || _); [left; reflexivity|]. cbv zeta.
  destruct (Webfinger.getUidByUserslug D _) as [uid|e] eqn:Huid; [|eauto].
  destruct (Webfinger.answer D caller uid _ _) as [reply|e] eqn:Hans; [|left; reflexivity].
  destruct (answer_shape D caller uid _ _ reply Hans) as [-> | (d & -> & _)]; auto.
Qed.

Lemma webfinger_replies_witness :
  exists msg, Webfinger.webfinger Webfinger.demo Webfinger.nested 5 = Throw (TypeError msg).
Proof.
  apply (webfinger_replies Webfinger.demo Webfinger.nested 5). reflexivity.
Defined.

(** X16. Only the length of the host suffix is used to cut the slug:
    the character in front of the host is never looked at, so any
    separator is answered like [@]; and a 200 answer always carries the
    subject [acct:<slug>@<host>]. *)
Theorem webfinger_ignores_the_separator (D : Webfinger.Deps) (slug : string) (c : ascii)
        (caller : Z) :
  Webfinger.webfinger D (Webfinger.text ("acct:" +:+ slug +:+ String c (Webfinger.host D))) caller
  = Webfinger.webfinger D (Webfinger.text ("acct:" +:+ slug +:+ "@" +:+ Webfinger.host D)) caller
  /\ forall code d,
      Webfinger.webfinger D (Webfinger.text ("acct:" +:+ slug +:+ String c (Webfinger.host D))) caller
      = Return (Webfinger.json code d) ->
      Webfinger.subject d = "acct:" +:+ slug +:+ "@" +:+ Webfinger.host D.
Proof.
  split.
  - rewrite (webfinger_accepted D slug c caller).
    change ("acct:" +:+ slug +:+ "@" +:+ Webfinger.host D)
      with ("acct:" +:+ slug +:+ String "@" (Webfinger.host D)) at 2.
    rewrite (webfinger_accepted D slug "@" caller). reflexivity.
  - intros code d. rewrite (webfinger_accepted D slug c caller).
    destruct (Webfinger.getUidByUserslug D slug) as [uid|e]; [|discriminate].
    destruct (Webfinger.answer D caller uid slug _) as [reply|e] eqn:Hans; [|discriminate].
    intros [= ->].
    destruct (answer_shape D caller uid slug _ _ Hans) as [Habs | (d' & [= -> ->] & Hsub)];
      [discriminate | exact Hsub].
Qed.

(** X17. Looking up a user slug (one that is neither a category slug nor
    the host name): an unknown user is answered 404; a known user is
    answered 400 when the caller may not view users or the privilege check
    fails, and otherwise 200 with the uid and userslug aliases, the
    profile page link and, when federation is enabled, the actor link. *)
Theorem webfinger_user_lookup (D : Webfinger.Deps) (slug : string) (caller uid : Z) :
  Js.startsWith slug "cid." = false ->
  slug <> Webfinger.hostname D ->
  Webfinger.getUidByUserslug D slug = Return uid ->
  let reply := Webfinger.webfinger D
                 (Webfinger.text ("acct:" +:+ slug +:+ "@" +:+ Webfinger.host D)) caller in
  (uid = 0 -> reply = Return (Webfinger.sendStatus 404))
  /\ (uid <> 0 -> Webfinger.can_view_users D caller <> Return true ->
      reply = Return (Webfinger.sendStatus 400))
  /\ (uid <> 0 -> Webfinger.can_view_users D caller = Return true ->
      forall us, Webfinger.getUserslug D uid = Return us ->
        reply = Return (Webfinger.json 200
          {| Webfinger.subject := "acct:" +:+ slug +:+ "@" +:+ Webfinger.host D;
             Webfinger.aliases :=
               Some [Webfinger.url D +:+ "/uid/" +:+ Js.String_of_Z uid;
                     Webfinger.url D +:+ "/user/" +:+ us];
             Webfinger.links :=
               Some ({| Webfinger.rel := "http://webfinger.net/rel/profile-page";
                        Webfinger.type := "text/html";
                        Webfinger.href := Webfinger.url D +:+ "/user/" +:+ us |}
                     :: (if Webfinger.activitypubEnabled D
                         then [{| Webfinger.rel := "self";
                                  Webfinger.type := "application/activity+json";
                                  Webfinger.href :=
                                    Webfinger.url D +:+ "/uid/" +:+ Js.String_of_Z uid |}]
                         else [])) |})).
Proof.
  intros Hcid Hhost Huid reply. subst reply.
  change ("acct:" +:+ slug +:+ "@" +:+ Webfinger.host D)
    with ("acct:" +:+ slug +:+ String "@" (Webfinger.host D)) at 1 2 3.
  rewrite (webfinger_accepted D slug "@" caller), Huid.
  unfold Webfinger.answer. rewrite Hcid.
  destruct (String.eqb_spec slug (Webfinger.hostname D)) as [?|_]; [contradiction|].
  repeat split.
  - intros ->. reflexivity.
  - intros Hnz Hview. destruct (Z.eqb_spec uid 0) as [?|_]; [contradiction|].
    simpl. unfold Webfinger.profile.
    destruct (Webfinger.can_view_users D caller) as [[|]|e]; try reflexivity.
    contradiction.
  - intros Hnz Hview us Hus. destruct (Z.eqb_spec uid 0) as [?|_]; [contradiction|].
    simpl. unfold Webfinger.profile. rewrite Hview, Hus. reflexivity.
Qed.

Lemma webfinger_user_lookup_witness :
  Webfinger.webfinger Webfinger.demo (Webfinger.text "acct:bob@forum.example"%string) 5
  = Return (Webfinger.sendStatus 404)
  /\ Webfinger.webfinger Webfinger.demo (Webfinger.text "acct:alice@forum.example"%string) 0
     = Return (Webfinger.sendStatus 400)
  /\ exists d, Webfinger.webfinger Webfinger.demo (Webfinger.text "acct:alice@forum.example"%string) 5
               = Return (Webfinger.json 200 d)
               /\ Webfinger.aliases d = Some ["https://forum.example/uid/7";
                                              "https://forum.example/user/alice"]%string.
Proof.
  split; [|split].
  - destruct (webfinger_user_lookup Webfinger.demo "bob" 5 0) as (H404 & _);
      [reflexivity | discriminate | reflexivity |].
    apply H404. reflexivity.
  - destruct (webfinger_user_lookup Webfinger.demo "alice" 0 7) as (_ & H400 & _);
      [reflexivity | discriminate | reflexivity |].
    apply H400; [lia | discriminate].
  - destruct (webfinger_user_lookup Webfinger.demo "alice" 5 7) as (_ & _ & H200);
      [reflexivity | discriminate | reflexivity |].
    eexists. split; [apply H200; [lia | reflexivity | reflexivity] | reflexivity].
Defined.

(** X18. The actor link that webfinger advertises is the identity the
    ActivityPub module signs and sends as: for a user it is the [actor]
    that [send] injects, and the keyId of [sign] is that URI followed by
    [#key]; for the application it is [<url>/actor], whose key is the one
    of identity 0.  Without federation no [self] link is given. *)
Theorem webfinger_self_link_is_the_signing_actor (E : Env) (D : Webfinger.Deps)
        (caller uid : Z) (response d : Webfinger.Descriptor) :
  Webfinger.url D = nconf_url E ->
  0 < uid ->
  Webfinger.profile D caller uid response = Return d ->
  (exists page,
     Webfinger.rel page <> "self"%string
     /\ Webfinger.links d
        = Some (page :: (if Webfinger.activitypubEnabled D
                         then [Webfinger.self_link (default_actor E uid)]
                         else [])))
  /\ sign_keyId E uid = default_actor E uid +:+ "#key"
  /\ Webfinger.links (Webfinger.application D response)
     = Some (if Webfinger.activitypubEnabled D
             then [Webfinger.self_link (nconf_url E +:+ "/actor")]
             else [])
  /\ sign_keyId E 0 = (nconf_url E +:+ "/actor") +:+ "#key".
Proof.
  intros Hurl Huid Hprofile. unfold Webfinger.profile in Hprofile.
  destruct (Webfinger.can_view_users D caller) as [[|]|e]; simpl in Hprofile;
    try discriminate.
  destruct (Webfinger.getUserslug D uid) as [us|e]; [|discriminate].
  injection Hprofile as <-. simpl. rewrite Hurl.
  repeat split.
  - eexists. split; [|reflexivity]. simpl. discriminate.
  - unfold sign_keyId, default_actor.
    destruct (Z.ltb_spec 0 uid) as [_|?]; [|lia].
    rewrite !str_app_assoc. reflexivity.
  - unfold sign_keyId. simpl. rewrite !str_app_assoc. reflexivity.
Qed.

Lemma webfinger_self_link_is_the_signing_actor_witness :
  exists d,
    Webfinger.profile Webfinger.demo 5 7
      {| Webfinger.subject := "acct:alice@forum.example";
         Webfinger.aliases := None; Webfinger.links := None |} = Return d
    /\ sign_keyId Demo.env 7 = default_actor Demo.env 7 +:+ "#key".
Proof.
  eexists. split; [reflexivity|].
  destruct (webfinger_self_link_is_the_signing_actor Demo.env Webfinger.demo 5 7
              {| Webfinger.subject := "acct:alice@forum.example";
                 Webfinger.aliases := None; Webfinger.links := None |}
              _ eq_refl ltac:(lia) eq_refl) as (_ & Hkey & _).
  exact Hkey.
Defined.

(** * Profile menu links *)

Lemma fill_url_has_url (D : Accounts.Deps) (userslug : string) (link : Accounts.MenuLink) :
  is_Some (Accounts.url (Accounts.fill_url D userslug link))
  /\ Accounts.id (Accounts.fill_url D userslug link) = Accounts.id link
  /\ Accounts.visibility (Accounts.fill_url D userslug link) = Accounts.visibility link
  /\ (is_Some (Accounts.url link) -> Accounts.fill_url D userslug link = link).
Proof.
  unfold Accounts.fill_url. destruct (Accounts.url link) as [u|] eqn:Hu.
  - rewrite Hu. repeat split; eauto.
  - simpl. repeat split; eauto. intros [? ?]. discriminate.
Qed.

(** X19. When the plugin hook, fired on the built-in links, hands back
    [hooked] and the userslug is found, [getProfileMenu] returns one link
    for each link of [hooked], in the same order and with the same id, and
    every one of them has a URL: a link that came back from the hook with
    a URL of its own is returned unchanged, any other gets
    [<relative_path>/user/<userslug>/<route>] and is otherwise unchanged.
    Conversely, whatever [getProfileMenu] returns arises in this way. *)
Theorem profile_menu_links_have_urls (D : Accounts.Deps) (uid callerUID : Z) :
  let builtins := [Accounts.info_link; Accounts.sessions_link]
                  ++ (if Accounts.gdpr_enabled D then [Accounts.consent_link] else []) in
  (forall hooked userslug,
     Accounts.profileMenu_hook D uid callerUID builtins = Return hooked ->
     Accounts.getUserslug D uid = Return userslug ->
     exists links,
       Accounts.getProfileMenu D uid callerUID = Return links
       /\ Forall (fun l => is_Some (Accounts.url l)) links
       /\ map Accounts.id links = map Accounts.id hooked
       /\ Forall2 (fun h l =>
                     match Accounts.url h with
                     | Some _ => l = h
                     | None =>
                         Accounts.url l
                         = Some (Accounts.relative_path D +:+ "/user/" +:+ userslug
                                 +:+ "/" +:+ Accounts.route h)
                         /\ Accounts.route l = Accounts.route h
                         /\ Accounts.name l = Accounts.name h
                         /\ Accounts.icon l = Accounts.icon h
                         /\ Accounts.visibility l = Accounts.visibility h
                         /\ Accounts.public l = Accounts.public h
                     end) hooked links)
  /\ (forall links,
        Accounts.getProfileMenu D uid callerUID = Return links ->
        exists hooked userslug,
          Accounts.profileMenu_hook D uid callerUID builtins = Return hooked
          /\ Accounts.getUserslug D uid = Return userslug).
Proof.
  intros builtins. split.
  - intros hooked userslug Hhook Hslug.
    exists (map (Accounts.fill_url D userslug) hooked).
    split; [|split; [|split]].
    + unfold Accounts.getProfileMenu. fold builtins. rewrite Hhook, Hslug. reflexivity.
    + apply Forall_fmap, Forall_forall. intros l _. apply fill_url_has_url.
    + rewrite <- list_fmap_compose. apply list_fmap_ext. intros i l _.
      apply fill_url_has_url.
    + apply Forall2_fmap_r, Forall_Forall2_diag, Forall_forall. intros h _.
      unfold compose. destruct (Accounts.url h) as [u|] eqn:Hu.
      * apply fill_url_has_url. rewrite Hu. eauto.
      * unfold Accounts.fill_url. rewrite Hu. repeat split; reflexivity.
  - intros links. unfold Accounts.getProfileMenu. fold builtins.
    destruct (Accounts.profileMenu_hook D uid callerUID builtins) as [hooked|e];
      [|discriminate].
    destruct (Accounts.getUserslug D uid) as [userslug|e]; [|discriminate].
    intros _. eauto.
Qed.

Lemma profile_menu_links_have_urls_witness :
  exists links,
    Accounts.getProfileMenu Accounts.demo_plugin 7 7 = Return links
    /\ map Accounts.url links
       = [Some "https://chat.example/room"; Some "/forum/user/alice/info";
          Some "/forum/user/alice/sessions"]%string
    /\ map Accounts.id links = ["chat"; "info"; "sessions"]%string.
Proof.
  destruct (profile_menu_links_have_urls Accounts.demo_plugin 7 7) as [Hmenu _].
  destruct (Hmenu [Accounts.chat_link; Accounts.info_link; Accounts.sessions_link]
              "alice"%string eq_refl eq_refl) as (links & Hget & _ & Hids & _).
  exists links. split; [exact Hget|]. split; [|exact Hids].
  vm_compute in Hget. injection Hget as <-. reflexivity.
Defined.

Lemma merged_flag (vis : gmap string bool) (k : string) :
  Accounts.default_visibility !! k = Some true ->
  vis !! k <> Some false ->
  (vis ∪ Accounts.default_visibility) !! k = Some true.
Proof.
  intros Hdef Hvis. destruct (vis !! k) as [[|]|] eqn:Hk.
  - apply lookup_union_Some_l. exact Hk.
  - contradiction.
  - rewrite lookup_union_r by exact Hk. exact Hdef.
Qed.

(** X20. A link that does not hide itself from [self] nor from
    [other] is listed for every caller: the states passed by
    [getUserDataByUserSlug] always hold one of the two.  In particular a
    plugin link without any visibility setting is always listed. *)
Theorem filterLinks_lists_unrestricted_links (links : list Accounts.MenuLink)
        (link : Accounts.MenuLink) (isSelf isModerator isGlobalModerator isAdmin canView : bool) :
  link ∈ links ->
  Accounts.visibility link !! "self"%string <> Some false ->
  Accounts.visibility link !! "other"%string <> Some false ->
  let states := Accounts.caller_states isSelf isModerator isGlobalModerator isAdmin canView in
  Accounts.mark states link ∈ Accounts.filterLinks links states
  /\ Accounts.public (Accounts.mark states link) = Some true.
Proof.
  intros Hin Hself Hother states.
  assert (Hpermit : Accounts.permit states
                      (Accounts.visibility link ∪ Accounts.default_visibility) = true).
  { unfold Accounts.permit, states, Accounts.caller_states, Accounts.state_entries.
    cbn [existsb fst snd Accounts.self Accounts.other].
    rewrite (merged_flag _ "self" eq_refl Hself), (merged_flag _ "other" eq_refl Hother).
    destruct isSelf; reflexivity. }
  assert (Hpublic : Accounts.public (Accounts.mark states link) = Some true).
  { unfold Accounts.mark. simpl. rewrite Hpermit. reflexivity. }
  split; [|exact Hpublic].
  unfold Accounts.filterLinks. apply list_elem_of_filter. split; [exact Hpublic|].
  apply list_elem_of_fmap. eauto.
Qed.

Lemma filterLinks_lists_unrestricted_links_witness :
  let plugin_link := Accounts.builtin "theme" "theme" "Theme" "fa-paint-brush" ∅ in
  let states := Accounts.caller_states false false false false false in
  Accounts.mark states plugin_link
  ∈ Accounts.filterLinks [Accounts.info_link; plugin_link] states.
Proof.
  intros plugin_link states.
  apply (filterLinks_lists_unrestricted_links [Accounts.info_link; plugin_link] plugin_link
           false false false false false).
  - apply list_elem_of_further, list_elem_of_here.
  - discriminate.
  - discriminate.
Defined.

Lemma permit_mono (s s' : Accounts.States) (vis : gmap string bool) :
  Forall2 (fun kv kv' => kv.1 = kv'.1 /\ (kv.2 = true -> kv'.2 = true))
    (Accounts.state_entries s) (Accounts.state_entries s') ->
  Accounts.permit s vis = true -> Accounts.permit s' vis = true.
Proof.
  unfold Accounts.permit.
  generalize (Accounts.state_entries s) (Accounts.state_entries s').
  intros l l' Hall. induction Hall as [|[k b] [k' b'] l l' [Hk Hb] _ IH]; simpl in *;
    [discriminate|].
  subst k'. intros Hex. apply orb_true_iff in Hex as [Hhd|Htl].
  - apply andb_true_iff in Hhd as [Hb1 Hv]. rewrite (Hb Hb1), Hv. reflexivity.
  - rewrite (IH Htl). apply orb_true_r.
Qed.

(** X21. Granting a caller more states never hides a link: every link
    listed for [states] is listed, as the same marked link, for any
    [states'] that holds at least the same states.  With no state at all
    nothing is listed. *)
Theorem filterLinks_grows_with_states (links : list Accounts.MenuLink)
        (states states' : Accounts.States) :
  (Accounts.self states = true -> Accounts.self states' = true) ->
  (Accounts.other states = true -> Accounts.other states' = true) ->
  (Accounts.moderator states = true -> Accounts.moderator states' = true) ->
  (Accounts.globalMod states = true -> Accounts.globalMod states' = true) ->
  (Accounts.admin states = true -> Accounts.admin states' = true) ->
  (Accounts.canViewInfo states = true -> Accounts.canViewInfo states' = true) ->
  (forall l, l ∈ Accounts.filterLinks links states -> l ∈ Accounts.filterLinks links states')
  /\ Accounts.filterLinks links
       {| Accounts.self := false; Accounts.other := false; Accounts.moderator := false;
          Accounts.globalMod := false; Accounts.admin := false;
          Accounts.canViewInfo := false |} = [].
Proof.
  intros Hs Ho Hm Hg Ha Hc. split.
  - intros l Hin. unfold Accounts.filterLinks in *.
    apply list_elem_of_filter in Hin as [Hpub Hin].
    apply list_elem_of_fmap in Hin as (link & -> & Hlink).
    unfold Accounts.mark in Hpub. simpl in Hpub. injection Hpub as Hpermit.
    assert (Hpermit' : Accounts.permit states'
                         (Accounts.visibility link ∪ Accounts.default_visibility) = true).
    { apply (permit_mono states states'); [|exact Hpermit].
      unfold Accounts.state_entries. repeat constructor; simpl; assumption. }
    assert (Heq : Accounts.mark states link = Accounts.mark states' link).
    { unfold Accounts.mark. rewrite Hpermit, Hpermit'. reflexivity. }
    rewrite Heq. apply list_elem_of_filter. split.
    + unfold Accounts.mark. simpl. rewrite Hpermit'. reflexivity.
    + apply list_elem_of_fmap. eauto.
  - unfold Accounts.filterLinks. induction links as [|link links IH]; [reflexivity|].
    cbn [map]. rewrite filter_cons_False; [exact IH|].
    unfold Accounts.mark, Accounts.permit. simpl. discriminate.
Qed.

Lemma filterLinks_grows_with_states_witness :
  let links := [Accounts.info_link; Accounts.sessions_link] in
  let owner := Accounts.caller_states true false false false false in
  let owner_admin := Accounts.caller_states true false false true true in
  (exists l, l ∈ Accounts.filterLinks links owner /\ Accounts.id l = "sessions"%string
             /\ l ∈ Accounts.filterLinks links owner_admin)
  /\ map Accounts.id (Accounts.filterLinks links owner_admin) = ["info"; "sessions"]%string
  /\ Accounts.filterLinks links
       {| Accounts.self := false; Accounts.other := false; Accounts.moderator := false;
          Accounts.globalMod := false; Accounts.admin := false;
          Accounts.canViewInfo := false |} = [].
Proof.
  intros links owner owner_admin.
  destruct (filterLinks_grows_with_states links owner owner_admin) as [Hgrow Hnone];
    try (simpl; intros; congruence).
  split; [|split; [vm_compute; reflexivity | exact Hnone]].
  exists (Accounts.mark owner Accounts.sessions_link).
  assert (Hin : Accounts.mark owner Accounts.sessions_link ∈ Accounts.filterLinks links owner).
  { unfold Accounts.filterLinks. apply list_elem_of_filter. split; [reflexivity|].
    apply list_elem_of_fmap. exists Accounts.sessions_link. split; [reflexivity|].
    apply list_elem_of_further, list_elem_of_here. }
  split; [exact Hin|]. split; [reflexivity|]. exact (Hgrow _ Hin).
Defined.

(** X22. With no plugin changing the menu, what a caller sees of the
    built-in links is: [info] for an administrator or a caller who may
    view user info, [sessions] for the account owner, and [consent] for
    the owner when GDPR is enabled; being a moderator or global moderator
    alone shows none of them. *)
Theorem builtin_profile_menu (D : Accounts.Deps) (uid callerUID : Z)
        (isSelf isModerator isGlobalModerator isAdmin canView : bool)
        (links : list Accounts.MenuLink) :
  (forall ls, Accounts.profileMenu_hook D uid callerUID ls = Return ls) ->
  Accounts.getProfileMenu D uid callerUID = Return links ->
  map Accounts.id
    (Accounts.filterLinks links
       (Accounts.caller_states isSelf isModerator isGlobalModerator isAdmin canView))
  = (if isAdmin || canView then ["info"%string] else [])
    ++ (if isSelf then ["sessions"%string] else [])
    ++ (if isSelf && Accounts.gdpr_enabled D then ["consent"%string] else []).
Proof.
  intros Hhook Hmenu. unfold Accounts.getProfileMenu in Hmenu.
  rewrite Hhook in Hmenu.
  destruct (Accounts.getUserslug D uid) as [userslug|e]; [|discriminate].
  injection Hmenu as <-.
  destruct (Accounts.gdpr_enabled D), isSelf, isModerator, isGlobalModerator, isAdmin,
    canView; vm_compute; reflexivity.
Qed.

Lemma builtin_profile_menu_witness :
  exists links,
    Accounts.getProfileMenu (Accounts.demo true) 7 7 = Return links
    /\ map Accounts.id
         (Accounts.filterLinks links (Accounts.caller_states true false false false false))
       = ["sessions"; "consent"]%string
    /\ map Accounts.id
         (Accounts.filterLinks links (Accounts.caller_states false true true false false))
       = [].
Proof.
  eexists. split; [reflexivity|]. split.
  - apply (builtin_profile_menu (Accounts.demo true) 7 7 true false false false false);
      [intros ls; reflexivity | reflexivity].
  - apply (builtin_profile_menu (Accounts.demo true) 7 7 false true true false false);
      [intros ls; reflexivity | reflexivity].
Defined.

(** X23. The instance actor is discoverable by everyone: for the
    resource [acct:<hostname>@<host>] the controller answers 200 with the
    instance URL as alias, whoever calls and whatever the user lookup
    returns; no privilege is consulted.  (The host name is assumed not to
    start with [cid.], which would select the category branch.) *)
Theorem webfinger_application_is_public (D : Webfinger.Deps) (caller uid : Z) :
  Js.startsWith (Webfinger.hostname D) "cid." = false ->
  Webfinger.getUidByUserslug D (Webfinger.hostname D) = Return uid ->
  Webfinger.webfinger D
    (Webfinger.text ("acct:" +:+ Webfinger.hostname D +:+ "@" +:+ Webfinger.host D)) caller
  = Return (Webfinger.json 200
      {| Webfinger.subject := "acct:" +:+ Webfinger.hostname D +:+ "@" +:+ Webfinger.host D;
         Webfinger.aliases := Some [Webfinger.url D];
         Webfinger.links :=
           Some (if Webfinger.activitypubEnabled D
                 then [{| Webfinger.rel := "self";
                          Webfinger.type := "application/activity+json";
                          Webfinger.href := Webfinger.url D +:+ "/actor" |}]
                 else []) |}).
Proof.
  intros Hcid Huid.
  change ("acct:" +:+ Webfinger.hostname D +:+ "@" +:+ Webfinger.host D)
    with ("acct:" +:+ Webfinger.hostname D +:+ String "@" (Webfinger.host D)) at 1.
  rewrite (webfinger_accepted D (Webfinger.hostname D) "@" caller), Huid.
  unfold Webfinger.answer. rewrite Hcid, String.eqb_refl. reflexivity.
Qed.

Lemma webfinger_application_is_public_witness :
  exists d,
    Webfinger.webfinger Webfinger.demo (Webfinger.text "acct:forum.example@forum.example"%string) 0
    = Return (Webfinger.json 200 d)
    /\ Webfinger.aliases d = Some ["https://forum.example"%string].
Proof.
  eexists. split.
  - apply (webfinger_application_is_public Webfinger.demo 0 0); reflexivity.
  - reflexivity.
Defined.
